(** * SoulBios admission engine: bouncer policy, review scheduler,
      strategy provider and strategy cache.

    Shallow embedding of [soulbios_player.py] and
    [infrastructure/strategy_cache.py].

    Conventions of the embedding.
    - Python [int] is [Z].  A Python [float] is a binary64 number.  The two
      decision logics, the similarity score and the similarity lookup are
      embedded on binary64 ([B64], [PlayerB64], [CacheB64]), and what turns
      on the outcome of a comparison of floats is settled there.  The same
      functions are also embedded on exact rationals in [Q] ([Player],
      [Cache]), for what does not depend on rounding: the dispatch, the
      guards, the ledger, the counters and the bounds.
    - A Python [dict] that is only read by key, iterated and updated by key
      is a [gmap]; the strategy cache, whose eviction sorts the items of the
      dict (a stable sort, so insertion order shows), is an association list
      in insertion order.
    - A [dict.get(key, default)] on an optional key is an [option] field
      together with the default written at the place of the read.
    - Code that may raise returns [result]. *)

From Stdlib Require Import ZArith QArith Qminmax Lqa Lia List String.
From Stdlib Require Import Sorting.Sorted Sorting.Permutation.
From Stdlib Require Import Floats.SpecFloat.
From stdpp Require Import gmap strings list fin_maps.

Open Scope Z_scope.

(** ** Exceptions and the error monad *)

Module Py.

Inductive exn : Type :=
| ZeroDivisionError
| OverflowError
| TypeError
| KeyError
| AttributeError
| HTTPStatusError (status_code : Z)
| TimeoutException
| TransportError
| JSONDecodeError.

Inductive result (A : Type) : Type :=
| Ok (a : A)
| Raise (e : exn).

Arguments Ok {A} a.
Arguments Raise {A} e.

#[global] Instance result_ret : MRet result := fun A a => Ok a.
#[global] Instance result_bind : MBind result :=
  fun A B f m => match m with Ok a => f a | Raise e => Raise e end.

(** [a / b] on two ints: true division, [ZeroDivisionError] when [b = 0]. *)
Definition truediv (a b : Z) : result Q :=
  if b =? 0 then Raise ZeroDivisionError else Ok (inject_Z a / inject_Z b)%Q.

(** [max(xs)] on a non-empty list keeps the first largest element. *)
Definition max_of (x : Q) (xs : list Q) : Q :=
  fold_left (fun m u => if Qle_bool u m then m else u) xs x.

End Py.

Import Py.

(** ** Binary64 arithmetic

    A Python [float] is an IEEE 754 binary64 number.  The operations are
    those of [SpecFloat] at precision 53 and exponent bound 1024; a
    comparison with a NaN is false. *)

Module B64.

Definition prec : Z := 53.
Definition emax : Z := 1024.

Definition float : Type := spec_float.

Definition add : float -> float -> float := SFadd prec emax.
Definition sub : float -> float -> float := SFsub prec emax.
Definition mul : float -> float -> float := SFmul prec emax.
Definition lt : float -> float -> bool := SFltb.
Definition le : float -> float -> bool := SFleb.
Definition eq : float -> float -> bool := SFeqb.

(** An int as the operand of a division: its sign and its magnitude. *)
Definition of_int (n : Z) : float :=
  match n with
  | Z0 => S754_zero false
  | Zpos p => S754_finite false p 0
  | Zneg p => S754_finite true p 0
  end.

(** The quotient of two ints, rounded once to the nearest binary64 number,
    ties to even. *)
Definition quotient (a b : Z) : float := SFdiv prec emax (of_int a) (of_int b).

Definition zero : float := S754_zero false.
Definition one : float := quotient 1 1.

(** The float of a decimal literal, in the source or in a JSON text: the
    binary64 number nearest to it. *)
Definition of_decimal (q : Q) : float := quotient (Qnum q) (Zpos (Qden q)).

(** [a / b] on two ints: [ZeroDivisionError] when [b = 0],
    [OverflowError] when the quotient is too large for a float. *)
Definition truediv (a b : Z) : result float :=
  if b =? 0 then Raise ZeroDivisionError
  else
    match quotient a b with
    | S754_infinity _ => Raise OverflowError
    | q => Ok q
    end.

(** [max(xs)] on a non-empty list: an element replaces the largest so far
    when it compares greater. *)
Definition max_of (x : float) (xs : list float) : float :=
  fold_left (fun m u => if lt m u then u else m) xs x.

(** [max(0, x)] *)
Definition max0 (x : float) : float := if lt zero x then x else zero.

(** The ints whose quotient by any nonzero int is within the range of
    binary64: those of magnitude below 2^1023. *)
Definition in_range (n : Z) : bool := Z.abs n <? 2 ^ (emax - 1).

(** The sign of a fraction. *)
Definition sign_of (a b : Z) : bool := xorb (a <? 0) (b <? 0).

(** The order of the comparisons: the class (infinities, negative, zero,
    positive), then the exponent, then the mantissa. *)
Definition key (x : float) : option (Z * (Z * Z)) :=
  match x with
  | S754_nan => None
  | S754_infinity true => Some (-2, (0, 0))
  | S754_finite true m e => Some (-1, (- e, - Zpos m))
  | S754_zero _ => Some (0, (0, 0))
  | S754_finite false m e => Some (1, (e, Zpos m))
  | S754_infinity false => Some (2, (0, 0))
  end.

Definition key_lt (a b : Z * (Z * Z)) : Prop :=
  a.1 < b.1 \/ (a.1 = b.1 /\ (a.2.1 < b.2.1 \/ (a.2.1 = b.2.1 /\ a.2.2 < b.2.2))).

Definition key_rel (R : Z * (Z * Z) -> Z * (Z * Z) -> Prop) (x y : float) : Prop :=
  match key x, key y with
  | Some a, Some b => R a b
  | _, _ => False
  end.

End B64.

(** ** The player: [soulbios_player.py] *)

Module Player.

Definition STRATEGIC_REVIEW_INTERVAL : Z := 100.

(** The value [{"target": ..., "admitted": ...}] kept per attribute. *)
Record constraint_data : Type := {
  target : Z;
  admitted : Z
}.

(** The strategy dict, as far as the policy reads it.  A key that may be
    absent is an [option]; the default of each [.get] is at the read. *)
Record early_game_params : Type := {
  base_leniency : option Q;
  scaling_factor : option Q
}.

Record late_game_params : Type := {
  base_threshold : option Q;
  buffer_percent : option Q
}.

Record Strategy : Type := {
  policy_type : option string;
  phase_switch_point : option Z;
  early_params : option early_game_params;
  late_params : option late_game_params
}.

Record BouncerPolicy : Type := {
  constraints : gmap string constraint_data;
  strategy : Strategy;
  slots_filled : Z;
  rejections : Z;
  slots_remaining : Z;
  recent_decisions : list bool
}.

(** [needed = data['target'] - data['admitted']] *)
Definition needed (data : constraint_data) : Z := target data - admitted data.

(** The panic-mode loop of [should_admit] over [self.constraints.items()]:
    [true] when the loop returns [True], [false] when it falls through. *)
Fixpoint panic_scan (slots : Z) (person_attributes : gmap string bool)
    (items : list (string * constraint_data)) : bool :=
  match items with
  | [] => false
  | (attr, data) :: rest =>
      if (0 <? slots) && (slots <=? needed data) then
        if default false (person_attributes !! attr) then true
        else panic_scan slots person_attributes rest
      else panic_scan slots person_attributes rest
  end.

Definition panic_mode (self : BouncerPolicy) (person_attributes : gmap string bool) : bool :=
  panic_scan (slots_remaining self) person_attributes (map_to_list (constraints self)).

(** The loop shared by both logics: the urgencies of the attributes the
    person carries, in the order of [person_attributes.items()]. *)
Fixpoint urgencies_of (self : BouncerPolicy) (items : list (string * bool)) : result (list Q) :=
  match items with
  | [] => Ok []
  | (attr, has_attr) :: rest =>
      match constraints self !! attr with
      | Some data =>
          if has_attr && (0 <? slots_remaining self) then
            urgency ← truediv (needed data) (slots_remaining self);
            us ← urgencies_of self rest;
            mret (urgency :: us)
          else urgencies_of self rest
      | None => urgencies_of self rest
      end
  end.

Definition early_of (s : Strategy) : early_game_params :=
  default {| base_leniency := None; scaling_factor := None |} (early_params s).

Definition late_of (s : Strategy) : late_game_params :=
  default {| base_threshold := None; buffer_percent := None |} (late_params s).

(** The bar of the Max-Urgency logic, in exact arithmetic; [PlayerB64] has
    it in binary64. *)
Definition dynamic_threshold (self : BouncerPolicy) : Q :=
  let params := early_of (strategy self) in
  let base_leniency := default (55 # 100)%Q (base_leniency params) in
  let scaling_factor := default (4 # 10)%Q (scaling_factor params) in
  (base_leniency + scaling_factor * (inject_Z (slots_filled self) / 1000))%Q.

Definition _max_urgency_logic (self : BouncerPolicy) (person_attributes : gmap string bool)
  : result bool :=
  urgencies ← urgencies_of self (map_to_list person_attributes);
  match urgencies with
  | [] => Ok false
  | u :: us =>
      let max_urgency := max_of u us in
      if Qle_bool 1 max_urgency then Ok true
      else Ok (Qle_bool (dynamic_threshold self) max_urgency)
  end.

Definition _combined_value_logic (self : BouncerPolicy) (person_attributes : gmap string bool)
  : result bool :=
  let params := late_of (strategy self) in
  let base_threshold := default (75 # 100)%Q (base_threshold params) in
  let buffer_percent := default (1 # 10)%Q (buffer_percent params) in
  urgencies ← urgencies_of self (map_to_list person_attributes);
  let combined_urgency := fold_left Qplus urgencies 0%Q in
  if Qeq_bool combined_urgency 0 then Ok false
  else if Qle_bool (1 + buffer_percent) combined_urgency then Ok true
  else Ok (Qle_bool base_threshold combined_urgency).

Definition should_admit (self : BouncerPolicy) (person_attributes : gmap string bool)
  : result bool :=
  if panic_mode self person_attributes then Ok true
  else
    let policy_type := default "Hybrid"%string (policy_type (strategy self)) in
    if String.eqb policy_type "Hybrid"
       && (slots_filled self <? default 400 (phase_switch_point (strategy self)))
    then _max_urgency_logic self person_attributes
    else if String.eqb policy_type "MaxUrgency"
    then _max_urgency_logic self person_attributes
    else _combined_value_logic self person_attributes.

(** [l[k:]] for an int [k], negative [k] counting from the end. *)
Definition slice_from {A : Type} (k : Z) (l : list A) : list A :=
  let n := Z.of_nat (length l) in
  let start := if k <? 0 then Z.max 0 (n + k) else Z.min k n in
  drop (Z.to_nat start) l.

Definition reset (self : BouncerPolicy) : BouncerPolicy :=
  {| constraints := (fun data => {| target := target data; admitted := 0 |}) <$> constraints self;
     strategy := strategy self;
     slots_filled := 0;
     rejections := 0;
     slots_remaining := 1000;
     recent_decisions := [] |}.

(** [BouncerPolicy(constraints, strategy)]: the constraints of the game, as
    (attribute, minCount) pairs, a later pair overriding an earlier one. *)
Definition new_policy (game_constraints : list (string * Z)) (s : Strategy) : BouncerPolicy :=
  reset
    {| constraints :=
         fold_left (fun m c => <[c.1 := {| target := c.2; admitted := 0 |}]> m)
                   game_constraints ∅;
       strategy := s;
       slots_filled := 0;
       rejections := 0;
       slots_remaining := 1000;
       recent_decisions := [] |}.

Definition set_strategy (self : BouncerPolicy) (s : Strategy) : BouncerPolicy :=
  {| constraints := constraints self;
     strategy := s;
     slots_filled := slots_filled self;
     rejections := rejections self;
     slots_remaining := slots_remaining self;
     recent_decisions := recent_decisions self |}.

Definition _record_admission (cs : gmap string constraint_data)
    (person_attributes : gmap string bool) : gmap string constraint_data :=
  fold_left
    (fun m item =>
       if (item.2 : bool) && bool_decide (is_Some (m !! item.1))
       then alter (fun data => {| target := target data; admitted := admitted data + 1 |}) item.1 m
       else m)
    (map_to_list person_attributes) cs.

Definition update_state (self : BouncerPolicy) (accepted : bool)
    (person_attributes : gmap string bool) : BouncerPolicy :=
  let appended := recent_decisions self ++ [accepted] in
  let recent := if (25 <? length appended)%nat then drop 1 appended else appended in
  let filled := if accepted then slots_filled self + 1 else slots_filled self in
  {| constraints :=
       if accepted then _record_admission (constraints self) person_attributes
       else constraints self;
     strategy := strategy self;
     slots_filled := filled;
     rejections := if accepted then rejections self else rejections self + 1;
     slots_remaining := 1000 - filled;
     recent_decisions := recent |}.

Definition get_acceptance_rate_in_window (self : BouncerPolicy) (window_size : Z) : result Q :=
  let recent := recent_decisions self in
  if bool_decide (recent = []) || (Z.of_nat (length recent) <? window_size) then Ok 1%Q
  else
    let recent_window := slice_from (- window_size) recent in
    let acceptances := Z.of_nat (length (filter (fun d => d = true) recent_window)) in
    truediv acceptances (Z.of_nat (length recent_window)).

(** The emergency check of [play_game]; the conjuncts are evaluated left to
    right, so the rate is computed only when the first three hold. *)
Definition emergency_triggered (person_index : Z) (policy : BouncerPolicy) : result bool :=
  let recent_acceptance_window := 25 in
  if (450 <? person_index)
     && negb (person_index `mod` STRATEGIC_REVIEW_INTERVAL =? 0)
     && (recent_acceptance_window <=? Z.of_nat (length (recent_decisions policy)))
  then
    rate ← get_acceptance_rate_in_window policy recent_acceptance_window;
    mret (Qeq_bool rate 0)
  else Ok false.

(** The condition guarding the review block of [play_game]. *)
Definition review_due (person_index : Z) (policy : BouncerPolicy) : result bool :=
  emergency ← emergency_triggered person_index policy;
  mret ((0 <? person_index)
        && ((person_index `mod` STRATEGIC_REVIEW_INTERVAL =? 0) || emergency)).

(** What [play_game] does to the policy between two candidates: it may
    install a reviewed strategy, and it records the decision. *)
Inductive policy_call : Type :=
| SetStrategy (s : Strategy)
| UpdateState (accepted : bool) (person_attributes : gmap string bool).

Definition run_call (self : BouncerPolicy) (c : policy_call) : BouncerPolicy :=
  match c with
  | SetStrategy s => set_strategy self s
  | UpdateState accepted person_attributes => update_state self accepted person_attributes
  end.

(** The policy after a run of calls, the oldest first. *)
Definition after_calls (self : BouncerPolicy) (calls : list policy_call) : BouncerPolicy :=
  fold_left run_call calls self.

(** The decisions recorded by a run of calls, the oldest first. *)
Definition decisions_of (calls : list policy_call) : list bool :=
  omap (fun c => match c with UpdateState accepted _ => Some accepted | SetStrategy _ => None end)
       calls.

(** *** The strategy provider *)

(** A decoded JSON value, as [response.json()] returns it. *)
#[warnings="-register-all"] Inductive json : Type :=
| JNull
| JBool (b : bool)
| JInt (z : Z)
| JFloat (q : Q)
| JStr (s : string)
| JArr (items : list json)
| JObj (members : list (string * json)).

Definition obj_lookup (key : string) (members : list (string * json)) : option json :=
  snd <$> List.find (fun m => String.eqb m.1 key) members.

(** [key in v] for a string [key]. *)
Definition py_in (key : string) (v : json) : result bool :=
  match v with
  | JObj members => Ok (bool_decide (is_Some (obj_lookup key members)))
  | JArr items =>
      Ok (existsb (fun x => match x with JStr s => String.eqb s key | _ => false end) items)
  | JStr s => Ok (bool_decide (is_Some (String.index 0 key s)))
  | _ => Raise TypeError
  end.

(** [v[key]] for a string [key]. *)
Definition py_getitem (v : json) (key : string) : result json :=
  match v with
  | JObj members =>
      match obj_lookup key members with
      | Some x => Ok x
      | None => Raise KeyError
      end
  | _ => Raise TypeError
  end.

(** [v.get(key, dflt)] *)
Definition py_get (v : json) (key : string) (dflt : json) : result json :=
  match v with
  | JObj members => Ok (default dflt (obj_lookup key members))
  | _ => Raise AttributeError
  end.

(** What the HTTP client does on one call: [post] returns or raises,
    [raise_for_status] returns or raises, [response.json()] decodes the
    body or raises. *)
Record advisor_call : Type := {
  post_outcome : result unit;
  raise_for_status_outcome : result unit;
  json_outcome : result json
}.

(** The body of the [try] block of [get_soulbios_strategy]. *)
Definition strategize (call : advisor_call) : result json :=
  _ ← post_outcome call;
  _ ← raise_for_status_outcome call;
  strategy ← json_outcome call;
  has_metadata ← py_in "_ooda_metadata" strategy;
  if (has_metadata : bool) then
    metadata ← py_getitem strategy "_ooda_metadata";
    _ ← py_get metadata "processing_time_ms" (JInt 0);
    _ ← py_getitem strategy "policy_type";
    mret strategy
  else mret strategy.

Definition get_soulbios_strategy (call : advisor_call) (fallback_strategy : json) : result json :=
  match strategize call with
  | Ok strategy => Ok strategy
  | Raise (HTTPStatusError _) => Ok fallback_strategy
  | Raise TimeoutException => Ok fallback_strategy
  | Raise _ => Ok fallback_strategy
  end.

(** The literal [fallback_strategy] of [play_game]. *)
Definition fallback_strategy : json :=
  JObj [("policy_type", JStr "Hybrid");
        ("phase_switch_point", JInt 400);
        ("early_game_params",
           JObj [("base_leniency", JFloat (55 # 100)); ("scaling_factor", JFloat (4 # 10))]);
        ("late_game_params", JObj [("base_threshold", JFloat (75 # 100))])]%string.

(** The first provider call of [play_game], and the call of a review, which
    passes the strategy in force as the fallback. *)
Definition initial_strategy (call : advisor_call) : result json :=
  get_soulbios_strategy call fallback_strategy.

Definition reviewed_strategy (call : advisor_call) (current : json) : result json :=
  get_soulbios_strategy call current.

(** The typed reading of a strategy dict: each key the policy reads, absent
    or of the expected type.  [None] when a key that is present has another
    type. *)
Definition as_number (v : json) : option Q :=
  match v with
  | JInt z => Some (inject_Z z)
  | JFloat q => Some q
  | _ => None
  end.

Definition read_field {A : Type} (as_type : json -> option A) (key : string)
    (members : list (string * json)) : option (option A) :=
  match obj_lookup key members with
  | None => Some None
  | Some v => Some <$> as_type v
  end.

Definition early_of_json (v : json) : option early_game_params :=
  match v with
  | JObj members =>
      bl ← read_field as_number "base_leniency" members;
      sf ← read_field as_number "scaling_factor" members;
      Some {| base_leniency := bl; scaling_factor := sf |}
  | _ => None
  end.

Definition late_of_json (v : json) : option late_game_params :=
  match v with
  | JObj members =>
      bt ← read_field as_number "base_threshold" members;
      bp ← read_field as_number "buffer_percent" members;
      Some {| base_threshold := bt; buffer_percent := bp |}
  | _ => None
  end.

Definition strategy_of_json (v : json) : option Strategy :=
  match v with
  | JObj members =>
      pt ← read_field (fun x => match x with JStr s => Some s | _ => None end)
             "policy_type" members;
      sp ← read_field (fun x => match x with JInt z => Some z | _ => None end)
             "phase_switch_point" members;
      ep ← read_field early_of_json "early_game_params" members;
      lp ← read_field late_of_json "late_game_params" members;
      Some {| policy_type := pt; phase_switch_point := sp;
              early_params := ep; late_params := lp |}
  | _ => None
  end.

(** The parameters in force under a strategy, as the policy reads them. *)
Definition effective_policy_type (s : Strategy) : string :=
  default "Hybrid"%string (policy_type s).
Definition effective_switch_point (s : Strategy) : Z :=
  default 400 (phase_switch_point s).
Definition effective_base_leniency (s : Strategy) : Q :=
  default (55 # 100)%Q (base_leniency (early_of s)).
Definition effective_scaling_factor (s : Strategy) : Q :=
  default (4 # 10)%Q (scaling_factor (early_of s)).
Definition effective_base_threshold (s : Strategy) : Q :=
  default (75 # 100)%Q (base_threshold (late_of s)).
Definition effective_buffer_percent (s : Strategy) : Q :=
  default (1 # 10)%Q (buffer_percent (late_of s)).

End Player.

(** ** The server-side default: [agents/game_theory_agent.py] *)

Module GameTheoryAgent.
Import Player.

(** [GameTheoryAgent._default_strategy(fallback_reason)]; [timestamp] is
    [datetime.now().isoformat()]. *)
Definition _default_strategy (fallback_reason timestamp : string) : json :=
  JObj [("policy_type", JStr "Hybrid");
        ("phase_switch_point", JInt 400);
        ("early_game_params",
           JObj [("base_leniency", JFloat (55 # 100)); ("scaling_factor", JFloat (4 # 10))]);
        ("late_game_params",
           JObj [("base_threshold", JFloat (45 # 100)); ("buffer_percent", JFloat (1 # 10))]);
        ("fallback_reason", JStr fallback_reason);
        ("_ooda_metadata",
           JObj [("processing_time_ms", JInt 0);
                 ("timestamp", JStr timestamp);
                 ("agent_version", JStr "Fallback_Strategy");
                 ("mode", JStr "emergency_fallback")])]%string.

End GameTheoryAgent.

(** ** The strategy cache: [infrastructure/strategy_cache.py] *)

Module Cache.
Import Player.

(** One element of the ["constraints"] list of a game state. *)
Record constraint : Type := {
  attribute : string;
  minCount : option Z;
  admitted : option Z
}.

Record game_state : Type := {
  current_person : option Z;
  accepted_count : option Z;
  constraints : list constraint;
  observedFrequencies : list (string * Q)
}.

(** [{c.get("attribute"): c.get("minCount", 0) for c in ...}] *)
Definition constraint_targets (cs : list constraint) : gmap string Z :=
  fold_left (fun m c => <[attribute c := default 0 (minCount c)]> m) cs ∅.

(** [_calculate_similarity] on well-typed states (on which the body of its
    [try] raises nothing), in exact arithmetic; [CacheB64] has it in
    binary64.  [max(0, x)] is [Qmax 0 x]. *)
Definition _calculate_similarity (state1 state2 : game_state) : Q :=
  let person_diff :=
    Z.abs (default 0 (current_person state1) - default 0 (current_person state2)) in
  let person_similarity := Qmax 0 (1 - inject_Z person_diff / 100) in
  let accept_diff :=
    Z.abs (default 0 (accepted_count state1) - default 0 (accepted_count state2)) in
  let accept_similarity := Qmax 0 (1 - inject_Z accept_diff / 50) in
  let constraints1 := constraint_targets (constraints state1) in
  let constraints2 := constraint_targets (constraints state2) in
  let constraint_similarity :=
    fold_left
      (fun acc attr =>
         let diff := Z.abs (default 0 (constraints1 !! attr) - default 0 (constraints2 !! attr)) in
         (acc * Qmax 0 (1 - inject_Z diff / 200))%Q)
      (elements (dom constraints1 ∪ dom constraints2)) 1%Q in
  (person_similarity * (4 # 10) + accept_similarity * (3 # 10)
   + constraint_similarity * (3 # 10))%Q.

(** The ["_cache_metadata"] dict.  It is shared between the cached strategy
    and every copy served from it, so what a hit writes into it stays in
    the cache. *)
Record cache_metadata : Type := {
  cached_at : Z;
  metadata_hash : string;
  original_game_state : game_state;
  cache_version : string;
  match_type : option string;
  served_similarity : option Q;
  served_from_cache : bool
}.

(** The strategy dict with its metadata. *)
Record enhanced_strategy : Type := {
  body : json;
  _cache_metadata : cache_metadata
}.

Record CachedStrategy : Type := {
  strategy : enhanced_strategy;
  timestamp : Z;
  game_state_hash : string;
  similarity_score : Q;
  hit_count : Z
}.

Record Stats : Type := {
  hits : Z;
  misses : Z;
  total_requests : Z;
  cache_size : Z
}.

(** The attributes [__init__] sets and nothing changes. *)
Definition max_cache_size : Z := 1000.
Definition similarity_threshold : Q := 85 # 100.
Definition max_age_minutes : Z := 30.

(** [self.cache] in insertion order, with [self.stats].  Times are in
    microseconds. *)
Record StrategyCache : Type := {
  cache : list (string * CachedStrategy);
  stats : Stats
}.

Definition init : StrategyCache :=
  {| cache := [];
     stats := {| hits := 0; misses := 0; total_requests := 0; cache_size := 0 |} |}.

(** Dict operations on the association list. *)
Definition dict_get {V : Type} (key : string) (d : list (string * V)) : option V :=
  snd <$> List.find (fun item => String.eqb item.1 key) d.

Definition dict_set {V : Type} (key : string) (v : V) (d : list (string * V))
  : list (string * V) :=
  match dict_get key d with
  | Some _ => map (fun item => if String.eqb item.1 key then (key, v) else item) d
  | None => d ++ [(key, v)]
  end.

Definition dict_del {V : Type} (key : string) (d : list (string * V)) : list (string * V) :=
  List.filter (fun item => negb (String.eqb item.1 key)) d.

Definition _is_cache_valid (now : Z) (cached_strategy : CachedStrategy) : bool :=
  now - timestamp cached_strategy <? max_age_minutes * 60 * 1000000.

Definition _add_cache_metadata (s : enhanced_strategy) (kind : string) (similarity : Q)
  : enhanced_strategy :=
  {| body := body s;
     _cache_metadata :=
       {| cached_at := cached_at (_cache_metadata s);
          metadata_hash := metadata_hash (_cache_metadata s);
          original_game_state := original_game_state (_cache_metadata s);
          cache_version := cache_version (_cache_metadata s);
          match_type := Some kind;
          served_similarity := Some similarity;
          served_from_cache := true |} |}.

(** The entry after a hit: one more hit, and the served metadata. *)
Definition after_hit (c : CachedStrategy) (served : enhanced_strategy) : CachedStrategy :=
  {| strategy := served;
     timestamp := timestamp c;
     game_state_hash := game_state_hash c;
     similarity_score := similarity_score c;
     hit_count := hit_count c + 1 |}.

Definition count_hit (st : Stats) : Stats :=
  {| hits := hits st + 1; misses := misses st;
     total_requests := total_requests st; cache_size := cache_size st |}.

Definition count_miss (st : Stats) : Stats :=
  {| hits := hits st; misses := misses st + 1;
     total_requests := total_requests st; cache_size := cache_size st |}.

Definition count_request (st : Stats) : Stats :=
  {| hits := hits st; misses := misses st;
     total_requests := total_requests st + 1; cache_size := cache_size st |}.

(** The similarity loop of [get_cached_strategy] over [self.cache.items()]. *)
Fixpoint best_scan (now : Z) (game_state : game_state)
    (items : list (string * CachedStrategy))
    (best_match : option (string * CachedStrategy)) (best_similarity : Q)
  : option (string * CachedStrategy) * Q :=
  match items with
  | [] => (best_match, best_similarity)
  | (cache_hash, cached_strategy) :: rest =>
      if negb (_is_cache_valid now cached_strategy)
      then best_scan now game_state rest best_match best_similarity
      else
        let cached_game_state := original_game_state (_cache_metadata (strategy cached_strategy)) in
        let similarity := _calculate_similarity game_state cached_game_state in
        if negb (Qle_bool similarity best_similarity)
           && Qle_bool similarity_threshold similarity
        then best_scan now game_state rest (Some (cache_hash, cached_strategy)) similarity
        else best_scan now game_state rest best_match best_similarity
  end.

(** The calls on the cache: [cache_strategy] and [get_cached_strategy]. *)
Inductive cache_call : Type :=
| Store (now : Z) (game_state : game_state) (s : json)
| Lookup (now : Z) (game_state : game_state).

Section WithHash.

(** [_calculate_game_state_hash]: the MD5 of the normalised state. *)
Variable _calculate_game_state_hash : game_state -> string.

Definition serve (self : StrategyCache) (key : string) (c : CachedStrategy)
    (kind : string) (similarity : Q) : option enhanced_strategy * StrategyCache :=
  let served := _add_cache_metadata (strategy c) kind similarity in
  (Some served,
   {| cache := dict_set key (after_hit c served) (cache self);
      stats := count_hit (stats self) |}).

Definition similarity_phase (self : StrategyCache) (now : Z) (game_state : game_state)
  : option enhanced_strategy * StrategyCache :=
  match best_scan now game_state (cache self) None 0 with
  | (Some (key, best_match), best_similarity) =>
      serve self key best_match "similarity_match" best_similarity
  | (None, _) =>
      (None, {| cache := cache self; stats := count_miss (stats self) |})
  end.

Definition get_cached_strategy (self : StrategyCache) (now : Z) (game_state : game_state)
  : option enhanced_strategy * StrategyCache :=
  let self := {| cache := cache self; stats := count_request (stats self) |} in
  let current_hash := _calculate_game_state_hash game_state in
  match dict_get current_hash (cache self) with
  | Some cached =>
      if _is_cache_valid now cached
      then serve self current_hash cached "exact_match" 1
      else similarity_phase self now game_state
  | None => similarity_phase self now game_state
  end.

(** The key of [sorted(..., key=lambda x: (x[1].timestamp, x[1].hit_count))],
    compared as tuples. *)
Definition sort_key (item : string * CachedStrategy) : Z * Z :=
  (timestamp item.2, hit_count item.2).

Definition key_le (a b : Z * Z) : bool :=
  (a.1 <? b.1) || ((a.1 =? b.1) && (a.2 <=? b.2)).

(** [sorted]: a stable sort, here by insertion from the right. *)
Fixpoint insert_sorted (x : string * CachedStrategy) (l : list (string * CachedStrategy))
  : list (string * CachedStrategy) :=
  match l with
  | [] => [x]
  | y :: rest =>
      if key_le (sort_key x) (sort_key y) then x :: y :: rest
      else y :: insert_sorted x rest
  end.

Fixpoint sorted (l : list (string * CachedStrategy)) : list (string * CachedStrategy) :=
  match l with
  | [] => []
  | x :: rest => insert_sorted x (sorted rest)
  end.

(** [int(len(sorted_entries) * 0.2)], which is the integer quotient by 5
    for every length a cache can have. *)
Definition entries_to_remove (n : nat) : nat := (n / 5)%nat.

Definition _evict_oldest_entries (d : list (string * CachedStrategy))
  : list (string * CachedStrategy) :=
  let sorted_entries := sorted d in
  fold_left (fun d item => dict_del item.1 d)
            (take (entries_to_remove (length sorted_entries)) sorted_entries) d.

Definition cache_strategy (self : StrategyCache) (now : Z) (game_state : game_state)
    (s : json) : StrategyCache :=
  let game_state_hash := _calculate_game_state_hash game_state in
  let enhanced_strategy :=
    {| body := s;
       _cache_metadata :=
         {| cached_at := now;
            metadata_hash := game_state_hash;
            original_game_state := game_state;
            cache_version := "1.0";
            match_type := None;
            served_similarity := None;
            served_from_cache := false |} |} in
  let cached_strategy :=
    {| strategy := enhanced_strategy;
       timestamp := now;
       game_state_hash := game_state_hash;
       similarity_score := 1;
       hit_count := 0 |} in
  let d :=
    if max_cache_size <=? Z.of_nat (length (cache self))
    then _evict_oldest_entries (cache self)
    else cache self in
  let d := dict_set game_state_hash cached_strategy d in
  {| cache := d;
     stats := {| hits := hits (stats self); misses := misses (stats self);
                 total_requests := total_requests (stats self);
                 cache_size := Z.of_nat (length d) |} |}.

(** The cache after a run of calls, the oldest first; each call comes with
    the time at which it runs. *)
Definition run_cache_call (self : StrategyCache) (c : cache_call) : StrategyCache :=
  match c with
  | Store now game_state s => cache_strategy self now game_state s
  | Lookup now game_state => (get_cached_strategy self now game_state).2
  end.

Definition after_cache_calls (self : StrategyCache) (calls : list cache_call) : StrategyCache :=
  fold_left run_cache_call calls self.

End WithHash.




Definition is_lookup (c : cache_call) : bool :=
  match c with Lookup _ _ => true | Store _ _ _ => false end.

(** What a lookup may change of an entry: its hit count, by one, and the
    notes of the last hit in its metadata. *)
Definition same_but_hits (old new : string * CachedStrategy) : Prop :=
  old.1 = new.1
  /\ timestamp old.2 = timestamp new.2
  /\ game_state_hash old.2 = game_state_hash new.2
  /\ body (strategy old.2) = body (strategy new.2)
  /\ original_game_state (_cache_metadata (strategy old.2))
     = original_game_state (_cache_metadata (strategy new.2))
  /\ (hit_count new.2 = hit_count old.2 \/ hit_count new.2 = hit_count old.2 + 1).

(** [clear_cache] *)
Definition clear_cache (self : StrategyCache) : StrategyCache :=
  {| cache := [];
     stats := {| hits := 0; misses := 0; total_requests := 0; cache_size := 0 |} |}.

(** [hit_rate] of [get_cache_stats], before it is rounded for display:
    [(hits / max(1, total_requests)) * 100]. *)
Definition hit_rate (self : StrategyCache) : result Q :=
  ratio ← truediv (hits (stats self)) (Z.max 1 (total_requests (stats self)));
  mret (ratio * 100)%Q.

End Cache.

(** ** The similarity score in the words of the specification *)

Module CacheSpec.
Import Cache.

Definition personSim (s1 s2 : game_state) : Q :=
  Qmax 0 (1 - inject_Z (Z.abs (default 0 (current_person s1)
                               - default 0 (current_person s2))) / 100).

Definition acceptSim (s1 s2 : game_state) : Q :=
  Qmax 0 (1 - inject_Z (Z.abs (default 0 (accepted_count s1)
                               - default 0 (accepted_count s2))) / 50).

Definition product (l : list Q) : Q := foldr Qmult 1%Q l.

(** The closeness of two states on one attribute, given a number per
    attribute and state (0 for an attribute a state does not have). *)
Definition closeness (m1 m2 : gmap string Z) (attr : string) : Q :=
  Qmax 0 (1 - inject_Z (Z.abs (default 0 (m1 !! attr) - default 0 (m2 !! attr))) / 200).

Definition constraintSim (m1 m2 : gmap string Z) : Q :=
  product (map (closeness m1 m2) (elements (dom m1 ∪ dom m2))).

(** The score with the constraint factor comparing targets. *)
Definition similarity_by_target (s1 s2 : game_state) : Q :=
  ((4 # 10) * personSim s1 s2 + (3 # 10) * acceptSim s1 s2
   + (3 # 10) * constraintSim (constraint_targets (constraints s1))
                              (constraint_targets (constraints s2)))%Q.


(** The score of a cache entry against a query. *)
Definition score (game_state : game_state) (c : CachedStrategy) : Q :=
  _calculate_similarity game_state (original_game_state (_cache_metadata (strategy c))).

End CacheSpec.

Module CacheSamples.
Import Cache.
Local Open Scope string_scope.

(** Two states at person 101 with 100 accepted and a quota of 600 young,
    of whom none, respectively all 100, of the accepted are young. *)
Definition none_young : game_state :=
  {| current_person := Some 101; accepted_count := Some 100;
     constraints := [{| attribute := "young"; minCount := Some 600; admitted := Some 0 |}];
     observedFrequencies := [] |}.

Definition all_young : game_state :=
  {| current_person := Some 101; accepted_count := Some 100;
     constraints := [{| attribute := "young"; minCount := Some 600; admitted := Some 100 |}];
     observedFrequencies := [] |}.

(** A fingerprint for the samples: by person and accepted count. *)
Definition sample_fingerprint (s : game_state) : string :=
  match current_person s, accepted_count s with
  | Some 101, Some 100 => "p101a100"
  | _, _ => "other"
  end.

(** A state 30 persons and 20 accepts later than [none_young]. *)
Definition later_state : game_state :=
  {| current_person := Some 131; accepted_count := Some 120;
     constraints := [{| attribute := "young"; minCount := Some 600; admitted := Some 20 |}];
     observedFrequencies := [] |}.

(** A state 10 persons and 5 accepts later than [none_young]. *)
Definition near_state : game_state :=
  {| current_person := Some 111; accepted_count := Some 105;
     constraints := [{| attribute := "young"; minCount := Some 600; admitted := Some 5 |}];
     observedFrequencies := [] |}.

(** The cache after one store at time 0. *)
Definition stored_once : StrategyCache :=
  cache_strategy sample_fingerprint init 0 none_young (Player.JObj []).

(** What a lookup of [none_young] in [stored_once] serves. *)
Definition served_once : enhanced_strategy :=
  {| body := Player.JObj [];
     _cache_metadata :=
       {| cached_at := 0; metadata_hash := "p101a100";
          original_game_state := none_young; cache_version := "1.0";
          match_type := Some "exact_match";
          served_similarity := Some 1%Q;
          served_from_cache := true |} |}.

End CacheSamples.

(** ** The rules in the words of the specification *)

Module Spec.
Import Player.

Definition capacity : Z := 1000.

(** [deficit(attribute) = max(0, target - admitted)] *)
Definition deficit (data : constraint_data) : Z :=
  Z.max 0 (target data - admitted data).

(** The tracked attributes the candidate carries. *)
Definition carried (self : BouncerPolicy) (person_attributes : gmap string bool)
  : list constraint_data :=
  omap (fun item => if (item.2 : bool) then constraints self !! item.1 else None)
       (map_to_list person_attributes).

(** The same sum without the floor at 0 on the deficits. *)
Definition signed_urgency (slots : Z) (data : constraint_data) : Q :=
  (inject_Z (target data - admitted data) / inject_Z (Z.max 1 slots))%Q.

(** Phase selection of a Hybrid strategy by the arrival index. *)
Definition phase_by_person_index (person_index : Z) (self : BouncerPolicy)
    (person_attributes : gmap string bool) : result bool :=
  if person_index <? effective_switch_point (strategy self)
  then _max_urgency_logic self person_attributes
  else _combined_value_logic self person_attributes.

(** Phase selection of a Hybrid strategy by the accepted count. *)
Definition phase_by_accepted_count (self : BouncerPolicy)
    (person_attributes : gmap string bool) : result bool :=
  if slots_filled self <? effective_switch_point (strategy self)
  then _max_urgency_logic self person_attributes
  else _combined_value_logic self person_attributes.

(** The review trigger: periodic, or an emergency after index 450 on 25
    recorded decisions without an admission. *)
Definition periodic (person_index : Z) : Prop :=
  0 < person_index /\ person_index mod 100 = 0.

Definition emergency (person_index : Z) (decisions : list bool) : Prop :=
  450 < person_index /\ (25 <= length decisions)%nat
  /\ Forall (fun d => d = false) (drop (length decisions - 25) decisions).

End Spec.

(** ** Sample states *)

Module Samples.
Import Player.
Local Open Scope string_scope.

Definition default_strategy : Strategy :=
  {| policy_type := Some "Hybrid"; phase_switch_point := Some 400;
     early_params := Some {| base_leniency := Some (55 # 100)%Q;
                             scaling_factor := Some (4 # 10)%Q |};
     late_params := Some {| base_threshold := Some (75 # 100)%Q;
                            buffer_percent := None |} |}.

Definition young (t a : Z) : gmap string constraint_data :=
  {[ "young" := {| target := t; admitted := a |} ]}.

Definition carries_young : gmap string bool := {[ "young" := true ]}.

(** The scenario of the specification at person 995: 994 accepted, 590 of
    600 young admitted, 6 slots left. *)
Definition last_slots : BouncerPolicy :=
  {| constraints := young 600 590; strategy := default_strategy;
     slots_filled := 994; rejections := 1; slots_remaining := 6;
     recent_decisions := [] |}.

(** Person 500 of a game in which 100 were accepted, 60 of them young. *)
Definition slow_start : BouncerPolicy :=
  {| constraints := young 600 60; strategy := default_strategy;
     slots_filled := 100; rejections := 400; slots_remaining := 900;
     recent_decisions := [] |}.

(** A strategy whose admission bar is 0, on a fresh game. *)
Definition lenient_strategy : Strategy :=
  {| policy_type := Some "Hybrid"; phase_switch_point := Some 400;
     early_params := Some {| base_leniency := Some 0%Q; scaling_factor := Some 0%Q |};
     late_params := None |}.

Definition fresh_lenient : BouncerPolicy :=
  {| constraints := young 600 0; strategy := lenient_strategy;
     slots_filled := 0; rejections := 0; slots_remaining := 1000;
     recent_decisions := [] |}.

(** Ten slots left; the quota of young is 8 short, the quota of locals is
    exceeded by 1. *)
Definition two_quotas : BouncerPolicy :=
  {| constraints :=
       <[ "local" := {| target := 100; admitted := 101 |} ]> (young 600 592);
     strategy := default_strategy;
     slots_filled := 990; rejections := 3000; slots_remaining := 10;
     recent_decisions := [] |}.

Definition young_local : gmap string bool :=
  <[ "local" := true ]> carries_young.

(** The venue is full. *)
Definition full_house : BouncerPolicy :=
  {| constraints := young 600 590; strategy := default_strategy;
     slots_filled := 1000; rejections := 5; slots_remaining := 0;
     recent_decisions := [] |}.

(** The venue is full and the strategy is pure Max-Urgency. *)
Definition full_house_max_urgency : BouncerPolicy :=
  {| constraints := young 600 590;
     strategy := {| policy_type := Some "MaxUrgency"; phase_switch_point := None;
                    early_params := None; late_params := None |};
     slots_filled := 1000; rejections := 5; slots_remaining := 0;
     recent_decisions := [] |}.

End Samples.

(** ** The two decision logics in binary64

    The numbers of the strategy dict are the decimals of its JSON text (or
    of the literal in the source), held as the nearest floats;
    [person_attributes] is the dict of the candidate in the order of its
    items. *)

Module PlayerB64.
Import Player.

(** The loop shared by both logics. *)
Fixpoint urgencies_of (self : BouncerPolicy) (items : list (string * bool))
  : result (list B64.float) :=
  match items with
  | [] => Ok []
  | (attr, has_attr) :: rest =>
      match constraints self !! attr with
      | Some data =>
          if has_attr && (0 <? slots_remaining self) then
            urgency ← B64.truediv (needed data) (slots_remaining self);
            us ← urgencies_of self rest;
            mret (urgency :: us)
          else urgencies_of self rest
      | None => urgencies_of self rest
      end
  end.

(** [base_leniency + (scaling_factor * (self.slots_filled / 1000))] *)
Definition dynamic_threshold (self : BouncerPolicy) : result B64.float :=
  let params := early_of (strategy self) in
  let base_leniency := B64.of_decimal (default (55 # 100)%Q (base_leniency params)) in
  let scaling_factor := B64.of_decimal (default (4 # 10)%Q (scaling_factor params)) in
  progress ← B64.truediv (slots_filled self) 1000;
  mret (B64.add base_leniency (B64.mul scaling_factor progress)).

Definition _max_urgency_logic (self : BouncerPolicy) (person_attributes : list (string * bool))
  : result bool :=
  urgencies ← urgencies_of self person_attributes;
  match urgencies with
  | [] => Ok false
  | u :: us =>
      let max_urgency := B64.max_of u us in
      if B64.le B64.one max_urgency then Ok true
      else
        dynamic_threshold ← dynamic_threshold self;
        mret (B64.le dynamic_threshold max_urgency)
  end.

Definition _combined_value_logic (self : BouncerPolicy)
    (person_attributes : list (string * bool)) : result bool :=
  let params := late_of (strategy self) in
  let base_threshold := B64.of_decimal (default (75 # 100)%Q (base_threshold params)) in
  let buffer_percent := B64.of_decimal (default (1 # 10)%Q (buffer_percent params)) in
  urgencies ← urgencies_of self person_attributes;
  let combined_urgency := fold_left B64.add urgencies B64.zero in
  if B64.eq combined_urgency B64.zero then Ok false
  else if B64.le (B64.add B64.one buffer_percent) combined_urgency then Ok true
  else Ok (B64.le base_threshold combined_urgency).

(** The counts of a policy are in the range of the division. *)
Definition counts_in_range (self : BouncerPolicy) : bool :=
  B64.in_range (slots_filled self)
  && forallb (fun item => B64.in_range (needed item.2)) (map_to_list (constraints self)).

End PlayerB64.

(** ** The two rules in the words of the specification, in binary64 *)

Module SpecB64.
Import Player.

(** [urgency = deficit(attribute) / max(1, slotsRemaining)] *)
Definition urgency (slots : Z) (data : constraint_data) : B64.float :=
  B64.quotient (Spec.deficit data) (Z.max 1 slots).

(** The tracked attributes the candidate carries, in the order of the
    candidate's attributes. *)
Definition carried (self : BouncerPolicy) (person_attributes : list (string * bool))
  : list constraint_data :=
  omap (fun item => if (item.2 : bool) then constraints self !! item.1 else None)
       person_attributes.

Definition higher (a b : B64.float) : B64.float := if B64.lt a b then b else a.

(** The highest urgency, 0 if the candidate carries no tracked attribute. *)
Definition maxUrgency (self : BouncerPolicy) (person_attributes : list (string * bool))
  : B64.float :=
  foldr higher B64.zero (map (urgency (slots_remaining self)) (carried self person_attributes)).

(** [baseLeniency + scalingFactor * (acceptedCount / capacity)] *)
Definition admission_bar (self : BouncerPolicy) : B64.float :=
  B64.add (B64.of_decimal (effective_base_leniency (strategy self)))
          (B64.mul (B64.of_decimal (effective_scaling_factor (strategy self)))
                   (B64.quotient (slots_filled self) Spec.capacity)).

Definition early_rule (self : BouncerPolicy) (person_attributes : list (string * bool)) : bool :=
  B64.le B64.one (maxUrgency self person_attributes)
  || B64.le (admission_bar self) (maxUrgency self person_attributes).

(** The sum of the urgencies of the carried tracked attributes, added in
    the order of the candidate's attributes. *)
Definition combined_sum (self : BouncerPolicy) (person_attributes : list (string * bool))
  : B64.float :=
  fold_left B64.add (map (urgency (slots_remaining self)) (carried self person_attributes))
            B64.zero.

Definition late_rule (self : BouncerPolicy) (person_attributes : list (string * bool)) : bool :=
  let sum := combined_sum self person_attributes in
  B64.le (B64.add B64.one (B64.of_decimal (effective_buffer_percent (strategy self)))) sum
  || B64.le (B64.of_decimal (effective_base_threshold (strategy self))) sum.

(** The same sum without the floor at 0 on the deficits. *)
Definition signed_urgency (slots : Z) (data : constraint_data) : B64.float :=
  B64.quotient (target data - admitted data) (Z.max 1 slots).

Definition signed_sum (self : BouncerPolicy) (person_attributes : list (string * bool))
  : B64.float :=
  fold_left B64.add
            (map (signed_urgency (slots_remaining self)) (carried self person_attributes))
            B64.zero.

Definition signed_late_rule (self : BouncerPolicy) (person_attributes : list (string * bool))
  : bool :=
  let sum := signed_sum self person_attributes in
  negb (B64.eq sum B64.zero)
  && (B64.le (B64.add B64.one (B64.of_decimal (effective_buffer_percent (strategy self)))) sum
      || B64.le (B64.of_decimal (effective_base_threshold (strategy self))) sum).

End SpecB64.

(** ** Sample candidates and states for the binary64 rules *)

Module SamplesB64.
Import Player.
Local Open Scope string_scope.

Definition carries_young : list (string * bool) := [("young", true)].
Definition not_young : list (string * bool) := [("young", false)].
Definition young_local : list (string * bool) := [("young", true); ("local", true)].

(** 100 accepted and 900 slots left under the fallback strategy; the quota
    of young is 531 short, so that the urgency is 531/900 = 0.59. *)
Definition at_the_bar : BouncerPolicy :=
  {| constraints := Samples.young 600 69; strategy := Samples.default_strategy;
     slots_filled := 100; rejections := 400; slots_remaining := 900;
     recent_decisions := [] |}.

(** Twenty slots left under the advisor's default threshold 0.45; the
    quotas of young and of locals are 2 and 7 short. *)
Definition advisor_default : Strategy :=
  {| policy_type := Some "Hybrid"; phase_switch_point := Some 400;
     early_params := Some {| base_leniency := Some (55 # 100)%Q;
                             scaling_factor := Some (4 # 10)%Q |};
     late_params := Some {| base_threshold := Some (45 # 100)%Q;
                            buffer_percent := Some (1 # 10)%Q |} |}.

(** A strategy whose admission bar is negative, on a game in which the
    quota of young is exceeded by 100. *)
Definition negative_bar : BouncerPolicy :=
  {| constraints := Samples.young 600 700;
     strategy := {| policy_type := Some "MaxUrgency"; phase_switch_point := None;
                    early_params := Some {| base_leniency := Some (- (5 # 100))%Q;
                                            scaling_factor := Some 0%Q |};
                    late_params := None |};
     slots_filled := 0; rejections := 0; slots_remaining := 1000;
     recent_decisions := [] |}.

Definition two_short : BouncerPolicy :=
  {| constraints :=
       <[ "local" := {| target := 100; admitted := 93 |} ]> (Samples.young 600 598);
     strategy := advisor_default;
     slots_filled := 980; rejections := 3000; slots_remaining := 20;
     recent_decisions := [] |}.

End SamplesB64.

(** ** The similarity score and the similarity lookup in binary64 *)

Module CacheB64.
Import Player Cache.

(** [max(0, 1 - (diff / scale))] *)
Definition closeness (diff scale : Z) : result B64.float :=
  ratio ← B64.truediv diff scale;
  mret (B64.max0 (B64.sub B64.one ratio)).

(** The loop over the attributes of either state. *)
Fixpoint constraint_loop (constraints1 constraints2 : gmap string Z) (attrs : list string)
    (constraint_similarity : B64.float) : result B64.float :=
  match attrs with
  | [] => Ok constraint_similarity
  | attr :: rest =>
      let diff :=
        Z.abs (default 0 (constraints1 !! attr) - default 0 (constraints2 !! attr)) in
      factor ← closeness diff 200;
      constraint_loop constraints1 constraints2 rest (B64.mul constraint_similarity factor)
  end.

Record cache_metadata : Type := {
  cached_at : Z;
  metadata_hash : string;
  original_game_state : game_state;
  cache_version : string;
  match_type : option string;
  served_similarity : option B64.float;
  served_from_cache : bool
}.

Record enhanced_strategy : Type := {
  body : json;
  _cache_metadata : cache_metadata
}.

Record CachedStrategy : Type := {
  strategy : enhanced_strategy;
  timestamp : Z;
  game_state_hash : string;
  similarity_score : B64.float;
  hit_count : Z
}.

Record StrategyCache : Type := {
  cache : list (string * CachedStrategy);
  stats : Stats
}.

Definition similarity_threshold : B64.float := B64.of_decimal (85 # 100).

Definition _is_cache_valid (now : Z) (cached_strategy : CachedStrategy) : bool :=
  now - timestamp cached_strategy <? max_age_minutes * 60 * 1000000.

Definition _add_cache_metadata (s : enhanced_strategy) (kind : string)
    (similarity : B64.float) : enhanced_strategy :=
  {| body := body s;
     _cache_metadata :=
       {| cached_at := cached_at (_cache_metadata s);
          metadata_hash := metadata_hash (_cache_metadata s);
          original_game_state := original_game_state (_cache_metadata s);
          cache_version := cache_version (_cache_metadata s);
          match_type := Some kind;
          served_similarity := Some similarity;
          served_from_cache := true |} |}.

Definition after_hit (c : CachedStrategy) (served : enhanced_strategy) : CachedStrategy :=
  {| strategy := served;
     timestamp := timestamp c;
     game_state_hash := game_state_hash c;
     similarity_score := similarity_score c;
     hit_count := hit_count c + 1 |}.

Definition serve (self : StrategyCache) (key : string) (c : CachedStrategy)
    (kind : string) (similarity : B64.float) : option enhanced_strategy * StrategyCache :=
  let served := _add_cache_metadata (strategy c) kind similarity in
  (Some served,
   {| cache := dict_set key (after_hit c served) (cache self);
      stats := count_hit (stats self) |}).

Section WithIteration.

(** The order in which the loop visits
    [set(constraints1.keys()) | set(constraints2.keys())]: that of a hash
    table built from the two states, which the language leaves open. *)
Variable iteration_order : game_state -> game_state -> list string.

(** The body of the [try] of [_calculate_similarity], on well-typed
    states. *)
Definition similarity_body (state1 state2 : game_state) : result B64.float :=
  let person_diff :=
    Z.abs (default 0 (current_person state1) - default 0 (current_person state2)) in
  person_similarity ← closeness person_diff 100;
  let accept_diff :=
    Z.abs (default 0 (accepted_count state1) - default 0 (accepted_count state2)) in
  accept_similarity ← closeness accept_diff 50;
  let constraints1 := constraint_targets (constraints state1) in
  let constraints2 := constraint_targets (constraints state2) in
  constraint_similarity ←
    constraint_loop constraints1 constraints2 (iteration_order state1 state2) B64.one;
  mret (B64.add
          (B64.add (B64.mul person_similarity (B64.of_decimal (4 # 10)))
                   (B64.mul accept_similarity (B64.of_decimal (3 # 10))))
          (B64.mul constraint_similarity (B64.of_decimal (3 # 10)))).

(** [except Exception: return 0.0] *)
Definition _calculate_similarity (state1 state2 : game_state) : B64.float :=
  match similarity_body state1 state2 with
  | Ok overall_similarity => overall_similarity
  | Raise _ => B64.zero
  end.

(** The score of a cache entry against a query. *)
Definition score (game_state : game_state) (c : CachedStrategy) : B64.float :=
  _calculate_similarity game_state (original_game_state (_cache_metadata (strategy c))).

(** The similarity loop of [get_cached_strategy] over [self.cache.items()]. *)
Fixpoint best_scan (now : Z) (game_state : game_state)
    (items : list (string * CachedStrategy))
    (best_match : option (string * CachedStrategy)) (best_similarity : B64.float)
  : option (string * CachedStrategy) * B64.float :=
  match items with
  | [] => (best_match, best_similarity)
  | (cache_hash, cached_strategy) :: rest =>
      if negb (_is_cache_valid now cached_strategy)
      then best_scan now game_state rest best_match best_similarity
      else
        let cached_game_state := original_game_state (_cache_metadata (strategy cached_strategy)) in
        let similarity := _calculate_similarity game_state cached_game_state in
        if B64.lt best_similarity similarity && B64.le similarity_threshold similarity
        then best_scan now game_state rest (Some (cache_hash, cached_strategy)) similarity
        else best_scan now game_state rest best_match best_similarity
  end.

Definition similarity_phase (self : StrategyCache) (now : Z) (game_state : game_state)
  : option enhanced_strategy * StrategyCache :=
  match best_scan now game_state (cache self) None B64.zero with
  | (Some (key, best_match), best_similarity) =>
      serve self key best_match "similarity_match" best_similarity
  | (None, _) =>
      (None, {| cache := cache self; stats := count_miss (stats self) |})
  end.

Variable _calculate_game_state_hash : game_state -> string.

Definition get_cached_strategy (self : StrategyCache) (now : Z) (game_state : game_state)
  : option enhanced_strategy * StrategyCache :=
  let self := {| cache := cache self; stats := count_request (stats self) |} in
  let current_hash := _calculate_game_state_hash game_state in
  match dict_get current_hash (cache self) with
  | Some cached =>
      if _is_cache_valid now cached
      then serve self current_hash cached "exact_match" B64.one
      else similarity_phase self now game_state
  | None => similarity_phase self now game_state
  end.

End WithIteration.

(** The counts of a state leave their differences in the range of the
    division: magnitudes below 2^1022. *)
Definition small (n : Z) : bool := Z.abs n <? 2 ^ (B64.emax - 2).

Definition counts_in_range (s : game_state) : bool :=
  small (default 0 (current_person s))
  && small (default 0 (accepted_count s))
  && forallb (fun c => small (default 0 (minCount c))) (constraints s).

End CacheB64.

(** ** The similarity score in the words of the specification, in binary64 *)

Module CacheSpecB64.
Import Cache.

(** [max(0, 1 - |difference| / scale)] *)
Definition closeness (difference scale : Z) : B64.float :=
  B64.max0 (B64.sub B64.one (B64.quotient (Z.abs difference) scale)).

Definition personSim (s1 s2 : game_state) : B64.float :=
  closeness (default 0 (current_person s1) - default 0 (current_person s2)) 100.

Definition acceptSim (s1 s2 : game_state) : B64.float :=
  closeness (default 0 (accepted_count s1) - default 0 (accepted_count s2)) 50.

(** The constraint of a state on an attribute: the last one listed. *)
Definition constraint_on (cs : list constraint) (attr : string) : option constraint :=
  List.find (fun c => String.eqb (attribute c) attr) (rev cs).

(** The target of a state for an attribute: its [minCount], 0 when the
    state has no constraint on the attribute. *)
Definition target_of (cs : list constraint) (attr : string) : Z :=
  match constraint_on cs attr with
  | Some c => default 0 (minCount c)
  | None => 0
  end.

(** The deficit of a state for an attribute: target minus admitted,
    floored at 0. *)
Definition deficit_of (cs : list constraint) (attr : string) : Z :=
  match constraint_on cs attr with
  | Some c => Z.max 0 (default 0 (minCount c) - default 0 (admitted c))
  | None => 0
  end.

Definition has_attribute (s : game_state) (attr : string) : Prop :=
  exists c, c ∈ constraints s /\ attribute c = attr.

(** The product of the factors, multiplied in the order given. *)
Definition product (l : list B64.float) : B64.float := fold_left B64.mul l B64.one.

Definition constraintSim (value : list constraint -> string -> Z) (attrs : list string)
    (s1 s2 : game_state) : B64.float :=
  product (map (fun attr => closeness (value (constraints s1) attr
                                       - value (constraints s2) attr) 200) attrs).

(** [0.4*personSim + 0.3*acceptSim + 0.3*constraintSim] *)
Definition weighted (personSim acceptSim constraintSim : B64.float) : B64.float :=
  B64.add (B64.add (B64.mul (B64.of_decimal (4 # 10)) personSim)
                   (B64.mul (B64.of_decimal (3 # 10)) acceptSim))
          (B64.mul (B64.of_decimal (3 # 10)) constraintSim).

(** The score as stated: the constraint factor compares deficits. *)
Definition similarity_by_deficit (attrs : list string) (s1 s2 : game_state) : B64.float :=
  weighted (personSim s1 s2) (acceptSim s1 s2) (constraintSim deficit_of attrs s1 s2).

(** The score with the constraint factor comparing targets. *)
Definition similarity_by_target (attrs : list string) (s1 s2 : game_state) : B64.float :=
  weighted (personSim s1 s2) (acceptSim s1 s2) (constraintSim target_of attrs s1 s2).

End CacheSpecB64.

Module CacheSamplesB64.
Import Cache.
Local Open Scope string_scope.

(** An iteration order for the samples: the attributes of either state in
    the order of the keys. *)
Definition by_key (s1 s2 : game_state) : list string :=
  elements (dom (constraint_targets (constraints s1))
            ∪ dom (constraint_targets (constraints s2))).

Definition quota (attr : string) (n : Z) : constraint :=
  {| attribute := attr; minCount := Some n; admitted := Some 0 |}.

(** Two states 3 persons and 3 accepts apart whose targets differ by 80. *)
Definition query_state : game_state :=
  {| current_person := Some 203; accepted_count := Some 103;
     constraints := [quota "young" 520];
     observedFrequencies := [] |}.

Definition stored_state : game_state :=
  {| current_person := Some 200; accepted_count := Some 100;
     constraints := [quota "young" 600];
     observedFrequencies := [] |}.

(** A cache holding one entry, stored at time 0 for [stored_state]. *)
Definition stored_entry : CacheB64.CachedStrategy :=
  {| CacheB64.strategy :=
       {| CacheB64.body := Player.JObj [];
          CacheB64._cache_metadata :=
            {| CacheB64.cached_at := 0;
               CacheB64.metadata_hash := "p200";
               CacheB64.original_game_state := stored_state;
               CacheB64.cache_version := "1.0";
               CacheB64.match_type := None;
               CacheB64.served_similarity := None;
               CacheB64.served_from_cache := false |} |};
     CacheB64.timestamp := 0;
     CacheB64.game_state_hash := "p200";
     CacheB64.similarity_score := B64.one;
     CacheB64.hit_count := 0 |}.

Definition one_entry : CacheB64.StrategyCache :=
  {| CacheB64.cache := [("p200", stored_entry)];
     CacheB64.stats := {| hits := 0; misses := 0; total_requests := 0; cache_size := 1 |} |}.

(** A state 150 persons and 10 accepts later than [stored_state], with
    the same target. *)
Definition far_state : game_state :=
  {| current_person := Some 350; accepted_count := Some 110;
     constraints := [quota "young" 600];
     observedFrequencies := [] |}.

(** Two states 2 persons apart with the same four quotas, listed in
    different orders. *)
Definition first_state : game_state :=
  {| current_person := Some 200; accepted_count := Some 100;
     constraints := [quota "young" 600; quota "local" 300; quota "black" 500;
                     quota "regular" 650];
     observedFrequencies := [] |}.

Definition second_state : game_state :=
  {| current_person := Some 202; accepted_count := Some 100;
     constraints := [quota "local" 330; quota "black" 470; quota "young" 590;
                     quota "regular" 640];
     observedFrequencies := [] |}.

(** An iteration order that follows the lists: the attributes of the first
    state as listed, then those only the second state has. *)
Definition as_listed (s1 s2 : game_state) : list string :=
  remove_dups ((attribute <$> constraints s1) ++ (attribute <$> constraints s2)).

End CacheSamplesB64.

(** ** The game loop and the batch of [soulbios_player.py] *)

Module Driver.
Import Player.

(** [observation_window.append(...)] on a [deque(maxlen=100)]. *)
Definition window_append {A : Type} (window : list A) (x : A) : list A :=
  let appended := window ++ [x] in
  if (Z.to_nat STRATEGIC_REVIEW_INTERVAL <? length appended)%nat
  then drop 1 appended else appended.

(** One entry of [observed_freq]:
    [sum(1 for p in observation_window if p.get(attr, False)) / len(observation_window)]. *)
Definition frequency_of (window : list (gmap string bool)) (attr : string) : result Q :=
  truediv
    (Z.of_nat (length (List.filter (fun p => default false (p !! attr)) window)))
    (Z.of_nat (length window)).

(** The dict comprehension [observed_freq] over [policy.constraints]. *)
Fixpoint frequencies_of (window : list (gmap string bool)) (attrs : list string)
  : result (list (string * Q)) :=
  match attrs with
  | [] => Ok []
  | attr :: rest =>
      f ← frequency_of window attr;
      fs ← frequencies_of window rest;
      mret ((attr, f) :: fs)
  end.

Definition observed_freq (window : list (gmap string bool)) (policy : BouncerPolicy)
  : result (list (string * Q)) :=
  frequencies_of window (map fst (map_to_list (constraints policy))).

(** What the loop of [play_game] does to the policy on one candidate:
    a review may install a strategy, then the decision of [should_admit]
    is recorded. *)
Record candidate : Type := {
  reviewed : option Strategy;
  attributes : gmap string bool
}.

Definition step (policy : BouncerPolicy) (c : candidate) : result (bool * BouncerPolicy) :=
  let policy := match reviewed c with
                | Some s => set_strategy policy s
                | None => policy
                end in
  decision ← should_admit policy (attributes c);
  mret (decision, update_state policy decision (attributes c)).

(** The decisions and the policy after the candidates of a game, the first
    candidate first. *)
Fixpoint play (policy : BouncerPolicy) (candidates : list candidate)
  : result (list bool * BouncerPolicy) :=
  match candidates with
  | [] => Ok ([], policy)
  | c :: rest =>
      '(decision, policy) ← step policy c;
      '(decisions, policy) ← play policy rest;
      mret (decision :: decisions, policy)
  end.

(** One more admitted, as [_record_admission] counts it. *)
Definition bump (data : constraint_data) : constraint_data :=
  {| target := target data; admitted := admitted data + 1 |}.

(** The number of admitted candidates of a run of calls who carry [attr]. *)
Definition admitted_carrier (attr : string) (c : policy_call) : bool :=
  match c with
  | UpdateState true person_attributes => default false (person_attributes !! attr)
  | _ => false
  end.

Definition carriers_admitted (attr : string) (calls : list policy_call) : Z :=
  Z.of_nat (length (List.filter (admitted_carrier attr) calls)).

(** The loop of the main block over the scenarios: [games] pairs each
    scenario with the score [play_game] returns for it.  The result is
    [total_rejections] and the scores recorded in [results]. *)
Fixpoint run_scenarios (games : list (Z * Z)) (total_rejections : Z) (results : gmap Z Z)
  : Z * gmap Z Z :=
  match games with
  | [] => (total_rejections, results)
  | (scenario, score) :: rest =>
      let results := <[scenario := score]> results in
      if negb (score =? -1)
      then run_scenarios rest (total_rejections + score) results
      else (total_rejections, results)
  end.

End Driver.

(** ** The advisor: [agents/game_theory_agent.py] *)

Module Agent.
Import Player.

(** *** [TokenBucket]; the clock [time.time()] is an argument, and the
    calls come one after another, as the lock orders them *)

Record TokenBucket : Type := {
  capacity : Z;
  rate : Q;
  tokens : Q;
  last_refill : Q
}.

(** [TokenBucket(capacity, rate)] built at time [now]. *)
Definition new_bucket (capacity : Z) (rate : Q) (now : Q) : TokenBucket :=
  {| capacity := capacity; rate := rate;
     tokens := inject_Z capacity; last_refill := now |}.

Definition _refill (self : TokenBucket) (now : Q) : TokenBucket :=
  let new_tokens := ((now - last_refill self) * rate self)%Q in
  {| capacity := capacity self; rate := rate self;
     tokens := Qmin (inject_Z (capacity self)) (tokens self + new_tokens);
     last_refill := now |}.

Definition acquire (self : TokenBucket) (now : Q) : bool * TokenBucket :=
  let self := _refill self now in
  if Qle_bool 1 (tokens self)
  then (true, {| capacity := capacity self; rate := rate self;
                 tokens := (tokens self - 1)%Q; last_refill := last_refill self |})
  else (false, self).

(** The bucket after the calls of [acquire] at the given times, with the
    number of calls that returned [True]. *)
Fixpoint acquire_all (self : TokenBucket) (times : list Q) : nat * TokenBucket :=
  match times with
  | [] => (0%nat, self)
  | now :: rest =>
      let '(granted, self) := acquire self now in
      let '(n, self) := acquire_all self rest in
      ((if granted then S n else n), self)
  end.

(** The module-level [token_bucket]: 200 requests per 20 minutes. *)
Definition token_bucket (now : Q) : TokenBucket := new_bucket 200 (1 # 6) now.

(** *** The context of a request, well typed *)

Record constraint : Type := {
  attribute : string;
  minCount : Z
}.

(** [context]: the constraints, the frequencies, the correlations, the
    state ([slots_remaining], [slots_filled], and per attribute the
    admitted count where the state has one) and [current_person]. *)
Record context : Type := {
  constraints : list constraint;
  frequencies : gmap string Q;
  correlations : gmap string (gmap string Q);
  state_slots_remaining : option Z;
  state_slots_filled : option Z;
  state_admitted : gmap string Z;
  current_person : option Z
}.

Definition venue_capacity : Z := 1000.

(** [state.get("constraints", {}).get(attr, {}).get("admitted", 0)] *)
Definition admitted_of (ctx : context) (attr : string) : Z :=
  default 0 (state_admitted ctx !! attr).

(** [max(xs, default=d)] on ints. *)
Definition max_default (d : Z) (xs : list Z) : Z :=
  match xs with
  | [] => d
  | x :: rest => fold_left Z.max rest x
  end.

(** The number of correlations of [corr_dict] below [bound]. *)
Definition count_below (bound : Q) (corr_dict : gmap string Q) : nat :=
  length (List.filter (fun item => negb (Qle_bool bound item.2)) (map_to_list corr_dict)).

(** *** [_calculate_complexity_score], on a well-typed context *)

Definition correlation_complexity (ctx : context) : Q :=
  fold_left
    (fun acc item =>
       fold_left
         (fun acc inner =>
            if negb (Qle_bool (- (2 # 10)) (inner.2 : Q))
            then Qmin 1 (acc + (2 # 10)) else acc)
         (map_to_list (item.2 : gmap string Q)) acc)
    (map_to_list (correlations ctx)) 0%Q.

Definition _calculate_complexity_score (ctx : context) : Q :=
  let person_index := default 1 (current_person ctx) in
  let phase_complexity := Qmin 1 (inject_Z person_index / 500) in
  let complexity := (0 + phase_complexity * (3 # 10))%Q in
  let complexity :=
    match constraints ctx with
    | [] => complexity
    | c :: cs =>
        let deficits :=
          map (fun c => Z.max 0 (minCount c - admitted_of ctx (attribute c))) (c :: cs) in
        let max_deficit := max_default 0 deficits in
        let deficit_complexity := Qmin 1 (inject_Z max_deficit / 300) in
        (complexity + deficit_complexity * (4 # 10))%Q
    end in
  let complexity := (complexity + correlation_complexity ctx * (3 # 10))%Q in
  Qmin 1 complexity.

(** *** The game-theory strategy of [_process_agent_logic] (phase 2) *)

(** [deficits = {c["attribute"]: c["minCount"] - admitted ...}] *)
Definition deficits_of (ctx : context) : gmap string Z :=
  fold_left
    (fun m c => <[attribute c := minCount c - admitted_of ctx (attribute c)]> m)
    (constraints ctx) ∅.

Definition correlation_weight (ctx : context) : Q :=
  fold_left
    (fun weight attr =>
       fold_left
         (fun weight inner =>
            if negb (Qle_bool (- (3 # 10)) (inner.2 : Q))
            then (weight + (5 # 100))%Q else weight)
         (map_to_list (default ∅ (correlations ctx !! attr))) weight)
    (map fst (map_to_list (deficits_of ctx))) 1%Q.

Definition game_theory_strategy (ctx : context) : Strategy :=
  let slots_remaining := default venue_capacity (state_slots_remaining ctx) in
  let person_index := default 1 (current_person ctx) in
  let deficits := deficits_of ctx in
  let max_deficit := max_default 0 (map snd (map_to_list deficits)) in
  let phase_switch := if person_index <? 500 then 400 else 300 in
  let max_frequency :=
    match map snd (map_to_list (frequencies ctx)) with
    | [] => (1 # 2)%Q
    | f :: fs => max_of f fs
    end in
  let leniency :=
    if negb (Qle_bool (inject_Z max_deficit) (inject_Z slots_remaining * max_frequency))
    then (45 # 100)%Q else (55 # 100)%Q in
  let threshold := ((80 # 100) - (1 # 10) * (inject_Z person_index / inject_Z venue_capacity))%Q in
  let buffer := (1 # 10)%Q in
  {| policy_type := Some "Hybrid"%string;
     phase_switch_point := Some phase_switch;
     early_params :=
       Some {| base_leniency := Some (leniency * correlation_weight ctx)%Q;
               scaling_factor := Some (35 # 100)%Q |};
     late_params :=
       Some {| base_threshold := Some (Qmax (35 # 100) (threshold * (6 # 10)));
               buffer_percent := Some buffer |} |}.

(** *** The context of a prompt and the state handed to the cache *)





End Agent.

(** ** More sample states *)

Module MoreSamples.
Import Player.
Local Open Scope string_scope.


(** A candidate with an attribute the game does not track. *)
Definition tourist : gmap string bool := {[ "tourist" := true ]}.

(** Three decisions recorded, none an admission. *)
Definition three_rejections : BouncerPolicy :=
  {| constraints := Samples.young 600 0; strategy := Samples.default_strategy;
     slots_filled := 0; rejections := 3; slots_remaining := 1000;
     recent_decisions := [false; false; false] |}.

(** A strategy as the advisor sends it, with metadata but no policy type. *)
Definition decorated_without_type : list (string * json) :=
  [("phase_switch_point", JInt 300);
   ("_ooda_metadata", JObj [("processing_time_ms", JInt 12)])].

(** An object with no metadata and none of the keys of a strategy. *)
Definition unrelated_object : list (string * json) := [("error", JStr "busy")].

(** An answer that decodes and is no strategy: its policy type is a number
    and its switch point a string. *)
Definition malformed_body : json :=
  JObj [("policy_type", JInt 7); ("phase_switch_point", JStr "soon")].

Definition answers_malformed : advisor_call :=
  {| post_outcome := Ok tt; raise_for_status_outcome := Ok tt;
     json_outcome := Ok malformed_body |}.

(** A strategy in force at a review. *)
Definition strategy_in_force : json :=
  JObj [("policy_type", JStr "MaxUrgency");
        ("early_game_params",
           JObj [("base_leniency", JFloat (6 # 10)); ("scaling_factor", JFloat (3 # 10))])].

End MoreSamples.

Module AgentSamples.
Import Player Agent.
Local Open Scope string_scope.

(** Three calls within a second, and one a minute later. *)
Definition burst : list Q := [1; 1; (3 # 2); 61]%Q.

(** A context at person 501 with one quota. *)
Definition mid_game : context :=
  {| constraints := [{| attribute := "young"; minCount := 600 |}];
     frequencies := {[ "young" := (3 # 10)%Q ]};
     correlations := {[ "young" := {[ "local" := (- (4 # 10))%Q ]} ]};
     state_slots_remaining := Some 500;
     state_slots_filled := Some 500;
     state_admitted := ∅;
     current_person := Some 501 |}.


(** A policy playing under the strategy computed for [mid_game]. *)
Definition advised_policy : BouncerPolicy :=
  {| Player.constraints := Samples.young 600 300;
     strategy := game_theory_strategy mid_game;
     slots_filled := 500; rejections := 0; slots_remaining := 500;
     recent_decisions := [] |}.

End AgentSamples.

(** * Properties *)

Module PlayerFacts.
Import Player.

Lemma panic_scan_true slots person items attr data :
  (attr, data) ∈ items ->
  0 < slots -> slots <= needed data ->
  person !! attr = Some true ->
  panic_scan slots person items = true.
Proof.
  intros Hin Hpos Hneed Hhas.
  induction items as [|[a d] rest IH]; [by apply elem_of_nil in Hin|].
  apply elem_of_cons in Hin as [Heq|Hin]; simpl.
  - inversion Heq; subst a d.
    rewrite Hhas; simpl.
    destruct (0 <? slots) eqn:E1; [|lia].
    destruct (slots <=? needed data) eqn:E2; [|lia].
    reflexivity.
  - rewrite (IH Hin).
    destruct ((0 <? slots) && (slots <=? needed d)); [|done].
    by destruct (default false (person !! a)).
Qed.

(** C1. Panic-mode override: in a mid-loop state (slots remaining
    positive), if some tracked attribute has a deficit
    [max 0 (target - admitted)] at least the slots remaining and the
    candidate carries it, [should_admit] returns [True], whatever the
    strategy. *)
Theorem panic_mode_forces_admit (self : BouncerPolicy)
    (person_attributes : gmap string bool) (attr : string) (data : constraint_data) :
  0 < slots_remaining self ->
  constraints self !! attr = Some data ->
  slots_remaining self <= Z.max 0 (target data - admitted data) ->
  person_attributes !! attr = Some true ->
  should_admit self person_attributes = Ok true.
Proof.
  intros Hpos Hc Hdef Hp.
  unfold should_admit, panic_mode.
  rewrite (panic_scan_true _ _ _ attr data); auto.
  - by apply elem_of_map_to_list.
  - unfold needed. lia.
Qed.

Lemma panic_mode_forces_admit_witness :
  should_admit Samples.last_slots Samples.carries_young = Ok true.
Proof.
  apply (panic_mode_forces_admit Samples.last_slots Samples.carries_young "young"%string
           {| target := 600; admitted := 590 |}).
  - reflexivity.
  - reflexivity.
  - vm_compute. discriminate.
  - reflexivity.
Defined.

(** *** The urgency loop *)

Lemma truediv_nonzero a b :
  b <> 0 -> truediv a b = Ok (inject_Z a / inject_Z b)%Q.
Proof. intros Hb. unfold truediv. destruct (b =? 0) eqn:E; [lia|done]. Qed.

Lemma urgencies_of_pos self items :
  0 < slots_remaining self ->
  urgencies_of self items =
  Ok (map (Spec.signed_urgency (slots_remaining self))
          (omap (fun item => if (item.2 : bool) then constraints self !! item.1 else None)
                items)).
Proof.
  intros Hpos. induction items as [|[attr has_attr] rest IH]; [done|].
  cbn [urgencies_of omap list_omap fst snd].
  destruct (constraints self !! attr) as [data|] eqn:E.
  - destruct has_attr; cbn [andb].
    + destruct (0 <? slots_remaining self) eqn:E0; [|lia].
      rewrite truediv_nonzero by lia. rewrite IH. cbn.
      unfold Spec.signed_urgency, needed. by rewrite Z.max_r by lia.
    + exact IH.
  - destruct has_attr; exact IH.
Qed.

Lemma urgencies_of_nonpos self items :
  slots_remaining self <= 0 -> urgencies_of self items = Ok [].
Proof.
  intros Hle. induction items as [|[attr has_attr] rest IH]; [done|].
  cbn [urgencies_of]. destruct (constraints self !! attr); [|done].
  destruct (0 <? slots_remaining self) eqn:E0; [lia|].
  by rewrite andb_false_r.
Qed.

(** The loop never divides by zero. *)
Lemma urgencies_of_total self items : exists us, urgencies_of self items = Ok us.
Proof.
  destruct (Z_lt_le_dec 0 (slots_remaining self)).
  - eexists. by apply urgencies_of_pos.
  - eexists. by apply urgencies_of_nonpos.
Qed.

(** *** Maxima and sums of rationals *)

Lemma Qle_bool_max_of c u us :
  Qle_bool c (max_of u us) = Qle_bool c u || existsb (Qle_bool c) us.
Proof.
  unfold max_of. revert u. induction us as [|v us IH]; intros u; cbn.
  - by rewrite orb_false_r.
  - rewrite IH, orb_assoc. f_equal.
    apply eq_true_iff_eq. rewrite orb_true_iff.
    destruct (Qle_bool v u) eqn:E.
    + apply Qle_bool_iff in E. rewrite !Qle_bool_iff. split; [tauto|].
      intros [H|H]; [done|]. lra.
    + assert (~ (v <= u)%Q) as Hn by (rewrite <- Qle_bool_iff; congruence).
      rewrite !Qle_bool_iff. split; [tauto|].
      intros [H|H]; [|done]. lra.
Qed.


Lemma panic_scan_nonpos slots person items :
  slots <= 0 -> panic_scan slots person items = false.
Proof.
  intros Hle. induction items as [|[attr data] rest IH]; [done|].
  cbn. destruct (0 <? slots) eqn:E; [lia|]. exact IH.
Qed.

(** *** C2: phase selection *)

(** C2, as stated, fails: at arrival index 500, past the switch point 400,
    with 100 accepted, a Hybrid policy on which panic mode does not fire
    still decides by the Max-Urgency logic and admits, where the
    Combined-Value logic rejects. *)
Lemma phase_by_person_index_refuted :
  effective_policy_type (strategy Samples.slow_start) = "Hybrid"%string
  /\ panic_mode Samples.slow_start Samples.carries_young = false
  /\ should_admit Samples.slow_start Samples.carries_young = Ok true
  /\ Spec.phase_by_person_index 500 Samples.slow_start Samples.carries_young = Ok false.
Proof. vm_compute. repeat split; reflexivity. Qed.

(** C2, amended. For a Hybrid strategy, after the panic check, the
    Max-Urgency logic decides exactly when the accepted count
    ([slots_filled]) is below the phase-switch point, and the
    Combined-Value logic decides otherwise; the arrival index plays no
    part. *)
Theorem hybrid_phase_by_accepted_count (self : BouncerPolicy)
    (person_attributes : gmap string bool) :
  effective_policy_type (strategy self) = "Hybrid"%string ->
  panic_mode self person_attributes = false ->
  should_admit self person_attributes = Spec.phase_by_accepted_count self person_attributes.
Proof.
  intros Hty Hpanic. unfold should_admit, Spec.phase_by_accepted_count.
  rewrite Hpanic. unfold effective_policy_type in Hty. rewrite Hty.
  unfold effective_switch_point.
  by destruct (slots_filled self <? default 400 (phase_switch_point (strategy self))).
Qed.

Lemma hybrid_phase_by_accepted_count_witness :
  should_admit Samples.slow_start Samples.carries_young
  = Spec.phase_by_accepted_count Samples.slow_start Samples.carries_young.
Proof. apply hybrid_phase_by_accepted_count; reflexivity. Defined.

(** *** C10: no slots left *)

Lemma should_admit_total (self : BouncerPolicy) (person_attributes : gmap string bool) :
  exists b, should_admit self person_attributes = Ok b.
Proof.
  unfold should_admit, _max_urgency_logic, _combined_value_logic.
  destruct (urgencies_of_total self (map_to_list person_attributes)) as [us ->].
  cbn [mbind result_bind].
  destruct (panic_mode _ _); [by eexists|].
  repeat match goal with
         | |- context [match ?x with _ => _ end] => destruct x
         end; by eexists.
Qed.

(** C10. With no slot remaining, panic mode does not fire, both logics
    reject and [should_admit] returns [False], for every candidate and
    strategy; and in no state does the decision evaluate a division by
    zero (it returns a boolean, never [ZeroDivisionError]). *)
Theorem zero_slots_rejects (self : BouncerPolicy) (person_attributes : gmap string bool) :
  slots_remaining self = 0 ->
  (panic_mode self person_attributes = false
   /\ _max_urgency_logic self person_attributes = Ok false
   /\ _combined_value_logic self person_attributes = Ok false
   /\ should_admit self person_attributes = Ok false)
  /\ (forall (other : BouncerPolicy) (attrs : gmap string bool),
        exists b, should_admit other attrs = Ok b).
Proof.
  intros Hz. split; [|apply should_admit_total].
  assert (panic_mode self person_attributes = false) as Hpanic
    by (apply panic_scan_nonpos; lia).
  assert (_max_urgency_logic self person_attributes = Ok false) as Hearly
    by (unfold _max_urgency_logic; by rewrite urgencies_of_nonpos by lia).
  assert (_combined_value_logic self person_attributes = Ok false) as Hlate
    by (unfold _combined_value_logic; by rewrite urgencies_of_nonpos by lia).
  repeat split; try done.
  unfold should_admit. rewrite Hpanic, Hearly, Hlate.
  by repeat match goal with
            | |- context [if ?x then _ else _] => destruct x
            end.
Qed.

Lemma zero_slots_rejects_witness :
  should_admit Samples.full_house Samples.carries_young = Ok false.
Proof. apply (zero_slots_rejects Samples.full_house Samples.carries_young). reflexivity. Defined.

(** *** C7: the review trigger *)

Lemma rate_of_window (x : Z) : (Qeq_bool (inject_Z x / inject_Z 25) 0 = true) <-> x = 0.
Proof.
  rewrite Qeq_bool_iff. unfold Qeq, Qdiv, Qmult, Qinv. cbn. lia.
Qed.

Lemma no_acceptance_iff (window : list bool) :
  length (filter (fun d => d = true) window) = 0%nat <-> Forall (fun d => d = false) window.
Proof.
  induction window as [|d w IH].
  - split; [constructor|done].
  - rewrite filter_cons. destruct d.
    + rewrite decide_True by done. split; [done|]. by inversion 1.
    + rewrite decide_False by done. rewrite IH. split.
      * by constructor.
      * by inversion 1.
Qed.

(** The acceptance rate over a full window is 0 exactly when none of the
    last 25 recorded decisions is an admission. *)
Lemma rate_zero_iff (policy : BouncerPolicy) :
  (25 <= length (recent_decisions policy))%nat ->
  exists rate,
    get_acceptance_rate_in_window policy 25 = Ok rate
    /\ (Qeq_bool rate 0 = true
        <-> Forall (fun d => d = false)
              (drop (length (recent_decisions policy) - 25) (recent_decisions policy))).
Proof.
  intros Hlen. unfold get_acceptance_rate_in_window.
  set (recent := recent_decisions policy) in *.
  rewrite bool_decide_eq_false_2 by (intros ->; cbn in Hlen; lia).
  destruct (Z.of_nat (length recent) <? 25) eqn:E; [lia|]. cbn [orb].
  assert (slice_from (Z.opp 25) recent = drop (length recent - 25) recent) as ->.
  { unfold slice_from. f_equal. destruct (Z.ltb_spec (Z.opp 25) 0); lia. }
  set (window := drop (length recent - 25) recent).
  assert (length window = 25%nat) as Hw by (unfold window; rewrite length_drop; lia).
  rewrite Hw, truediv_nonzero by lia.
  eexists; split; [reflexivity|].
  change (Z.of_nat 25) with 25. rewrite rate_of_window, <- no_acceptance_iff. lia.
Qed.

Lemma recent_decisions_update (policy : BouncerPolicy) accepted attrs :
  recent_decisions (update_state policy accepted attrs)
  = let appended := recent_decisions policy ++ [accepted] in
    if (25 <? length appended)%nat then drop 1 appended else appended.
Proof. reflexivity. Qed.

(** [recent_decisions] holds the last 25 decisions recorded since [reset]. *)
Lemma recent_decisions_after (self : BouncerPolicy) (calls : list policy_call) :
  recent_decisions (after_calls (reset self) calls)
  = drop (length (decisions_of calls) - 25) (decisions_of calls).
Proof.
  induction calls as [|c calls IH] using rev_ind; [done|].
  unfold after_calls, decisions_of in *. rewrite fold_left_app, omap_app. cbn [fold_left].
  destruct c as [s|accepted attrs]; cbn [run_call omap list_omap].
  - by rewrite app_nil_r.
  - rewrite recent_decisions_update, IH. cbv zeta.
    set (ds := omap _ calls).
    rewrite !length_app, length_drop. cbn [length].
    rewrite <- (drop_app_le ds [accepted]) by lia.
    destruct (Nat.ltb_spec 25 (length ds - (length ds - 25) + 1)) as [Hlt|Hge].
    + rewrite drop_drop. f_equal. lia.
    + f_equal. lia.
Qed.

(** C7. On each candidate a review is triggered if and only if the index
    is a positive multiple of 100, or the index is above 450, at least 25
    decisions are recorded and the last 25 hold no admission.  No review
    fires at an index up to 450 unless the periodic condition holds. *)
Theorem review_trigger (self : BouncerPolicy) (calls : list policy_call) (person_index : Z) :
  exists fires,
    review_due person_index (after_calls (reset self) calls) = Ok fires
    /\ (fires = true
        <-> Spec.periodic person_index \/ Spec.emergency person_index (decisions_of calls))
    /\ (person_index <= 450 -> fires = true -> Spec.periodic person_index).
Proof.
  set (policy := after_calls (reset self) calls).
  assert (exists fires,
    review_due person_index policy = Ok fires
    /\ (fires = true
        <-> Spec.periodic person_index
            \/ (450 < person_index /\ (25 <= length (recent_decisions policy))%nat
                /\ Forall (fun d => d = false)
                     (drop (length (recent_decisions policy) - 25) (recent_decisions policy)))))
    as (fires & Hrun & Hiff).
  { unfold review_due, emergency_triggered, Spec.periodic, STRATEGIC_REVIEW_INTERVAL.
    cbv zeta.
    destruct (Z.ltb_spec 450 person_index) as [H450|H450];
      destruct (Z.eqb_spec (person_index `mod` 100) 0) as [Hmod|Hmod];
      destruct (Z.leb_spec 25 (Z.of_nat (length (recent_decisions policy)))) as [H25|H25];
      cbn [andb negb orb mbind result_bind mret result_ret];
      try (eexists; split; [reflexivity|];
           destruct (Z.ltb_spec 0 person_index); cbn [andb orb];
           intuition (first [congruence | lia])).
    destruct (rate_zero_iff policy) as (rate & -> & Hrate); [lia|].
    cbn [mbind result_bind mret result_ret].
    eexists; split; [reflexivity|].
    destruct (Z.ltb_spec 0 person_index); [|lia]. cbn [andb orb].
    rewrite Hrate. split.
    - intros Hall. right. repeat split; [lia|lia|done].
    - intros [[_ ?]|(_ & _ & ?)]; [lia|done]. }
  exists fires. split; [done|]. split.
  - rewrite Hiff. unfold Spec.emergency, policy.
    rewrite recent_decisions_after, length_drop, drop_drop.
    replace (length (decisions_of calls) - 25
             + (length (decisions_of calls) - (length (decisions_of calls) - 25) - 25))%nat
      with (length (decisions_of calls) - 25)%nat by lia.
    intuition lia.
  - intros Hle Hf. apply Hiff in Hf as [Hp|(H450 & _)]; [done|lia].
Qed.

(** *** C5: the provider never raises and falls back *)

Lemma get_soulbios_strategy_total (call : advisor_call) (fallback : json) :
  exists s, get_soulbios_strategy call fallback = Ok s.
Proof.
  unfold get_soulbios_strategy.
  destruct (strategize call) as [s|e]; [by eexists|].
  destruct e; by eexists.
Qed.

Lemma get_soulbios_strategy_failure (call : advisor_call) (fallback : json) (e : exn) :
  strategize call = Raise e -> get_soulbios_strategy call fallback = Ok fallback.
Proof. unfold get_soulbios_strategy. intros ->. by destruct e. Qed.

(** Whatever the advisor answers, the result is its answer or the
    fallback. *)
Lemma get_soulbios_strategy_cases (call : advisor_call) (fallback : json) :
  get_soulbios_strategy call fallback = Ok fallback
  \/ exists s, json_outcome call = Ok s /\ get_soulbios_strategy call fallback = Ok s.
Proof.
  unfold get_soulbios_strategy.
  destruct (strategize call) as [s|e] eqn:E; [|left; by destruct e].
  right. exists s. split; [|done]. unfold strategize in E.
  destruct (post_outcome call); [|done].
  destruct (raise_for_status_outcome call); [|done].
  destruct (json_outcome call) as [j|]; [|done].
  cbn [mbind result_bind] in E.
  destruct (py_in _ j) as [[]|]; cbn [mbind result_bind] in E; [| |done].
  - destruct (py_getitem j "_ooda_metadata") as [m|]; [|done].
    cbn [mbind result_bind] in E.
    destruct (py_get m _ _); [|done]. cbn [mbind result_bind] in E.
    destruct (py_getitem j "policy_type"); [|done].
    cbn in E. by inversion E.
  - cbn in E. by inversion E.
Qed.

(** A body that decodes to an object without metadata is returned as it
    is, whatever its members. *)
Lemma undecorated_object_is_returned (members : list (string * json)) (fallback : json) :
  obj_lookup "_ooda_metadata" members = None ->
  get_soulbios_strategy
    {| post_outcome := Ok tt; raise_for_status_outcome := Ok tt;
       json_outcome := Ok (JObj members) |} fallback = Ok (JObj members).
Proof.
  intros H. unfold get_soulbios_strategy, strategize. cbn. by rewrite H.
Qed.

(** C5, as stated, fails on a malformed response that decodes: at a
    review, an answer whose policy type is a number and whose switch point
    is a string is no strategy, and it is returned in place of the
    strategy in force. *)
Lemma malformed_response_is_returned :
  strategy_of_json MoreSamples.malformed_body = None
  /\ (exists s, strategy_of_json MoreSamples.strategy_in_force = Some s)
  /\ reviewed_strategy MoreSamples.answers_malformed MoreSamples.strategy_in_force
     = Ok MoreSamples.malformed_body
  /\ MoreSamples.malformed_body <> MoreSamples.strategy_in_force.
Proof. split; [done|]. split; [by eexists|]. split; [done|]. discriminate. Qed.

(** C5, amended. [get_soulbios_strategy] always returns and never raises.
    When the call times out, fails in transport, answers with an HTTP
    error, answers with a body that does not decode, or anything else
    raises in the [try] block, the result is the fallback it was given:
    the strategy in force on a review, and on the first call the hardcoded
    literal, which is Hybrid, switch point 400, leniency 0.55, scaling
    0.4, threshold 0.75, and has no buffer (the policy then reads 0.1).
    When nothing raises, the result is the decoded body as it is: nothing
    checks that it is a strategy. *)
Theorem provider_fallback_on_failure :
  (forall call fallback, exists s, get_soulbios_strategy call fallback = Ok s)
  /\ (forall call fallback e,
        strategize call = Raise e -> get_soulbios_strategy call fallback = Ok fallback)
  /\ (forall e status body fallback,
        get_soulbios_strategy
          {| post_outcome := Raise e; raise_for_status_outcome := status;
             json_outcome := body |} fallback = Ok fallback)
  /\ (forall e body fallback,
        get_soulbios_strategy
          {| post_outcome := Ok tt; raise_for_status_outcome := Raise e;
             json_outcome := body |} fallback = Ok fallback)
  /\ (forall e fallback,
        get_soulbios_strategy
          {| post_outcome := Ok tt; raise_for_status_outcome := Ok tt;
             json_outcome := Raise e |} fallback = Ok fallback)
  /\ (forall call e current,
        strategize call = Raise e -> reviewed_strategy call current = Ok current)
  /\ (forall call e,
        strategize call = Raise e -> initial_strategy call = Ok fallback_strategy)
  /\ (forall call fallback s,
        strategize call = Ok s ->
        json_outcome call = Ok s /\ get_soulbios_strategy call fallback = Ok s)
  /\ (forall members fallback,
        obj_lookup "_ooda_metadata" members = None ->
        get_soulbios_strategy
          {| post_outcome := Ok tt; raise_for_status_outcome := Ok tt;
             json_outcome := Ok (JObj members) |} fallback = Ok (JObj members))
  /\ strategy_of_json fallback_strategy
     = Some {| policy_type := Some "Hybrid"%string;
               phase_switch_point := Some 400;
               early_params := Some {| base_leniency := Some (55 # 100)%Q;
                                       scaling_factor := Some (4 # 10)%Q |};
               late_params := Some {| base_threshold := Some (75 # 100)%Q;
                                      buffer_percent := None |} |}
  /\ (forall s, strategy_of_json fallback_strategy = Some s ->
        effective_buffer_percent s = (1 # 10)%Q).
Proof.
  split; [apply get_soulbios_strategy_total|].
  split; [apply get_soulbios_strategy_failure|].
  split; [intros e ? ? ?; by destruct e|].
  split; [intros e ? ?; by destruct e|].
  split; [intros e ?; by destruct e|].
  split; [intros call e current; apply get_soulbios_strategy_failure|].
  split; [intros call e; apply get_soulbios_strategy_failure|].
  split.
  { intros call fallback s Hs.
    destruct (get_soulbios_strategy_cases call fallback) as [Hfb|(s' & Hj & Hg)].
    - unfold get_soulbios_strategy in *. rewrite Hs in *. inversion Hfb; subst.
      split; [|done]. clear Hfb. revert Hs. unfold strategize.
      destruct (post_outcome call); [|done].
      destruct (raise_for_status_outcome call); [|done].
      destruct (json_outcome call) as [j|]; [|done].
      cbn [mbind result_bind].
      destruct (py_in _ j) as [[]|]; cbn [mbind result_bind]; [| |done].
      + destruct (py_getitem j "_ooda_metadata") as [m|]; [|done].
        cbn [mbind result_bind].
        destruct (py_get m _ _); [|done]. cbn [mbind result_bind].
        destruct (py_getitem j "policy_type"); [|done].
        cbn. by intros [= ->].
      + cbn. by intros [= ->].
    - unfold get_soulbios_strategy in Hg. rewrite Hs in Hg. inversion Hg; subst.
      split; [done|]. unfold get_soulbios_strategy. by rewrite Hs. }
  split; [apply undecorated_object_is_returned|].
  split; [reflexivity|].
  intros s [= <-]. reflexivity.
Qed.

(** The default the advisor itself falls back to
    ([GameTheoryAgent._default_strategy]) is another literal: its base
    threshold is 0.45. *)
Lemma agent_default_strategy_threshold (reason timestamp : string) :
  exists s,
    strategy_of_json (GameTheoryAgent._default_strategy reason timestamp) = Some s
    /\ effective_base_threshold s = (45 # 100)%Q
    /\ effective_buffer_percent s = (1 # 10)%Q.
Proof. eexists. split; [reflexivity|]. split; reflexivity. Qed.

End PlayerFacts.

Module CacheFacts.
Import Cache CacheSpec.

(** *** The similarity score *)

Lemma fold_left_Qmult (f : string -> Q) (l : list string) (a : Q) :
  (fold_left (fun acc attr => acc * f attr) l a == a * product (map f l))%Q.
Proof.
  revert a. induction l as [|x l IH]; intros a; cbn [fold_left map product foldr].
  - ring.
  - rewrite IH. unfold product. ring.
Qed.

Lemma similarity_unfold (s1 s2 : game_state) :
  (_calculate_similarity s1 s2 == similarity_by_target s1 s2)%Q.
Proof.
  unfold _calculate_similarity, similarity_by_target, constraintSim.
  cbv zeta.
  rewrite (fold_left_Qmult
             (closeness (constraint_targets (constraints s1))
                        (constraint_targets (constraints s2)))).
  unfold personSim, acceptSim. ring.
Qed.

Lemma ratio_nonneg (d : Z) (k : Q) : (0 < k)%Q -> (0 <= inject_Z (Z.abs d) / k)%Q.
Proof.
  intros Hk. apply Qle_shift_div_l; [done|].
  rewrite Qmult_0_l. change 0%Q with (inject_Z 0). rewrite <- Zle_Qle. lia.
Qed.

Lemma closeness_range (d : Z) (k : Q) :
  (0 < k)%Q -> (0 <= Qmax 0 (1 - inject_Z (Z.abs d) / k) <= 1)%Q.
Proof.
  intros Hk. pose proof (ratio_nonneg d k Hk) as Hr. split.
  - apply Q.le_max_l.
  - apply Q.max_lub; lra.
Qed.

Lemma product_range (l : list Q) :
  Forall (fun x => 0 <= x <= 1)%Q l -> (0 <= product l <= 1)%Q.
Proof.
  induction 1 as [|x l [Hx0 Hx1] _ [IH0 IH1]]; cbn [product foldr].
  - lra.
  - fold (product l). split; [by apply Qmult_le_0_compat|].
    apply Qle_trans with (1 * 1)%Q; [by apply Qmult_le_compat_nonneg|lra].
Qed.

Lemma constraintSim_range (m1 m2 : gmap string Z) : (0 <= constraintSim m1 m2 <= 1)%Q.
Proof.
  unfold constraintSim. apply product_range, Forall_map, Forall_forall.
  intros attr _. by apply closeness_range.
Qed.




Lemma best_scan_spec (now : Z) (gs : game_state) (items : list (string * CachedStrategy))
    (bm : option (string * CachedStrategy)) (bs : Q) :
  (best_scan now gs items bm bs = (bm, bs)
   /\ forall k e, (k, e) ∈ items -> _is_cache_valid now e = true ->
        ~ ((bs < score gs e)%Q /\ (similarity_threshold <= score gs e)%Q))
  \/ (exists k e,
        best_scan now gs items bm bs = (Some (k, e), score gs e)
        /\ (k, e) ∈ items
        /\ _is_cache_valid now e = true
        /\ (similarity_threshold <= score gs e)%Q
        /\ (bs < score gs e)%Q
        /\ forall k' e', (k', e') ∈ items -> _is_cache_valid now e' = true ->
             (score gs e' <= score gs e)%Q).
Proof.
  revert bm bs. induction items as [|[k0 e0] rest IH]; intros bm bs.
  { left. split; [done|]. intros k e Hin. by apply elem_of_nil in Hin. }
  cbn [best_scan]. fold (score gs e0).
  destruct (_is_cache_valid now e0) eqn:Hv0; cbn [negb].
  - destruct (negb (Qle_bool (score gs e0) bs)
              && Qle_bool similarity_threshold (score gs e0)) eqn:Hc.
    + apply andb_true_iff in Hc as [Hgt Hthr].
      apply negb_true_iff in Hgt. apply Qle_bool_iff in Hthr.
      assert (bs < score gs e0)%Q as Hlt.
      { apply Qnot_le_lt. rewrite <- Qle_bool_iff. congruence. }
      right. destruct (IH (Some (k0, e0)) (score gs e0))
        as [[Heq Hall]|(k & e & Heq & Hin & Hv & Ht & Hbeat & Hall)].
      * exists k0, e0. rewrite Heq. repeat split; try done; [by left|].
        intros k' e' Hin' Hv'. apply elem_of_cons in Hin' as [Hhd|Hin'].
        -- inversion Hhd; subst. apply Qle_refl.
        -- destruct (Qlt_le_dec (score gs e0) (score gs e')) as [Hbig|Hle]; [|done].
           exfalso. apply (Hall k' e' Hin' Hv'). split; [done|lra].
      * exists k, e. rewrite Heq. repeat split; try done; [by right|lra|].
        intros k' e' Hin' Hv'. apply elem_of_cons in Hin' as [Hhd|Hin'].
        -- inversion Hhd; subst. lra.
        -- by apply (Hall k' e').
    + assert (~ ((bs < score gs e0)%Q /\ (similarity_threshold <= score gs e0)%Q)) as Hno.
      { intros [Hlt Hthr]. apply Qle_bool_iff in Hthr. rewrite Hthr, andb_true_r in Hc.
        apply negb_false_iff, Qle_bool_iff in Hc. lra. }
      destruct (IH bm bs) as [[Heq Hall]|(k & e & Heq & Hin & Hv & Ht & Hbeat & Hall)].
      * left. split; [done|].
        intros k' e' Hin' Hv'. apply elem_of_cons in Hin' as [Hhd|Hin'].
        -- by inversion Hhd; subst.
        -- by apply (Hall k' e').
      * right. exists k, e. repeat split; try done; [by right|].
        intros k' e' Hin' Hv'. apply elem_of_cons in Hin' as [Hhd|Hin'].
        -- inversion Hhd; subst.
           destruct (Qlt_le_dec bs (score gs e0)) as [Hlt|Hle]; [|lra].
           destruct (Qlt_le_dec (score gs e0) similarity_threshold) as [Hlow|Hhigh]; [lra|].
           exfalso. by apply Hno.
        -- by apply (Hall k' e').
  - destruct (IH bm bs) as [[Heq Hall]|(k & e & Heq & Hin & Hv & Ht & Hbeat & Hall)].
    + left. split; [done|].
      intros k' e' Hin' Hv'. apply elem_of_cons in Hin' as [Hhd|Hin'].
      * inversion Hhd; subst. congruence.
      * by apply (Hall k' e').
    + right. exists k, e. repeat split; try done; [by right|].
      intros k' e' Hin' Hv'. apply elem_of_cons in Hin' as [Hhd|Hin'].
      * inversion Hhd; subst. congruence.
      * by apply (Hall k' e').
Qed.

(** *** The sort of the eviction *)









(** *** The dict operations on the association list *)

Section Dict.
Context {V : Type}.
Implicit Types (d : list (string * V)) (key : string).

Lemma dict_get_None key d : dict_get key d = None <-> ~ In key (map fst d).
Proof.
  unfold dict_get. induction d as [|[k v] d IH]; cbn; [tauto|].
  destruct (String.eqb_spec k key) as [->|Hne]; cbn.
  - split; [done|]. intros H. exfalso. apply H. by left.
  - rewrite IH. tauto.
Qed.

Lemma dict_set_keys key (v : V) d :
  map fst (dict_set key v d)
  = match dict_get key d with
    | Some _ => map fst d
    | None => map fst d ++ [key]
    end.
Proof.
  unfold dict_set. destruct (dict_get key d).
  - rewrite map_map. apply map_ext. intros [k x]. cbn.
    by destruct (String.eqb_spec k key).
  - by rewrite map_app.
Qed.










End Dict.

(** *** C8: eviction and the size of the cache *)









Section Stores.
Variable fingerprint : game_state -> string.



Lemma serve_keys (self : StrategyCache) key c kind similarity :
  In key (map fst (cache self)) ->
  map fst (cache (serve self key c kind similarity).2) = map fst (cache self).
Proof.
  intros Hin. unfold serve. cbn [snd cache]. rewrite dict_set_keys.
  destruct (dict_get key (cache self)) eqn:E; [done|].
  by apply dict_get_None in E.
Qed.

Lemma similarity_phase_keys (self : StrategyCache) now gs :
  map fst (cache (similarity_phase self now gs).2) = map fst (cache self).
Proof.
  unfold similarity_phase.
  destruct (best_scan_spec now gs (cache self) None 0)
    as [[Heq _]|(k & e & Heq & Hin & _)]; rewrite Heq; [done|].
  apply serve_keys. apply list_elem_of_In in Hin.
  change k with (k, e).1. by apply in_map.
Qed.

(** A lookup changes hit counts and metadata, not the keys. *)
Lemma get_cached_strategy_keys (self : StrategyCache) now gs :
  map fst (cache (get_cached_strategy fingerprint self now gs).2) = map fst (cache self).
Proof.
  unfold get_cached_strategy. cbn [cache].
  destruct (dict_get (fingerprint gs) (cache self)) as [c|] eqn:E.
  - destruct (_is_cache_valid now c).
    + rewrite serve_keys; [done|]. cbn [cache].
      destruct (in_dec String.string_dec (fingerprint gs) (map fst (cache self)))
        as [Hin|Hout]; [done|].
      apply dict_get_None in Hout. congruence.
    + by rewrite similarity_phase_keys.
  - by rewrite similarity_phase_keys.
Qed.


End Stores.






End CacheFacts.

(** * Further properties of the player *)

Module PlayerMore.
Import Player PlayerFacts.

(** ** The ledger *)

Lemma after_calls_snoc (self : BouncerPolicy) (calls : list policy_call) (c : policy_call) :
  after_calls self (calls ++ [c]) = run_call (after_calls self calls) c.
Proof. unfold after_calls. by rewrite fold_left_app. Qed.

Lemma decisions_of_snoc (calls : list policy_call) (c : policy_call) :
  decisions_of (calls ++ [c])
  = decisions_of calls
    ++ match c with UpdateState accepted _ => [accepted] | SetStrategy _ => [] end.
Proof. unfold decisions_of. rewrite omap_app. by destruct c. Qed.

Lemma ledger_counts (self : BouncerPolicy) (calls : list policy_call) :
  slots_filled (after_calls (reset self) calls)
  = Z.of_nat (length (List.filter (fun d => d) (decisions_of calls)))
  /\ rejections (after_calls (reset self) calls)
     = Z.of_nat (length (List.filter negb (decisions_of calls)))
  /\ slots_remaining (after_calls (reset self) calls)
     = 1000 - slots_filled (after_calls (reset self) calls).
Proof.
  induction calls as [|c calls IH] using rev_ind.
  - cbn. lia.
  - rewrite after_calls_snoc, decisions_of_snoc.
    destruct IH as (Hf & Hr & Hs).
    destruct c as [s|accepted attrs].
    + rewrite app_nil_r. cbn [run_call set_strategy slots_filled rejections slots_remaining].
      done.
    + rewrite !List.filter_app, !length_app.
      cbn [run_call update_state slots_filled rejections slots_remaining].
      destruct accepted; cbn [List.filter negb length]; lia.
Qed.

Lemma filter_partition_length (l : list bool) :
  (length (List.filter (fun d => d) l) + length (List.filter negb l) = length l)%nat.
Proof. induction l as [|[] l IH]; cbn; lia. Qed.

(** X1. After any run of [update_state] and [set_strategy] calls from
    [reset], [slots_filled] is the number of admissions recorded,
    [rejections] the number of rejections, and
    [slots_remaining = 1000 - slots_filled]. *)
Theorem ledger_accounting (self : BouncerPolicy) (calls : list policy_call) :
  let policy := after_calls (reset self) calls in
  slots_filled policy = Z.of_nat (length (List.filter (fun d => d) (decisions_of calls)))
  /\ rejections policy = Z.of_nat (length (List.filter negb (decisions_of calls)))
  /\ slots_remaining policy = 1000 - slots_filled policy
  /\ slots_filled policy + rejections policy = Z.of_nat (length (decisions_of calls)).
Proof.
  cbv zeta. destruct (ledger_counts self calls) as (Hf & Hr & Hs).
  repeat split; try done.
  rewrite Hf, Hr. pose proof (filter_partition_length (decisions_of calls)). lia.
Qed.

(** ** [_record_admission] *)

Lemma record_items_lookup (items : list (string * bool)) (cs : gmap string constraint_data)
    (attr : string) :
  NoDup (map fst items) ->
  fold_left
    (fun m item =>
       if (item.2 : bool) && bool_decide (is_Some (m !! item.1))
       then alter (fun data => {| target := target data; admitted := admitted data + 1 |})
                  item.1 m
       else m) items cs !! attr
  = (fun data => if bool_decide ((attr, true) ∈ items) then Driver.bump data else data)
      <$> cs !! attr.
Proof.
  revert cs. induction items as [|[k b] items IH]; intros cs Hnd.
  - cbn. rewrite bool_decide_eq_false_2 by apply not_elem_of_nil.
    by destruct (cs !! attr).
  - cbn [map fst] in Hnd. apply NoDup_cons in Hnd as [Hk Hnd].
    cbn [fold_left fst snd]. rewrite IH by done.
    assert (forall b', (attr, b') ∈ items -> k <> attr) as Hne.
    { intros b' Hin ->. apply Hk. apply list_elem_of_In.
      change attr with (attr, b').1. apply in_map. by apply list_elem_of_In. }
    destruct (decide (k = attr)) as [->|Hka].
    + assert ((attr, true) ∉ items) as Hout by (intros Hin; by apply (Hne true Hin)).
      rewrite (bool_decide_eq_false_2 ((attr, true) ∈ items) Hout).
      destruct b; cbn [andb].
      * rewrite (bool_decide_eq_true_2 ((attr, true) ∈ (attr, true) :: items))
          by apply list_elem_of_here.
        destruct (cs !! attr) as [d|] eqn:E.
        -- rewrite (bool_decide_eq_true_2 (is_Some (Some d))) by (by eexists).
           by rewrite lookup_alter_eq, E.
        -- rewrite (bool_decide_eq_false_2 (is_Some None)) by (by intros [? ?]).
           by rewrite E.
      * rewrite (bool_decide_eq_false_2 ((attr, true) ∈ (attr, false) :: items)).
        -- by destruct (cs !! attr).
        -- intros Hin. apply elem_of_cons in Hin as [Heq|Hin]; [by inversion Heq|done].
    + assert (((attr, true) ∈ (k, b) :: items) <-> ((attr, true) ∈ items)) as Hiff.
      { rewrite elem_of_cons. split; [|by right].
        intros [Heq|Hin]; [inversion Heq; congruence|done]. }
      rewrite (bool_decide_ext _ _ Hiff).
      destruct (b && bool_decide (is_Some (cs !! k))); [|done].
      by rewrite lookup_alter_ne.
Qed.

Lemma record_admission_lookup (cs : gmap string constraint_data)
    (person_attributes : gmap string bool) (attr : string) :
  _record_admission cs person_attributes !! attr
  = (fun data => if default false (person_attributes !! attr) then Driver.bump data else data)
      <$> cs !! attr.
Proof.
  unfold _record_admission.
  rewrite record_items_lookup by apply NoDup_fst_map_to_list.
  destruct (cs !! attr) as [d|]; [|done]. cbn. f_equal.
  destruct (person_attributes !! attr) as [[]|] eqn:E; cbn.
  - by rewrite bool_decide_eq_true_2 by (by apply elem_of_map_to_list).
  - rewrite bool_decide_eq_false_2; [done|].
    intros Hin. apply elem_of_map_to_list in Hin. congruence.
  - rewrite bool_decide_eq_false_2; [done|].
    intros Hin. apply elem_of_map_to_list in Hin. congruence.
Qed.

Lemma carriers_admitted_snoc (attr : string) (calls : list policy_call) (c : policy_call) :
  Driver.carriers_admitted attr (calls ++ [c])
  = Driver.carriers_admitted attr calls + (if Driver.admitted_carrier attr c then 1 else 0).
Proof.
  unfold Driver.carriers_admitted. rewrite List.filter_app, length_app. cbn [List.filter].
  destruct (Driver.admitted_carrier attr c); cbn [length]; lia.
Qed.

Lemma quota_lookup (self : BouncerPolicy) (calls : list policy_call) (attr : string) :
  constraints (after_calls (reset self) calls) !! attr
  = (fun data => {| target := target data;
                    admitted := Driver.carriers_admitted attr calls |})
      <$> constraints self !! attr.
Proof.
  induction calls as [|c calls IH] using rev_ind.
  - cbn. rewrite lookup_fmap. by destruct (constraints self !! attr).
  - rewrite after_calls_snoc, carriers_admitted_snoc.
    destruct c as [s|[] attrs]; cbn [run_call set_strategy update_state constraints
                                     Driver.admitted_carrier].
    + rewrite IH. destruct (constraints self !! attr); cbn; [|done].
      do 2 f_equal. lia.
    + rewrite record_admission_lookup, IH.
      destruct (constraints self !! attr); cbn; [|done]. f_equal.
      destruct (default false (attrs !! attr)); unfold Driver.bump; cbn; f_equal; lia.
    + rewrite IH. destruct (constraints self !! attr); cbn; [|done].
      do 2 f_equal. lia.
Qed.

Lemma carriers_admitted_bound (attr : string) (calls : list policy_call) :
  0 <= Driver.carriers_admitted attr calls
       <= Z.of_nat (length (List.filter (fun d => d) (decisions_of calls))).
Proof.
  split; [unfold Driver.carriers_admitted; lia|].
  induction calls as [|c calls IH] using rev_ind; [done|].
  rewrite carriers_admitted_snoc, decisions_of_snoc, List.filter_app, length_app.
  destruct c as [s|[] attrs]; cbn [Driver.admitted_carrier List.filter length]; try lia.
  destruct (default false (attrs !! attr)); lia.
Qed.

(** X2. After any run of calls from [reset], the tracked attributes and
    their targets are those of the start, the admitted count of each is the
    number of admitted candidates who carried it, and it is at most the
    number of slots filled. *)
Theorem quota_counts (self : BouncerPolicy) (calls : list policy_call) (attr : string) :
  let policy := after_calls (reset self) calls in
  constraints policy !! attr
  = (fun data => {| target := target data;
                    admitted := Driver.carriers_admitted attr calls |})
      <$> constraints self !! attr
  /\ 0 <= Driver.carriers_admitted attr calls <= slots_filled policy.
Proof.
  cbv zeta. split; [apply quota_lookup|].
  destruct (ledger_counts self calls) as [-> _].
  apply carriers_admitted_bound.
Qed.

(** ** The window of recent decisions *)

(** X3. After any run of calls from [reset], [recent_decisions] holds the
    most recent decisions, never more than 25 of them. *)
Theorem recent_window (self : BouncerPolicy) (calls : list policy_call) :
  let policy := after_calls (reset self) calls in
  recent_decisions policy = drop (length (decisions_of calls) - 25) (decisions_of calls)
  /\ length (recent_decisions policy) = Nat.min 25 (length (decisions_of calls)).
Proof.
  cbv zeta. rewrite recent_decisions_after, length_drop. split; [done|lia].
Qed.

Lemma ratio_range (a b : Z) :
  0 <= a <= b -> 0 < b -> (0 <= inject_Z a / inject_Z b)%Q /\ (inject_Z a / inject_Z b <= 1)%Q.
Proof.
  intros [Ha Hab] Hb.
  assert (0 < inject_Z b)%Q as Hq by (unfold Qlt; cbn; lia).
  split.
  - apply Qle_shift_div_l; [done|]. rewrite Qmult_0_l. unfold Qle. cbn. lia.
  - apply Qle_shift_div_r; [done|]. rewrite Qmult_1_l. by rewrite <- Zle_Qle.
Qed.

(** X4. For a window size that is not negative,
    [get_acceptance_rate_in_window] raises nothing and returns a rate
    between 0 and 1. *)
Theorem acceptance_rate_range (policy : BouncerPolicy) (window_size : Z) :
  0 <= window_size ->
  exists rate,
    get_acceptance_rate_in_window policy window_size = Ok rate
    /\ (0 <= rate)%Q /\ (rate <= 1)%Q.
Proof.
  intros Hw. unfold get_acceptance_rate_in_window.
  set (recent := recent_decisions policy).
  destruct (bool_decide (recent = [])) eqn:Hnil; cbn [orb].
  { exists 1%Q. split; [done|]. split; lra. }
  apply bool_decide_eq_false in Hnil.
  destruct (Z.ltb_spec (Z.of_nat (length recent)) window_size) as [Hshort|Hlong].
  { exists 1%Q. split; [done|]. split; lra. }
  set (window := slice_from (- window_size) recent).
  assert (0 < length window)%nat as Hpos.
  { unfold window, slice_from. rewrite length_drop.
    destruct recent as [|d recent']; [done|]. cbn [length] in *.
    destruct (Z.ltb_spec (- window_size) 0); lia. }
  rewrite truediv_nonzero by lia.
  eexists. split; [reflexivity|].
  apply ratio_range; [|lia].
  pose proof (length_filter (fun d => d = true) window). lia.
Qed.

Lemma acceptance_rate_range_witness :
  exists rate,
    get_acceptance_rate_in_window MoreSamples.three_rejections 2 = Ok rate
    /\ (0 <= rate)%Q /\ (rate <= 1)%Q.
Proof. apply acceptance_rate_range. lia. Defined.

(** With a negative window size and a history that is not empty and
    no longer than its absolute value, [get_acceptance_rate_in_window]
    divides by the length of an empty slice and raises
    [ZeroDivisionError]. *)
Theorem acceptance_rate_negative_window (policy : BouncerPolicy) (window_size : Z) :
  window_size < 0 ->
  recent_decisions policy <> [] ->
  Z.of_nat (length (recent_decisions policy)) <= - window_size ->
  get_acceptance_rate_in_window policy window_size = Raise ZeroDivisionError.
Proof.
  intros Hw Hne Hlen. unfold get_acceptance_rate_in_window.
  rewrite bool_decide_eq_false_2 by done.
  destruct (Z.ltb_spec (Z.of_nat (length (recent_decisions policy))) window_size);
    [lia|]. cbn [orb].
  assert (slice_from (- window_size) (recent_decisions policy) = []) as ->.
  { unfold slice_from. destruct (Z.ltb_spec (- window_size) 0); [lia|].
    apply drop_ge. lia. }
  reflexivity.
Qed.

Lemma acceptance_rate_negative_window_witness :
  get_acceptance_rate_in_window MoreSamples.three_rejections (-5) = Raise ZeroDivisionError.
Proof. apply acceptance_rate_negative_window; [lia|discriminate|cbn; lia]. Defined.

(** ** Candidates the policy rejects *)

Lemma panic_scan_false (slots : Z) (person : gmap string bool)
    (items : list (string * constraint_data)) :
  (forall attr data, (attr, data) ∈ items -> person !! attr = Some true ->
                     needed data < slots) ->
  panic_scan slots person items = false.
Proof.
  induction items as [|[attr data] rest IH]; intros Hall; [done|].
  cbn [panic_scan]. rewrite IH by (intros a d Hin; apply Hall; by right).
  destruct ((0 <? slots) && (slots <=? needed data)) eqn:E; [|done].
  destruct (person !! attr) as [[]|] eqn:Hp; cbn; try done.
  apply andb_true_iff in E as [_ E].
  pose proof (Hall attr data (list_elem_of_here _ _) Hp). lia.
Qed.

Lemma carried_elem (self : BouncerPolicy) (person : gmap string bool) (data : constraint_data) :
  data ∈ Spec.carried self person
  <-> exists attr, person !! attr = Some true /\ constraints self !! attr = Some data.
Proof.
  unfold Spec.carried. rewrite list_elem_of_omap. split.
  - intros ([attr has] & Hin & Hd). apply elem_of_map_to_list in Hin.
    cbn in Hd. destruct has; [|done]. by exists attr.
  - intros (attr & Hp & Hc). exists (attr, true). split; [by apply elem_of_map_to_list|done].
Qed.






(** X5. A candidate who carries no tracked attribute is rejected, whatever
    the strategy and the state. *)
Theorem untracked_candidate_rejected (self : BouncerPolicy) (person : gmap string bool) :
  (forall attr, person !! attr = Some true -> constraints self !! attr = None) ->
  should_admit self person = Ok false.
Proof.
  intros Hun.
  assert (Spec.carried self person = []) as Hnone.
  { destruct (Spec.carried self person) as [|d ds] eqn:E; [done|].
    assert (d ∈ Spec.carried self person) as Hd by (rewrite E; left).
    apply carried_elem in Hd as (attr & Hp & Hc). rewrite (Hun attr Hp) in Hc. done. }
  assert (panic_mode self person = false) as Hpanic.
  { apply panic_scan_false. intros attr data Hin Hp.
    apply elem_of_map_to_list in Hin. rewrite (Hun attr Hp) in Hin. done. }
  assert (urgencies_of self (map_to_list person) = Ok []) as Hurg.
  { destruct (Z_lt_le_dec 0 (slots_remaining self)).
    - rewrite urgencies_of_pos by done. fold (Spec.carried self person). by rewrite Hnone.
    - by apply urgencies_of_nonpos. }
  assert (_max_urgency_logic self person = Ok false) as Hearly
    by (unfold _max_urgency_logic; by rewrite Hurg).
  assert (_combined_value_logic self person = Ok false) as Hlate
    by (unfold _combined_value_logic; by rewrite Hurg).
  unfold should_admit. rewrite Hpanic, Hearly, Hlate.
  by repeat match goal with
            | |- context [if ?x then _ else _] => destruct x
            end.
Qed.

Lemma untracked_candidate_rejected_witness :
  should_admit Samples.slow_start MoreSamples.tourist = Ok false.
Proof.
  apply untracked_candidate_rejected. intros attr Hp.
  unfold MoreSamples.tourist in Hp.
  apply lookup_singleton_Some in Hp as [<- _]. reflexivity.
Defined.



(** X7. Whenever the condition of panic mode holds for an attribute the
    candidate carries, the Max-Urgency logic admits as well: the override
    changes the decision only where the Combined-Value logic decides. *)
Theorem panic_implies_max_urgency_admits (self : BouncerPolicy)
    (person : gmap string bool) (attr : string) (data : constraint_data) :
  0 < slots_remaining self ->
  constraints self !! attr = Some data ->
  slots_remaining self <= needed data ->
  person !! attr = Some true ->
  _max_urgency_logic self person = Ok true.
Proof.
  intros Hs Hc Hneed Hp. unfold _max_urgency_logic.
  rewrite urgencies_of_pos by done. cbn [mbind result_bind].
  fold (Spec.carried self person).
  assert (existsb (Qle_bool 1)
            (map (Spec.signed_urgency (slots_remaining self)) (Spec.carried self person))
          = true) as Hex.
  { apply existsb_exists. exists (Spec.signed_urgency (slots_remaining self) data). split.
    - apply in_map, list_elem_of_In, carried_elem. by exists attr.
    - apply Qle_bool_iff. unfold Spec.signed_urgency. rewrite Z.max_r by lia.
      apply Qle_shift_div_l; [unfold Qlt; cbn; lia|].
      rewrite Qmult_1_l. rewrite <- Zle_Qle. unfold needed in Hneed. lia. }
  destruct (map _ (Spec.carried self person)) as [|u us]; [done|].
  rewrite Qle_bool_max_of.
  change (Qle_bool 1 u || existsb (Qle_bool 1) us) with (existsb (Qle_bool 1) (u :: us)).
  by rewrite Hex.
Qed.

Lemma panic_implies_max_urgency_admits_witness :
  _max_urgency_logic Samples.last_slots Samples.carries_young = Ok true.
Proof.
  apply (panic_implies_max_urgency_admits Samples.last_slots Samples.carries_young
           "young"%string {| target := 600; admitted := 590 |}).
  - reflexivity.
  - reflexivity.
  - vm_compute. discriminate.
  - reflexivity.
Defined.

(** ** The provider on answers that decode *)

(** X8. [get_soulbios_strategy] returns the fallback it was given or the
    very value the answer decoded to, and nothing else. *)
Theorem provider_answer_or_fallback (call : advisor_call) (fallback : json) :
  get_soulbios_strategy call fallback = Ok fallback
  \/ exists s, json_outcome call = Ok s /\ get_soulbios_strategy call fallback = Ok s.
Proof. apply get_soulbios_strategy_cases. Qed.

(** X9. An answer that decodes to an object without [_ooda_metadata] is
    returned as the strategy whatever its members: the player checks no
    key and no type of it. *)
Theorem unvalidated_object_is_returned (members : list (string * json)) (fallback : json) :
  obj_lookup "_ooda_metadata" members = None ->
  get_soulbios_strategy
    {| post_outcome := Ok tt; raise_for_status_outcome := Ok tt;
       json_outcome := Ok (JObj members) |} fallback = Ok (JObj members).
Proof. apply undecorated_object_is_returned. Qed.

Lemma unvalidated_object_is_returned_witness :
  get_soulbios_strategy
    {| post_outcome := Ok tt; raise_for_status_outcome := Ok tt;
       json_outcome := Ok (JObj MoreSamples.unrelated_object) |} fallback_strategy
  = Ok (JObj MoreSamples.unrelated_object).
Proof. apply unvalidated_object_is_returned. reflexivity. Defined.

(** X10. An answer that decodes to an object with [_ooda_metadata] but
    without [policy_type] is dropped for the fallback, whatever else it
    holds: the log line of the success path reads
    [strategy['policy_type']]. *)
Theorem decorated_without_policy_type_is_dropped (members : list (string * json))
    (metadata : json) (fallback : json) :
  obj_lookup "_ooda_metadata" members = Some metadata ->
  obj_lookup "policy_type" members = None ->
  get_soulbios_strategy
    {| post_outcome := Ok tt; raise_for_status_outcome := Ok tt;
       json_outcome := Ok (JObj members) |} fallback = Ok fallback.
Proof.
  intros Hmeta Hty. unfold get_soulbios_strategy, strategize. cbn.
  rewrite Hmeta. cbn. destruct metadata; cbn; try done.
  by rewrite Hty.
Qed.

Lemma decorated_without_policy_type_is_dropped_witness :
  get_soulbios_strategy
    {| post_outcome := Ok tt; raise_for_status_outcome := Ok tt;
       json_outcome := Ok (JObj MoreSamples.decorated_without_type) |} fallback_strategy
  = Ok fallback_strategy.
Proof.
  apply (decorated_without_policy_type_is_dropped _
           (JObj [("processing_time_ms"%string, JInt 12)])); reflexivity.
Defined.

End PlayerMore.

(** * Properties of the game loop and the batch *)

Module DriverFacts.
Import Player PlayerFacts Driver.

(** ** Capacity *)

Lemma should_admit_no_slots (self : BouncerPolicy) (person : gmap string bool) :
  slots_remaining self <= 0 -> should_admit self person = Ok false.
Proof.
  intros Hle.
  assert (panic_mode self person = false) as Hpanic by (by apply panic_scan_nonpos).
  assert (_max_urgency_logic self person = Ok false) as Hearly
    by (unfold _max_urgency_logic; by rewrite urgencies_of_nonpos).
  assert (_combined_value_logic self person = Ok false) as Hlate
    by (unfold _combined_value_logic; by rewrite urgencies_of_nonpos).
  unfold should_admit. rewrite Hpanic, Hearly, Hlate.
  by repeat match goal with
            | |- context [if ?x then _ else _] => destruct x
            end.
Qed.

Lemma step_within_capacity (policy : BouncerPolicy) (c : candidate) :
  slots_remaining policy = 1000 - slots_filled policy ->
  0 <= slots_filled policy <= 1000 ->
  exists decision policy',
    step policy c = Ok (decision, policy')
    /\ slots_remaining policy' = 1000 - slots_filled policy'
    /\ 0 <= slots_filled policy' <= 1000
    /\ slots_filled policy' = slots_filled policy + (if decision then 1 else 0).
Proof.
  intros Hrem Hfill. unfold step.
  set (current := match reviewed c with Some s => set_strategy policy s | None => policy end).
  assert (slots_remaining current = slots_remaining policy
          /\ slots_filled current = slots_filled policy) as [Hr Hf]
    by (unfold current; by destruct (reviewed c)).
  destruct (should_admit_total current (attributes c)) as [decision Hdecision].
  rewrite Hdecision. cbn [mbind result_bind mret result_ret].
  exists decision, (update_state current decision (attributes c)).
  split; [done|]. cbn [update_state slots_remaining slots_filled].
  destruct decision; [|lia].
  destruct (Z_le_gt_dec (slots_remaining current) 0) as [Hfull|Hroom].
  - rewrite (should_admit_no_slots current (attributes c) Hfull) in Hdecision. done.
  - lia.
Qed.

Lemma play_within_capacity (policy : BouncerPolicy) (candidates : list candidate) :
  slots_remaining policy = 1000 - slots_filled policy ->
  0 <= slots_filled policy <= 1000 ->
  exists decisions policy',
    play policy candidates = Ok (decisions, policy')
    /\ length decisions = length candidates
    /\ slots_remaining policy' = 1000 - slots_filled policy'
    /\ 0 <= slots_filled policy' <= 1000
    /\ slots_filled policy'
       = slots_filled policy + Z.of_nat (length (List.filter (fun d => d) decisions)).
Proof.
  revert policy. induction candidates as [|c rest IH]; intros policy Hrem Hfill.
  - exists [], policy. cbn. repeat split; try done; lia.
  - destruct (step_within_capacity policy c Hrem Hfill)
      as (decision & p1 & Hstep & Hrem1 & Hfill1 & Hcount1).
    destruct (IH p1 Hrem1 Hfill1) as (decisions & p2 & Hplay & Hlen & Hrem2 & Hfill2 & Hcount2).
    exists (decision :: decisions), p2.
    cbn [play]. rewrite Hstep. cbn [mbind result_bind]. rewrite Hplay.
    cbn [mbind result_bind mret result_ret length].
    repeat split; try done; try lia.
    rewrite Hcount2, Hcount1. destruct decision; cbn [List.filter length]; lia.
Qed.

(** X11. A game played by the policy, with or without reviews, never
    admits more than the 1000 slots: every decision is made without an
    exception, [slots_filled] is the number of admissions and stays at
    most 1000, and [slots_remaining = 1000 - slots_filled] is never
    negative. *)
Theorem capacity_never_exceeded (self : BouncerPolicy) (candidates : list candidate) :
  exists decisions policy,
    play (reset self) candidates = Ok (decisions, policy)
    /\ length decisions = length candidates
    /\ slots_filled policy = Z.of_nat (length (List.filter (fun d => d) decisions))
    /\ slots_filled policy <= 1000
    /\ slots_remaining policy = 1000 - slots_filled policy
    /\ 0 <= slots_remaining policy.
Proof.
  destruct (play_within_capacity (reset self) candidates)
    as (decisions & policy & Hplay & Hlen & Hrem & Hfill & Hcount); [done|cbn; lia|].
  exists decisions, policy. cbn in Hcount. repeat split; try done; lia.
Qed.

(** X12. Once no slot remains, every later candidate is rejected,
    whatever the reviews install. *)
Theorem full_house_rejects_all (policy : BouncerPolicy) (candidates : list candidate) :
  slots_remaining policy = 0 ->
  slots_filled policy = 1000 ->
  exists policy',
    play policy candidates = Ok (repeat false (length candidates), policy')
    /\ slots_filled policy' = 1000 /\ slots_remaining policy' = 0.
Proof.
  revert policy. induction candidates as [|c rest IH]; intros policy Hrem Hfill.
  - by exists policy.
  - cbn [play]. unfold step.
    set (current := match reviewed c with Some s => set_strategy policy s | None => policy end).
    assert (slots_remaining current = 0 /\ slots_filled current = 1000) as [Hr Hf]
      by (unfold current; by destruct (reviewed c)).
    rewrite (should_admit_no_slots current (attributes c)) by lia.
    cbn [mbind result_bind mret result_ret].
    destruct (IH (update_state current false (attributes c))) as (p' & Hplay & Hf' & Hr').
    { cbn. lia. }
    { cbn. lia. }
    exists p'. rewrite Hplay. by cbn.
Qed.

Lemma full_house_rejects_all_witness :
  exists policy',
    play Samples.full_house
      [{| reviewed := None; attributes := Samples.carries_young |};
       {| reviewed := Some Samples.lenient_strategy; attributes := Samples.carries_young |}]
    = Ok ([false; false], policy')
    /\ slots_filled policy' = 1000 /\ slots_remaining policy' = 0.
Proof. apply (full_house_rejects_all Samples.full_house); reflexivity. Defined.

(** ** The observed frequencies *)

Lemma window_append_nonempty {A : Type} (window : list A) (x : A) :
  window_append window x <> [].
Proof.
  unfold window_append.
  destruct (Nat.ltb_spec (Z.to_nat STRATEGIC_REVIEW_INTERVAL) (length (window ++ [x])))
    as [Hlong|Hshort].
  - intros Hnil. apply (f_equal length) in Hnil. rewrite length_drop in Hnil.
    unfold STRATEGIC_REVIEW_INTERVAL in Hlong. cbn in Hnil. lia.
  - by destruct window.
Qed.

Lemma window_append_length {A : Type} (window : list A) (x : A) :
  (length window <= 100)%nat -> (length (window_append window x) <= 100)%nat.
Proof.
  intros Hlen. unfold window_append, STRATEGIC_REVIEW_INTERVAL.
  destruct (Nat.ltb_spec (Z.to_nat 100) (length (window ++ [x]))) as [Hlong|Hshort].
  - rewrite length_drop, length_app. cbn [length]. lia.
  - lia.
Qed.

Lemma filter_length_bound {A : Type} (f : A -> bool) (l : list A) :
  (length (List.filter f l) <= length l)%nat.
Proof. induction l as [|x l IH]; cbn; [lia|]. destruct (f x); cbn; lia. Qed.

Lemma frequencies_of_range (window : list (gmap string bool)) (attrs : list string) :
  window <> [] ->
  exists freqs,
    frequencies_of window attrs = Ok freqs
    /\ map fst freqs = attrs
    /\ Forall (fun kv => 0 <= kv.2 /\ kv.2 <= 1)%Q freqs.
Proof.
  intros Hne. induction attrs as [|attr rest (freqs & Hrun & Hkeys & Hall)].
  - by exists [].
  - cbn [frequencies_of]. unfold frequency_of.
    rewrite truediv_nonzero by (destruct window; [done|cbn; lia]).
    cbn [mbind result_bind]. rewrite Hrun. cbn [mbind result_bind mret result_ret].
    eexists. split; [reflexivity|]. split; [cbn; by rewrite Hkeys|].
    constructor; [|done]. cbn [snd].
    apply PlayerMore.ratio_range.
    + pose proof (filter_length_bound (fun p => default false (p !! attr)) window). lia.
    + destruct window; [done|cbn; lia].
Qed.

(** X13. In the loop the window of observed candidates is never empty when
    a review reads it and never longer than 100, so the observed
    frequencies are computed without a division by zero, one per tracked
    attribute, each between 0 and 1. *)
Theorem observed_frequencies_range (window : list (gmap string bool))
    (person : gmap string bool) (policy : BouncerPolicy) :
  ((length window <= 100)%nat -> (length (window_append window person) <= 100)%nat)
  /\ exists freqs,
       observed_freq (window_append window person) policy = Ok freqs
       /\ map fst freqs = map fst (map_to_list (constraints policy))
       /\ Forall (fun kv => 0 <= kv.2 /\ kv.2 <= 1)%Q freqs.
Proof.
  split; [apply window_append_length|].
  apply frequencies_of_range, window_append_nonempty.
Qed.

(** ** The batch *)

Lemma run_scenarios_app (played rest : list (Z * Z)) (total : Z) (results : gmap Z Z) :
  Forall (fun game => game.2 <> -1) played ->
  run_scenarios (played ++ rest) total results
  = run_scenarios rest
      (total + foldr Z.add 0 (map snd played))
      (fold_left (fun r game => <[game.1 := game.2]> r) played results).
Proof.
  intros Hok. revert total results.
  induction Hok as [|[scenario score] played Hscore _ IH]; intros total results.
  - cbn. f_equal. lia.
  - cbn [app run_scenarios]. cbn in Hscore.
    destruct (Z.eqb_spec score (-1)); [done|]. cbn [negb].
    rewrite IH. cbn [map foldr fold_left fst snd]. f_equal. lia.
Qed.

(** X14. The batch stops at the first failed game: the total counts the
    scores of the scenarios before it only, the failed scenario is
    recorded with -1, and no later scenario is played or recorded. *)
Theorem batch_stops_at_first_failure (played later : list (Z * Z)) (failed : Z) :
  Forall (fun game => game.2 <> -1) played ->
  run_scenarios (played ++ (failed, -1) :: later) 0 ∅
  = (foldr Z.add 0 (map snd played),
     <[failed := -1]> (fold_left (fun r game => <[game.1 := game.2]> r) played ∅)).
Proof.
  intros Hok. rewrite run_scenarios_app by done. reflexivity.
Qed.

Lemma batch_stops_at_first_failure_witness :
  run_scenarios ([(1, 812); (2, 930)] ++ (3, -1) :: [(4, 700)]) 0 ∅
  = (foldr Z.add 0 (map snd [(1, 812); (2, 930)]),
     <[3 := -1]> (fold_left (fun r game => <[game.1 := game.2]> r) [(1, 812); (2, 930)] ∅)).
Proof.
  apply (batch_stops_at_first_failure [(1, 812); (2, 930)] [(4, 700)] 3).
  repeat constructor; cbn; lia.
Defined.

End DriverFacts.

(** * Further properties of the strategy cache *)

Module CacheMore.
Import Cache CacheSpec CacheFacts.

(** ** Store and lookup *)

Section DictFacts.
Context {V : Type}.
Implicit Types (d : list (string * V)) (key : string).

Lemma dict_get_app_None key d (l : list (string * V)) :
  dict_get key d = None -> dict_get key (d ++ l) = dict_get key l.
Proof.
  unfold dict_get. induction d as [|[k v] d IH]; cbn; [done|].
  destruct (String.eqb k key); [done|]. exact IH.
Qed.

Lemma dict_get_app_Some key d (l : list (string * V)) v :
  dict_get key d = Some v -> dict_get key (d ++ l) = Some v.
Proof.
  unfold dict_get. induction d as [|[k x] d IH]; cbn; [done|].
  destruct (String.eqb k key); [done|]. exact IH.
Qed.

Lemma dict_get_replace key k (v : V) d :
  dict_get k (map (fun item => if String.eqb item.1 key then (key, v) else item) d)
  = if String.eqb k key then (fun _ => v) <$> dict_get k d else dict_get k d.
Proof.
  unfold dict_get. induction d as [|[k0 x] d IH]; cbn [map List.find fst].
  - by destruct (String.eqb k key).
  - destruct (String.eqb_spec k0 key) as [->|Hne]; cbn [fst].
    + destruct (String.eqb_spec key k) as [->|Hk].
      * by rewrite String.eqb_refl.
      * rewrite IH. destruct (String.eqb_spec k key); [congruence|done].
    + destruct (String.eqb_spec k0 k) as [->|Hk].
      * destruct (String.eqb_spec k key); [congruence|done].
      * exact IH.
Qed.

Lemma dict_get_set_eq key (v : V) d : dict_get key (dict_set key v d) = Some v.
Proof.
  unfold dict_set. destruct (dict_get key d) as [x|] eqn:E.
  - rewrite dict_get_replace, String.eqb_refl, E. done.
  - rewrite dict_get_app_None by done. unfold dict_get. cbn.
    by rewrite String.eqb_refl.
Qed.

Lemma dict_get_set_ne key k (v : V) d :
  k <> key -> dict_get k (dict_set key v d) = dict_get k d.
Proof.
  intros Hne. unfold dict_set. destruct (dict_get key d) as [x|] eqn:E.
  - rewrite dict_get_replace. by destruct (String.eqb_spec k key).
  - destruct (dict_get k d) as [y|] eqn:Ek.
    + by apply dict_get_app_Some.
    + rewrite dict_get_app_None by done. unfold dict_get. cbn.
      by destruct (String.eqb_spec key k); [congruence|].
Qed.

Lemma dict_get_Some_elem key d v : dict_get key d = Some v -> (key, v) ∈ d.
Proof.
  unfold dict_get. induction d as [|[k x] d IH]; cbn; [done|].
  destruct (String.eqb_spec k key) as [->|Hne]; cbn.
  - intros [= ->]. left.
  - intros H. right. by apply IH.
Qed.

Lemma dict_get_of_elem key d v :
  NoDup (map fst d) -> (key, v) ∈ d -> dict_get key d = Some v.
Proof.
  unfold dict_get. induction d as [|[k x] d IH]; cbn; intros Hnd Hin.
  - by apply elem_of_nil in Hin.
  - apply NoDup_cons in Hnd as [Hk Hnd].
    apply elem_of_cons in Hin as [Heq|Hin].
    + inversion Heq; subst. by rewrite String.eqb_refl.
    + destruct (String.eqb_spec k key) as [->|Hne]; [|by apply IH].
      exfalso. apply Hk. apply list_elem_of_In.
      change key with (key, v).1. apply in_map. by apply list_elem_of_In.
Qed.

End DictFacts.

(** X15. A strategy stored for a game state is served, as an exact match
    with similarity 1 and counted as a hit, by every lookup of the same
    state made less than 30 minutes after the store. *)
Theorem store_then_lookup (fingerprint : game_state -> string) (self : StrategyCache)
    (now : Z) (gs : game_state) (s : Player.json) (later : Z) :
  later - now < 30 * 60 * 1000000 ->
  let stored := cache_strategy fingerprint self now gs s in
  (get_cached_strategy fingerprint stored later gs).1
  = Some {| body := s;
            _cache_metadata :=
              {| cached_at := now; metadata_hash := fingerprint gs;
                 original_game_state := gs; cache_version := "1.0";
                 match_type := Some "exact_match"%string;
                 served_similarity := Some 1%Q;
                 served_from_cache := true |} |}
  /\ hits (stats (get_cached_strategy fingerprint stored later gs).2) = hits (stats self) + 1.
Proof.
  intros Hfresh. cbv zeta. unfold cache_strategy, get_cached_strategy. cbn [cache stats].
  rewrite dict_get_set_eq. unfold _is_cache_valid, max_age_minutes. cbn [timestamp].
  destruct (Z.ltb_spec (later - now) (30 * 60 * 1000000)); [|lia].
  split; reflexivity.
Qed.

Lemma store_then_lookup_witness :
  (get_cached_strategy CacheSamples.sample_fingerprint CacheSamples.stored_once 1000000
     CacheSamples.none_young).1
  = Some {| body := Player.JObj [];
            _cache_metadata :=
              {| cached_at := 0; metadata_hash := "p101a100"%string;
                 original_game_state := CacheSamples.none_young; cache_version := "1.0";
                 match_type := Some "exact_match"%string;
                 served_similarity := Some 1%Q;
                 served_from_cache := true |} |}.
Proof.
  apply (store_then_lookup CacheSamples.sample_fingerprint init 0 CacheSamples.none_young
           (Player.JObj []) 1000000).
  lia.
Defined.

(** X16. A store into a cache below its capacity changes the entry of its
    own fingerprint only: every other fingerprint keeps its entry. *)
Theorem store_keeps_other_entries (fingerprint : game_state -> string)
    (self : StrategyCache) (now : Z) (gs : game_state) (s : Player.json) (key : string) :
  Z.of_nat (length (cache self)) < 1000 ->
  key <> fingerprint gs ->
  dict_get key (cache (cache_strategy fingerprint self now gs s)) = dict_get key (cache self).
Proof.
  intros Hroom Hne. unfold cache_strategy. cbn [cache].
  rewrite dict_get_set_ne by done. unfold max_cache_size.
  destruct (Z.leb_spec 1000 (Z.of_nat (length (cache self)))); [lia|done].
Qed.

Lemma store_keeps_other_entries_witness :
  dict_get "p101a100"
    (cache (cache_strategy CacheSamples.sample_fingerprint CacheSamples.stored_once 5
              CacheSamples.later_state (Player.JObj [])))
  = dict_get "p101a100" (cache CacheSamples.stored_once).
Proof. apply store_keeps_other_entries; [reflexivity|vm_compute; discriminate]. Defined.

(** ** What a lookup serves and what it changes *)

Lemma served_entry (fingerprint : game_state -> string) (self : StrategyCache) (now : Z)
    (gs : game_state) (served : enhanced_strategy) :
  (get_cached_strategy fingerprint self now gs).1 = Some served ->
  exists k e kind similarity,
    (k, e) ∈ cache self
    /\ _is_cache_valid now e = true
    /\ served = _add_cache_metadata (strategy e) kind similarity.
Proof.
  unfold get_cached_strategy. cbn [cache].
  assert (forall st,
            (similarity_phase {| cache := cache self; stats := st |} now gs).1 = Some served ->
            exists k e kind similarity,
              (k, e) ∈ cache self /\ _is_cache_valid now e = true
              /\ served = _add_cache_metadata (strategy e) kind similarity) as Hsim.
  { intros st. unfold similarity_phase. cbn [cache].
    destruct (best_scan_spec now gs (cache self) None 0)
      as [[Heq _]|(k & e & Heq & Hin & Hv & _)]; rewrite Heq; cbn; [done|].
    intros [= <-]. by exists k, e, "similarity_match"%string, (score gs e). }
  destruct (dict_get (fingerprint gs) (cache self)) as [c|] eqn:E; [|apply Hsim].
  destruct (_is_cache_valid now c) eqn:Hv; [|apply Hsim].
  cbn. intros [= <-].
  exists (fingerprint gs), c, "exact_match"%string, 1%Q.
  split; [by apply dict_get_Some_elem|done].
Qed.

(** X17. Whatever a lookup serves is the strategy of an entry of the cache
    that has not expired at the time of the lookup, with the state it was
    stored for. *)
Theorem served_from_valid_entry (fingerprint : game_state -> string) (self : StrategyCache)
    (now : Z) (gs : game_state) (served : enhanced_strategy) :
  (get_cached_strategy fingerprint self now gs).1 = Some served ->
  exists k e,
    (k, e) ∈ cache self
    /\ now - timestamp e < 30 * 60 * 1000000
    /\ body served = body (strategy e)
    /\ original_game_state (_cache_metadata served)
       = original_game_state (_cache_metadata (strategy e)).
Proof.
  intros Hserved.
  destruct (served_entry _ _ _ _ _ Hserved) as (k & e & kind & sim & Hin & Hv & ->).
  exists k, e. split; [done|]. split; [|done].
  unfold _is_cache_valid, max_age_minutes in Hv. lia.
Qed.

Lemma served_from_valid_entry_witness :
  exists k e,
    (k, e) ∈ cache CacheSamples.stored_once
    /\ 1000000 - timestamp e < 30 * 60 * 1000000
    /\ body CacheSamples.served_once = body (strategy e)
    /\ original_game_state (_cache_metadata CacheSamples.served_once)
       = original_game_state (_cache_metadata (strategy e)).
Proof.
  apply (served_from_valid_entry CacheSamples.sample_fingerprint CacheSamples.stored_once
           1000000 CacheSamples.none_young CacheSamples.served_once).
  reflexivity.
Defined.

(** X18. When every entry has expired, a lookup is a miss and counts as
    one, whatever the state asked for. *)
Theorem expired_cache_misses (fingerprint : game_state -> string) (self : StrategyCache)
    (now : Z) (gs : game_state) :
  (forall k e, (k, e) ∈ cache self -> 30 * 60 * 1000000 <= now - timestamp e) ->
  get_cached_strategy fingerprint self now gs
  = (None, {| cache := cache self;
              stats := count_miss (count_request (stats self)) |}).
Proof.
  intros Hold.
  assert (forall k e, (k, e) ∈ cache self -> _is_cache_valid now e = false) as Hexp.
  { intros k e Hin. pose proof (Hold k e Hin). unfold _is_cache_valid, max_age_minutes.
    destruct (Z.ltb_spec (now - timestamp e) (30 * 60 * 1000000)); [lia|done]. }
  unfold get_cached_strategy. cbn [cache].
  assert (similarity_phase {| cache := cache self; stats := count_request (stats self) |} now gs
          = (None, {| cache := cache self;
                      stats := count_miss (count_request (stats self)) |})) as Hsim.
  { unfold similarity_phase. cbn [cache stats].
    destruct (best_scan_spec now gs (cache self) None 0)
      as [[Heq _]|(k & e & Heq & Hin & Hv & _)]; rewrite Heq; [done|].
    rewrite (Hexp k e Hin) in Hv. done. }
  destruct (dict_get (fingerprint gs) (cache self)) as [c|] eqn:E; [|exact Hsim].
  by rewrite (Hexp _ _ (dict_get_Some_elem _ _ _ E)).
Qed.

Lemma expired_cache_misses_witness :
  get_cached_strategy CacheSamples.sample_fingerprint CacheSamples.stored_once
    (31 * 60 * 1000000) CacheSamples.none_young
  = (None, {| cache := cache CacheSamples.stored_once;
              stats := count_miss (count_request (stats CacheSamples.stored_once)) |}).
Proof.
  apply expired_cache_misses. intros k e Hin.
  apply list_elem_of_singleton in Hin. inversion Hin; subst. cbn. lia.
Defined.

Lemma Forall2_map_same {A : Type} (R : A -> A -> Prop) (f : A -> A) (l : list A) :
  (forall x, x ∈ l -> R x (f x)) -> Forall2 R l (map f l).
Proof.
  induction l as [|x l IH]; intros H; cbn; constructor.
  - apply H. left.
  - apply IH. intros y Hy. apply H. by right.
Qed.

Lemma same_but_hits_refl (item : string * CachedStrategy) : same_but_hits item item.
Proof. unfold same_but_hits. repeat split; auto. Qed.

Lemma serve_same_but_hits (self : StrategyCache) key c kind similarity :
  NoDup (map fst (cache self)) ->
  (key, c) ∈ cache self ->
  Forall2 same_but_hits (cache self) (cache (serve self key c kind similarity).2).
Proof.
  intros Hnd Hin. unfold serve. cbn [snd cache]. unfold dict_set.
  rewrite (dict_get_of_elem key (cache self) c Hnd Hin).
  apply Forall2_map_same. intros [k e] Hitem. cbn [fst].
  destruct (String.eqb_spec k key) as [->|Hne]; [|apply same_but_hits_refl].
  pose proof (dict_get_of_elem key (cache self) e Hnd Hitem) as He.
  rewrite (dict_get_of_elem key (cache self) c Hnd Hin) in He. inversion He; subst.
  unfold same_but_hits. cbn. repeat split; auto.
Qed.

(** X19. A lookup removes, adds and reorders nothing, and of an entry it
    changes only the hit count, by one, and the notes of the hit: the
    timestamp stays, so hits do not prolong the life of an entry. *)
Theorem lookup_changes_hits_only (fingerprint : game_state -> string)
    (self : StrategyCache) (now : Z) (gs : game_state) :
  NoDup (map fst (cache self)) ->
  Forall2 same_but_hits (cache self) (cache (get_cached_strategy fingerprint self now gs).2).
Proof.
  intros Hnd. unfold get_cached_strategy. cbn [cache].
  assert (forall st,
            Forall2 same_but_hits (cache self)
              (cache (similarity_phase {| cache := cache self; stats := st |} now gs).2))
    as Hsim.
  { intros st. unfold similarity_phase. cbn [cache].
    destruct (best_scan_spec now gs (cache self) None 0)
      as [[Heq _]|(k & e & Heq & Hin & _)]; rewrite Heq.
    - cbn. clear. induction (cache self); constructor; [apply same_but_hits_refl|done].
    - by apply (serve_same_but_hits {| cache := cache self; stats := st |}). }
  destruct (dict_get (fingerprint gs) (cache self)) as [c|] eqn:E; [|apply Hsim].
  destruct (_is_cache_valid now c); [|apply Hsim].
  apply (serve_same_but_hits {| cache := cache self; stats := _ |}); [done|].
  by apply dict_get_Some_elem.
Qed.

Lemma lookup_changes_hits_only_witness :
  Forall2 same_but_hits (cache CacheSamples.stored_once)
    (cache (get_cached_strategy CacheSamples.sample_fingerprint CacheSamples.stored_once
              1000000 CacheSamples.none_young).2).
Proof.
  apply lookup_changes_hits_only. cbn. apply NoDup_singleton.
Defined.

(** ** The counters *)

Lemma lookup_counters (fingerprint : game_state -> string) (self : StrategyCache) (now : Z)
    (gs : game_state) :
  let after := (get_cached_strategy fingerprint self now gs).2 in
  total_requests (stats after) = total_requests (stats self) + 1
  /\ cache_size (stats after) = cache_size (stats self)
  /\ hits (stats after) + misses (stats after) = hits (stats self) + misses (stats self) + 1
  /\ hits (stats self) <= hits (stats after)
  /\ misses (stats self) <= misses (stats after).
Proof.
  cbv zeta. unfold get_cached_strategy. cbn [cache].
  assert (forall st,
            let after := (similarity_phase {| cache := cache self; stats := st |} now gs).2 in
            total_requests (stats after) = total_requests st
            /\ cache_size (stats after) = cache_size st
            /\ hits (stats after) + misses (stats after) = hits st + misses st + 1
            /\ hits st <= hits (stats after)
            /\ misses st <= misses (stats after)) as Hsim.
  { intros st. cbv zeta. unfold similarity_phase. cbn [cache stats].
    destruct (best_scan now gs (cache self) None 0) as [[[k e]|] sim]; cbn; lia. }
  destruct (dict_get (fingerprint gs) (cache self)) as [c|].
  - destruct (_is_cache_valid now c).
    + cbn. lia.
    + destruct (Hsim (count_request (stats self))) as (? & ? & ? & ? & ?). cbn in *. lia.
  - destruct (Hsim (count_request (stats self))) as (? & ? & ? & ? & ?). cbn in *. lia.
Qed.

Lemma after_cache_calls_snoc (fingerprint : game_state -> string) (self : StrategyCache)
    (calls : list cache_call) (c : cache_call) :
  after_cache_calls fingerprint self (calls ++ [c])
  = run_cache_call fingerprint (after_cache_calls fingerprint self calls) c.
Proof. unfold after_cache_calls. by rewrite fold_left_app. Qed.

Lemma counters_invariant (fingerprint : game_state -> string) (calls : list cache_call) :
  let c := after_cache_calls fingerprint init calls in
  hits (stats c) + misses (stats c) = total_requests (stats c)
  /\ total_requests (stats c) = Z.of_nat (length (List.filter is_lookup calls))
  /\ 0 <= hits (stats c) /\ 0 <= misses (stats c)
  /\ cache_size (stats c) = Z.of_nat (length (cache c)).
Proof.
  cbv zeta. induction calls as [|call calls IH] using rev_ind.
  - cbn. lia.
  - rewrite after_cache_calls_snoc, List.filter_app, length_app.
    destruct IH as (Hsum & Htotal & Hh & Hm & Hsize).
    destruct call as [now gs s|now gs]; cbn [run_cache_call List.filter is_lookup length].
    + unfold cache_strategy. cbn [stats hits misses total_requests cache_size cache].
      repeat split; try lia.
    + pose proof (lookup_counters fingerprint
                    (after_cache_calls fingerprint init calls) now gs) as Hl.
      cbv zeta in Hl. destruct Hl as (Ht & Hs & Hhm & Hh' & Hm').
      pose proof (f_equal (@length string)
                    (get_cached_strategy_keys fingerprint
                       (after_cache_calls fingerprint init calls) now gs)) as Hlen.
      rewrite !length_map in Hlen.
      repeat split; try lia.
Qed.

(** X20. From the empty cache, after any run of stores and lookups, every
    lookup is counted once as a request and once as either a hit or a
    miss, and [cache_size] is the number of entries. *)
Theorem counters_add_up (fingerprint : game_state -> string) (calls : list cache_call) :
  let c := after_cache_calls fingerprint init calls in
  hits (stats c) + misses (stats c) = total_requests (stats c)
  /\ total_requests (stats c) = Z.of_nat (length (List.filter is_lookup calls))
  /\ cache_size (stats c) = Z.of_nat (length (cache c)).
Proof.
  cbv zeta. destruct (counters_invariant fingerprint calls) as (H1 & H2 & _ & _ & H3).
  by repeat split.
Qed.

(** X21. The hit rate of the statistics is computed without a division by
    zero, also before the first request, and lies between 0 and 100. *)
Theorem hit_rate_range (fingerprint : game_state -> string) (calls : list cache_call) :
  exists r,
    hit_rate (after_cache_calls fingerprint init calls) = Ok r
    /\ (0 <= r)%Q /\ (r <= 100)%Q.
Proof.
  destruct (counters_invariant fingerprint calls) as (Hsum & _ & Hh & Hm & _).
  unfold hit_rate. rewrite PlayerFacts.truediv_nonzero by lia.
  cbn [mbind result_bind mret result_ret]. eexists. split; [reflexivity|].
  destruct (PlayerMore.ratio_range
              (hits (stats (after_cache_calls fingerprint init calls)))
              (Z.max 1 (total_requests (stats (after_cache_calls fingerprint init calls)))))
    as [Hlo Hhi]; [lia|lia|].
  split; lra.
Qed.

(** ** More on the similarity of two states *)

Lemma constraint_targets_view (cs cs' : list constraint) :
  map (fun c => (attribute c, default 0 (minCount c))) cs
  = map (fun c => (attribute c, default 0 (minCount c))) cs' ->
  constraint_targets cs = constraint_targets cs'.
Proof.
  unfold constraint_targets. generalize (∅ : gmap string Z).
  revert cs'. induction cs as [|c cs IH]; intros [|c' cs'] m Heq; try done.
  cbn in Heq. inversion Heq as [[Ha Hm Hrest]].
  cbn [fold_left]. rewrite Ha, Hm. by apply IH.
Qed.

(** X23. The similarity reads of a state only the person index, the
    accepted count and the target of each attribute: two states that agree
    on these, whatever their admitted counts and observed frequencies, are
    equally similar to every state. *)
Theorem similarity_ignores_progress (s s' other : game_state) :
  default 0 (current_person s) = default 0 (current_person s') ->
  default 0 (accepted_count s) = default 0 (accepted_count s') ->
  map (fun c => (attribute c, default 0 (minCount c))) (constraints s)
  = map (fun c => (attribute c, default 0 (minCount c))) (constraints s') ->
  _calculate_similarity s other = _calculate_similarity s' other.
Proof.
  intros Hp Ha Hc. unfold _calculate_similarity.
  by rewrite Hp, Ha, (constraint_targets_view _ _ Hc).
Qed.

Lemma similarity_ignores_progress_witness :
  _calculate_similarity CacheSamples.none_young CacheSamples.later_state
  = _calculate_similarity CacheSamples.all_young CacheSamples.later_state.
Proof. apply similarity_ignores_progress; reflexivity. Defined.

Lemma close_ratio (d scale bound : Z) (c : Q) :
  0 < scale ->
  (0 < c)%Q ->
  (c <= Qmax 0 (1 - inject_Z d / inject_Z scale))%Q ->
  (inject_Z d <= (1 - c) * inject_Z scale)%Q.
Proof.
  intros Hs Hc Hle.
  assert (0 < inject_Z scale)%Q as Hq by (unfold Qlt; cbn; lia).
  apply Q.max_le_iff in Hle as [Hle|Hle]; [lra|].
  assert (inject_Z d / inject_Z scale <= 1 - c)%Q as Hr by lra.
  apply (Qmult_le_compat_r _ _ (inject_Z scale)) in Hr; [|lra].
  unfold Qdiv in Hr. rewrite <- Qmult_assoc, (Qmult_comm (/ _)), Qmult_inv_r in Hr by lra.
  lra.
Qed.

(** X24. Two states whose similarity reaches the threshold 0.85 are at
    most 37 persons and 25 accepted candidates apart; no similarity hit
    is served across a larger distance. *)
Theorem similar_states_are_close (s1 s2 : game_state) :
  (85 # 100 <= _calculate_similarity s1 s2)%Q ->
  Z.abs (default 0 (current_person s1) - default 0 (current_person s2)) <= 37
  /\ Z.abs (default 0 (accepted_count s1) - default 0 (accepted_count s2)) <= 25.
Proof.
  intros Hsim. rewrite similarity_unfold in Hsim. unfold similarity_by_target in Hsim.
  pose proof (constraintSim_range (constraint_targets (constraints s1))
                                  (constraint_targets (constraints s2))) as Hc.
  pose proof (closeness_range (default 0 (current_person s1)
                               - default 0 (current_person s2)) 100 eq_refl) as Hp.
  pose proof (closeness_range (default 0 (accepted_count s1)
                               - default 0 (accepted_count s2)) 50 eq_refl) as Ha.
  fold (personSim s1 s2) in Hp. fold (acceptSim s1 s2) in Ha.
  assert (625 # 1000 <= personSim s1 s2)%Q as Hp' by lra.
  assert (1 # 2 <= acceptSim s1 s2)%Q as Ha' by lra.
  apply (close_ratio _ 100 0) in Hp'; [|lia|reflexivity].
  apply (close_ratio _ 50 0) in Ha'; [|lia|reflexivity].
  unfold Qle in Hp', Ha'. cbn in Hp', Ha'. lia.
Qed.

Lemma similar_states_are_close_witness :
  Z.abs (default 0 (current_person CacheSamples.none_young)
         - default 0 (current_person CacheSamples.near_state)) <= 37
  /\ Z.abs (default 0 (accepted_count CacheSamples.none_young)
            - default 0 (accepted_count CacheSamples.near_state)) <= 25.
Proof.
  apply similar_states_are_close. vm_compute. discriminate.
Defined.

End CacheMore.

(** * Properties of the advisor *)

Module AgentFacts.
Import Player Agent.

(** ** The token bucket *)

Lemma refill_range (self : TokenBucket) (now : Q) :
  0 <= capacity self ->
  (0 <= rate self)%Q ->
  (last_refill self <= now)%Q ->
  (0 <= tokens self)%Q ->
  (0 <= tokens (_refill self now))%Q
  /\ (tokens (_refill self now) <= inject_Z (capacity self))%Q
  /\ (tokens (_refill self now) <= tokens self + rate self * (now - last_refill self))%Q.
Proof.
  intros Hcap Hrate Hnow Htok. cbn [_refill tokens].
  assert (0 <= inject_Z (capacity self))%Q as Hc by (unfold Qle; cbn; lia).
  assert (0 <= (now - last_refill self) * rate self)%Q as Hnew
    by (apply Qmult_le_0_compat; lra).
  split; [apply Q.min_glb; lra|].
  split; [apply Q.le_min_l|].
  eapply Qle_trans; [apply Q.le_min_r|]. lra.
Qed.

Lemma acquire_all_bound (times : list Q) (self : TokenBucket) :
  0 <= capacity self ->
  (0 <= rate self)%Q ->
  (0 <= tokens self)%Q ->
  Sorted Qle (last_refill self :: times) ->
  let after := (acquire_all self times).2 in
  let granted := (acquire_all self times).1 in
  capacity after = capacity self
  /\ rate after = rate self
  /\ (0 <= tokens after)%Q
  /\ (times <> [] -> tokens after <= inject_Z (capacity self))%Q
  /\ (last_refill self <= last_refill after)%Q
  /\ (inject_Z (Z.of_nat granted) + tokens after
      <= tokens self + rate self * (last_refill after - last_refill self))%Q.
Proof.
  revert self. induction times as [|now rest IH]; intros self Hcap Hrate Htok Hsorted.
  { cbv zeta. cbn [acquire_all fst snd Z.of_nat].
    repeat split; try done; [apply Qle_refl|].
    assert (rate self * (last_refill self - last_refill self) == 0)%Q as Hz by ring.
    rewrite Hz. change (inject_Z (Z.of_nat 0)) with 0%Q. lra. }
  apply Sorted_inv in Hsorted as [Hrest Hhd]. apply HdRel_inv in Hhd.
  destruct (refill_range self now Hcap Hrate Hhd Htok) as (Hr0 & Hrc & Hrt).
  cbn [acquire_all]. unfold acquire.
  assert (capacity (_refill self now) = capacity self) as Hrcap by reflexivity.
  assert (rate (_refill self now) = rate self) as Hrrate by reflexivity.
  assert (last_refill (_refill self now) = now) as Hrlast by reflexivity.
  set (r := _refill self now) in *. clearbody r.
  destruct (Qle_bool 1 (tokens r)) eqn:Hgrant.
  - apply Qle_bool_iff in Hgrant.
    set (self1 := {| capacity := capacity r; rate := rate r;
                     tokens := (tokens r - 1)%Q; last_refill := last_refill r |}).
    specialize (IH self1).
    destruct (acquire_all self1 rest) as [n after] eqn:Hrun.
    cbv zeta in IH |- *. cbn [fst snd] in IH |- *.
    unfold self1 in IH. cbn [capacity rate tokens last_refill] in IH.
    rewrite Hrcap, Hrrate, Hrlast in IH.
    assert (0 <= tokens r - 1)%Q as Hleft by (clear - Hgrant; lra).
    destruct IH as (Hc' & Hr' & Ht0 & Htc & Hl & Hb); [done|done|done|done|].
    split; [done|]. split; [done|]. split; [done|]. split; [|split].
    + intros _. destruct rest as [|t rest'].
      * cbn in Hrun. inversion Hrun. unfold self1. cbn [tokens]. lra.
      * by apply Htc.
    + lra.
    + rewrite Nat2Z.inj_succ, <- Z.add_1_r, inject_Z_plus.
      change (inject_Z 1) with 1%Q.
      assert (rate self * (last_refill after - last_refill self)
              == rate self * (last_refill after - now)
                 + rate self * (now - last_refill self))%Q as Hsplit by ring.
      rewrite Hsplit. lra.
  - specialize (IH r).
    destruct (acquire_all r rest) as [n after] eqn:Hrun.
    cbv zeta in IH |- *. cbn [fst snd] in IH |- *.
    rewrite Hrcap, Hrrate, Hrlast in IH.
    destruct IH as (Hc' & Hr' & Ht0 & Htc & Hl & Hb); [done|done|done|done|].
    split; [done|]. split; [done|]. split; [done|]. split; [|split].
    + intros _. destruct rest as [|t rest'].
      * cbn in Hrun. inversion Hrun. by subst.
      * by apply Htc.
    + lra.
    + assert (rate self * (last_refill after - last_refill self)
              == rate self * (last_refill after - now)
                 + rate self * (now - last_refill self))%Q as Hsplit by ring.
      rewrite Hsplit. lra.
Qed.

(** X25. While the clock does not run backwards, the tokens of a bucket
    never become negative and after a call never exceed the capacity. *)
Theorem bucket_tokens_in_range (capacity : Z) (rate : Q) (start : Q) (times : list Q) :
  0 <= capacity ->
  (0 <= rate)%Q ->
  Sorted Qle (start :: times) ->
  let after := (acquire_all (new_bucket capacity rate start) times).2 in
  (0 <= tokens after)%Q /\ (tokens after <= inject_Z capacity)%Q.
Proof.
  intros Hcap Hrate Hsorted. cbv zeta.
  destruct (acquire_all_bound times (new_bucket capacity rate start))
    as (_ & _ & Ht0 & Htc & _); try done.
  { cbn. unfold Qle. cbn. lia. }
  split; [done|]. destruct times as [|t rest]; [cbn; lra|].
  by apply Htc.
Qed.

Lemma bucket_tokens_in_range_witness :
  (0 <= tokens (acquire_all (token_bucket 0) AgentSamples.burst).2)%Q
  /\ (tokens (acquire_all (token_bucket 0) AgentSamples.burst).2 <= inject_Z 200)%Q.
Proof.
  apply (bucket_tokens_in_range 200 (1 # 6) 0 AgentSamples.burst); [lia|by vm_compute|].
  repeat constructor; by vm_compute.
Defined.



(** ** The complexity score *)

Lemma fold_left_keeps {A B : Type} (P : A -> Prop) (f : A -> B -> A) (l : list B) (a : A) :
  P a -> (forall a b, P a -> P (f a b)) -> P (fold_left f l a).
Proof.
  intros Ha Hf. revert a Ha. induction l as [|b l IH]; intros a Ha; [done|].
  cbn. apply IH. by apply Hf.
Qed.

Lemma fold_left_max_ge (l : list Z) (x : Z) : x <= fold_left Z.max l x.
Proof.
  revert x. induction l as [|y l IH]; intros x; cbn; [lia|].
  pose proof (IH (Z.max x y)). lia.
Qed.

Lemma correlation_complexity_nonneg (ctx : context) : (0 <= correlation_complexity ctx)%Q.
Proof.
  unfold correlation_complexity.
  apply (fold_left_keeps (fun acc => 0 <= acc)%Q); [lra|].
  intros acc item Hacc.
  apply (fold_left_keeps (fun acc => 0 <= acc)%Q); [done|].
  intros a inner Ha. destruct (negb _); [|done].
  apply Q.min_glb; lra.
Qed.

Lemma scaled_nonneg (z scale : Z) : 0 <= z -> 0 < scale -> (0 <= inject_Z z / inject_Z scale)%Q.
Proof.
  intros Hz Hs. apply Qle_shift_div_l; [unfold Qlt; cbn; lia|].
  rewrite Qmult_0_l. unfold Qle. cbn. lia.
Qed.

(** X27. For a person index that is not negative, the complexity score
    lies between 0 and 1. *)
Theorem complexity_score_range (ctx : context) :
  0 <= default 1 (current_person ctx) ->
  (0 <= _calculate_complexity_score ctx)%Q /\ (_calculate_complexity_score ctx <= 1)%Q.
Proof.
  intros Hp. unfold _calculate_complexity_score. cbv zeta.
  split; [|apply Q.le_min_l].
  pose proof (correlation_complexity_nonneg ctx) as Hcorr.
  pose proof (scaled_nonneg _ 500 Hp eq_refl) as Hphase.
  change (inject_Z 500) with 500%Q in Hphase.
  assert (0 <= Qmin 1 (inject_Z (default 1%Z (current_person ctx)) / 500))%Q as Hmin
    by (apply Q.min_glb; [lra|exact Hphase]).
  apply Q.min_glb; [lra|].
  destruct (constraints ctx) as [|c cs]; [lra|].
  set (deficits := map _ (c :: cs)).
  assert (0 <= max_default 0 deficits) as Hmax.
  { unfold deficits. cbn [map max_default].
    pose proof (fold_left_max_ge
                  (map (fun c => Z.max 0 (minCount c - admitted_of ctx (attribute c))) cs)
                  (Z.max 0 (minCount c - admitted_of ctx (attribute c)))). lia. }
  pose proof (scaled_nonneg _ 300 Hmax eq_refl) as Hdef.
  change (inject_Z 300) with 300%Q in Hdef.
  assert (0 <= Qmin 1 (inject_Z (max_default 0 deficits) / 300))%Q as Hmin'
    by (apply Q.min_glb; [lra|exact Hdef]).
  lra.
Qed.

Lemma complexity_score_range_witness :
  (0 <= _calculate_complexity_score AgentSamples.mid_game)%Q
  /\ (_calculate_complexity_score AgentSamples.mid_game <= 1)%Q.
Proof. apply complexity_score_range. by vm_compute. Defined.

(** ** The game-theory strategy *)

Lemma correlation_weight_ge_1 (ctx : context) : (1 <= correlation_weight ctx)%Q.
Proof.
  unfold correlation_weight.
  apply (fold_left_keeps (fun w => 1 <= w)%Q); [lra|].
  intros w attr Hw.
  apply (fold_left_keeps (fun w => 1 <= w)%Q); [done|].
  intros a inner Ha. destruct (negb _); lra.
Qed.

Lemma leniency_bound (ctx : context) :
  (45 # 100 <= effective_base_leniency (game_theory_strategy ctx))%Q.
Proof.
  unfold effective_base_leniency, early_of, game_theory_strategy. cbn.
  pose proof (correlation_weight_ge_1 ctx) as Hw.
  destruct (negb _); lra.
Qed.

(** X28. Whatever the context, the strategy the game theory computes is
    Hybrid with switch point 400 or 300, a base leniency of at least 0.45,
    scaling factor 0.35, a base threshold of at least 0.35 and buffer 0.1;
    for a person index from 0 to 1000 the base threshold is
    [(0.8 - 0.1 * index / 1000) * 0.6], between 0.42 and 0.48, so the
    floor of 0.35 is not reached during a game. *)
Theorem game_theory_strategy_bounds (ctx : context) :
  let s := game_theory_strategy ctx in
  effective_policy_type s = "Hybrid"%string
  /\ (effective_switch_point s = 400 \/ effective_switch_point s = 300)
  /\ (45 # 100 <= effective_base_leniency s)%Q
  /\ effective_scaling_factor s = (35 # 100)%Q
  /\ (35 # 100 <= effective_base_threshold s)%Q
  /\ effective_buffer_percent s = (1 # 10)%Q
  /\ (0 <= default 1 (current_person ctx) <= 1000 ->
      (effective_base_threshold s
       == ((80 # 100) - (1 # 10) * (inject_Z (default 1%Z (current_person ctx)) / 1000))
          * (6 # 10))%Q
      /\ (42 # 100 <= effective_base_threshold s)%Q
      /\ (effective_base_threshold s <= 48 # 100)%Q).
Proof.
  cbv zeta. split; [reflexivity|]. split.
  { unfold effective_switch_point, game_theory_strategy. cbn.
    destruct (default 1 (current_person ctx) <? 500); auto. }
  split; [apply leniency_bound|]. split; [reflexivity|].
  split; [unfold effective_base_threshold, late_of, game_theory_strategy; cbn;
          apply Q.le_max_l|].
  split; [reflexivity|].
  intros [Hlo Hhi].
  unfold effective_base_threshold, late_of, game_theory_strategy. cbn [default late_params
    base_threshold]. unfold venue_capacity.
  set (p := default 1 (current_person ctx)) in *.
  assert (0 <= inject_Z p / 1000)%Q as Hp0 by (by apply (scaled_nonneg p 1000)).
  assert (inject_Z p / 1000 <= 1)%Q as Hp1.
  { apply Qle_shift_div_r; [reflexivity|]. rewrite Qmult_1_l.
    change 1000%Q with (inject_Z 1000). by rewrite <- Zle_Qle. }
  change (inject_Z 1000) with 1000%Q.
  set (x := (inject_Z p / 1000)%Q) in *.
  assert (35 # 100 <= ((80 # 100) - (1 # 10) * x) * (6 # 10))%Q as Habove by lra.
  assert (Qmax (35 # 100) (((80 # 100) - (1 # 10) * x) * (6 # 10))
          == ((80 # 100) - (1 # 10) * x) * (6 # 10))%Q as Hmax
    by (apply Q.max_r; exact Habove).
  split; [exact Hmax|]. split.
  - apply Q.max_le_iff. right. fold x. lra.
  - apply Q.max_lub; [lra|]. fold x. lra.
Qed.

(** X29. A policy playing under a strategy the game theory computed has an
    admission bar of at least 0.45: the early-phase rule applies with a
    positive bar. *)
Theorem advised_bar_is_positive (policy : BouncerPolicy) (ctx : context) :
  strategy policy = game_theory_strategy ctx ->
  0 <= slots_filled policy ->
  (45 # 100 <= dynamic_threshold policy)%Q.
Proof.
  intros Hs Hfilled. unfold dynamic_threshold. cbv zeta.
  fold (effective_base_leniency (strategy policy)).
  fold (effective_scaling_factor (strategy policy)).
  rewrite Hs.
  pose proof (leniency_bound ctx) as Hl.
  assert (effective_scaling_factor (game_theory_strategy ctx) = (35 # 100)%Q) as ->
    by reflexivity.
  pose proof (scaled_nonneg (slots_filled policy) 1000 Hfilled eq_refl) as Hf.
  change (inject_Z 1000) with 1000%Q in Hf. lra.
Qed.

Lemma advised_bar_is_positive_witness :
  (45 # 100 <= dynamic_threshold AgentSamples.advised_policy)%Q.
Proof.
  apply (advised_bar_is_positive AgentSamples.advised_policy AgentSamples.mid_game).
  - reflexivity.
  - by vm_compute.
Defined.

(** ** The state handed to the cache *)



End AgentFacts.

(** * Binary64: the order and the quotient of two ints *)

Module B64Facts.
Import B64.

Ltac order_cases :=
  repeat match goal with
         | |- context [Z.compare ?a ?b] => destruct (Z.compare_spec a b)
         | |- context [Pos.compare_cont Eq ?a ?b] =>
             change (Pos.compare_cont Eq a b) with (a ?= b)%positive;
             destruct (Pos.compare_spec a b)
         end;
  cbn; split; intros; try discriminate; try reflexivity; try lia.

Lemma lt_key (x y : float) : lt x y = true <-> key_rel key_lt x y.
Proof.
  unfold lt, SFltb, key_rel, key_lt.
  destruct x as [[]|[]| |[] mx ex], y as [[]|[]| |[] my ey]; cbn; order_cases.
Qed.

Lemma le_key (x y : float) :
  le x y = true <-> key_rel (fun a b => key_lt a b \/ a = b) x y.
Proof.
  unfold le, SFleb, key_rel, key_lt.
  destruct x as [[]|[]| |[] mx ex], y as [[]|[]| |[] my ey]; cbn; order_cases.
  all: try (right; repeat f_equal; lia).
  all: try (left; lia).
  all: try (match goal with H : _ \/ _ |- _ => destruct H as [H|H]; [lia|inversion H; lia] end).
Qed.

Ltac by_keys :=
  intros; rewrite ?lt_key, ?le_key in *; unfold key_rel, key_lt in *;
  repeat match goal with
         | |- context [key ?x] => destruct (key x) as [[? [? ?]]|]
         | H : context [key ?x] |- _ => destruct (key x) as [[? [? ?]]|]
         end;
  cbn in *; unfold not in *; intros;
  repeat match goal with
         | H : _ \/ (_, _) = (_, _) |- _ => destruct H as [H|H]; [|inversion H; subst; clear H]
         end;
  try tauto; try lia; try (right; repeat f_equal; lia).

Lemma lt_le (x y : float) : lt x y = true -> le x y = true.
Proof. by_keys. Qed.

Lemma le_trans (x y z : float) : le x y = true -> le y z = true -> le x z = true.
Proof. by_keys. Qed.

Lemma lt_trans (x y z : float) : lt x y = true -> lt y z = true -> lt x z = true.
Proof. by_keys. Qed.

Lemma le_lt_trans (x y z : float) : le x y = true -> lt y z = true -> lt x z = true.
Proof. by_keys. Qed.

Lemma lt_le_trans (x y z : float) : lt x y = true -> le y z = true -> lt x z = true.
Proof. by_keys. Qed.

Lemma lt_asym (x y : float) : lt x y = true -> lt y x = false.
Proof. intros H. apply not_true_iff_false. revert H. by_keys. Qed.

Lemma not_lt_le (x y : float) :
  x <> S754_nan -> y <> S754_nan -> lt x y = false -> le y x = true.
Proof.
  intros Hx Hy H. apply not_true_iff_false in H.
  rewrite lt_key in H. rewrite le_key. unfold key_rel, key_lt in *.
  destruct x as [[]|[]| |[] mx ex]; try done; destruct y as [[]|[]| |[] my ey]; try done;
    clear Hx Hy; cbn in *; try (right; reflexivity); try (left; lia); try (exfalso; apply H; lia).
  - destruct (Z.lt_trichotomy ex ey) as [?|[?|?]];
      destruct (Z.lt_trichotomy (Z.pos mx) (Z.pos my)) as [?|[E|?]];
      try (exfalso; apply H; lia); try (left; lia).
    right. inversion E. by subst.
  - destruct (Z.lt_trichotomy ex ey) as [?|[?|?]];
      destruct (Z.lt_trichotomy (Z.pos mx) (Z.pos my)) as [?|[E|?]];
      try (exfalso; apply H; lia); try (left; lia).
    right. inversion E. by subst.
Qed.

(** *** Digits *)

Lemma digits2_pos_size (p : positive) : digits2_pos p = Pos.size p.
Proof. induction p as [p IH|p IH|]; cbn; by rewrite ?IH. Qed.

Lemma Zdigits2_log2 (m : Z) : 0 < m -> Zdigits2 m = Z.log2 m + 1.
Proof.
  destruct m as [|p|p]; [lia| |lia]. intros _. cbn [Zdigits2].
  rewrite digits2_pos_size. destruct p; cbn; lia.
Qed.

Lemma Zdigits2_nonneg (m : Z) : 0 <= Zdigits2 m.
Proof. destruct m; cbn; lia. Qed.

Lemma Zdigits2_mono (a b : Z) : 0 <= a <= b -> Zdigits2 a <= Zdigits2 b.
Proof.
  intros [Ha Hab]. destruct (Z.eq_dec a 0) as [->|Hne]; [apply Zdigits2_nonneg|].
  rewrite !Zdigits2_log2 by lia. pose proof (Z.log2_le_mono a b Hab). lia.
Qed.

Lemma Zdigits2_shiftl (m n : Z) : 0 < m -> 0 <= n -> Zdigits2 (Z.shiftl m n) = Zdigits2 m + n.
Proof.
  intros Hm Hn.
  assert (0 < Z.shiftl m n) as Hpos.
  { rewrite Z.shiftl_mul_pow2 by done. apply Z.mul_pos_pos; [done|]. by apply Z.pow_pos_nonneg. }
  rewrite !Zdigits2_log2 by done. rewrite Z.log2_shiftl by done. lia.
Qed.

Lemma Zdigits2_shiftr (m n : Z) :
  0 <= m -> 0 <= n -> Zdigits2 (Z.shiftr m n) <= Z.max 0 (Zdigits2 m - n).
Proof.
  intros Hm Hn.
  assert (0 <= Z.shiftr m n) as Hr by (by apply Z.shiftr_nonneg).
  destruct (Z.eq_dec (Z.shiftr m n) 0) as [->|Hne]; [cbn; lia|].
  assert (0 < m) as Hpos.
  { destruct (Z.eq_dec m 0) as [->|]; [|lia]. by rewrite Z.shiftr_0_l in Hne. }
  rewrite !Zdigits2_log2 by lia. rewrite Z.log2_shiftr by done.
  assert (n <= Z.log2 m); [|lia].
  destruct (Z.le_gt_cases n (Z.log2 m)) as [|Hgt]; [done|].
  exfalso. apply Hne. apply Z.shiftr_eq_0; done.
Qed.

Lemma Zdigits2_succ (m : Z) : 0 <= m -> Zdigits2 (m + 1) <= Zdigits2 m + 1.
Proof.
  intros Hm. destruct (Z.eq_dec m 0) as [->|Hne]; [by vm_compute|].
  rewrite !Zdigits2_log2 by lia. pose proof (Z.log2_succ_le m). unfold Z.succ in *. lia.
Qed.

(** *** Rounding to the format *)

Lemma shr_1_spec (mrs : shr_record) :
  0 <= shr_m mrs -> shr_m (shr_1 mrs) = Z.shiftr (shr_m mrs) 1.
Proof.
  destruct mrs as [m r s]. cbn [shr_m]. intros Hm. rewrite <- Z.div2_spec.
  destruct m as [|[p|p|]|p]; cbn in *; try reflexivity; lia.
Qed.

Lemma iter_shr_1_spec (p : positive) (mrs : shr_record) :
  0 <= shr_m mrs -> shr_m (SpecFloat.iter_pos shr_1 p mrs) = Z.shiftr (shr_m mrs) (Zpos p).
Proof.
  revert mrs. induction p as [p IH|p IH|]; intros mrs Hm; cbn [SpecFloat.iter_pos].
  - assert (0 <= shr_m (shr_1 mrs)) as H1
        by (rewrite shr_1_spec by done; by apply Z.shiftr_nonneg).
    assert (0 <= shr_m (SpecFloat.iter_pos shr_1 p (shr_1 mrs))) as H2
        by (rewrite IH by done; by apply Z.shiftr_nonneg).
    rewrite IH, IH, shr_1_spec by done. rewrite !Z.shiftr_shiftr by lia. f_equal. lia.
  - assert (0 <= shr_m (SpecFloat.iter_pos shr_1 p mrs)) as H2
        by (rewrite IH by done; by apply Z.shiftr_nonneg).
    rewrite IH, IH by done. rewrite !Z.shiftr_shiftr by lia. f_equal. lia.
  - by apply shr_1_spec.
Qed.

Lemma shr_spec (mrs : shr_record) (e n : Z) :
  0 <= shr_m mrs ->
  shr_m (shr mrs e n).1 = Z.shiftr (shr_m mrs) (Z.max 0 n) /\ (shr mrs e n).2 = e + Z.max 0 n.
Proof.
  intros Hm. destruct n as [|p|p]; cbn [shr fst snd].
  - rewrite Z.shiftr_0_r. split; [done|lia].
  - rewrite iter_shr_1_spec by done. split; [f_equal|]; lia.
  - rewrite Z.max_l by lia. rewrite Z.shiftr_0_r. split; [done|lia].
Qed.

Lemma shr_fexp_spec (m e : Z) (l : location) :
  0 <= m ->
  let n := Z.max 0 (fexp prec emax (Zdigits2 m + e) - e) in
  shr_m (shr_fexp prec emax m e l).1 = Z.shiftr m n /\ (shr_fexp prec emax m e l).2 = e + n.
Proof.
  intros Hm n. unfold shr_fexp.
  assert (shr_m (shr_record_of_loc m l) = m) as Hrec by (by destruct l as [|[]]).
  pose proof (shr_spec (shr_record_of_loc m l) e (fexp prec emax (Zdigits2 m + e) - e)) as H.
  rewrite Hrec in H. by apply H.
Qed.

Lemma round_nearest_even_range (m : Z) (l : location) :
  m <= round_nearest_even m l <= m + 1.
Proof. destruct l as [|[]]; cbn; try destruct (Z.even m); lia. Qed.

(** A mantissa and an exponent below the largest finite number round to a
    finite number or to zero, of the sign given. *)
Lemma binary_round_aux_finite (s : bool) (m e : Z) (l : location) :
  0 <= m -> e <= emax - prec -> Zdigits2 m + e <= emax - 1 ->
  binary_round_aux prec emax s m e l = S754_zero s
  \/ exists m' e', binary_round_aux prec emax s m e l = S754_finite s m' e'.
Proof.
  intros Hm He Hd. unfold binary_round_aux.
  pose proof (shr_fexp_spec m e l Hm) as [Hm1 He1]. cbv zeta in Hm1, He1.
  destruct (shr_fexp prec emax m e l) as [mrs1 e1]. cbn [fst snd] in Hm1, He1.
  set (n1 := Z.max 0 (fexp prec emax (Zdigits2 m + e) - e)) in *.
  assert (0 <= shr_m mrs1) as Hm1' by (rewrite Hm1; apply Z.shiftr_nonneg; done).
  pose proof (round_nearest_even_range (shr_m mrs1) (loc_of_shr_record mrs1)) as Hr.
  set (mb := round_nearest_even (shr_m mrs1) (loc_of_shr_record mrs1)) in *.
  assert (0 <= mb) as Hmb by lia.
  pose proof (shr_fexp_spec mb e1 loc_Exact Hmb) as [Hm2 He2]. cbv zeta in Hm2, He2.
  destruct (shr_fexp prec emax mb e1 loc_Exact) as [mrs2 e2]. cbn [fst snd] in Hm2, He2.
  assert (0 <= shr_m mrs2) as Hm2' by (rewrite Hm2; apply Z.shiftr_nonneg; done).
  assert (Zdigits2 (shr_m mrs1) <= Z.max 0 (Zdigits2 m - n1)) as Hd1.
  { rewrite Hm1. apply Zdigits2_shiftr; [done|]. unfold n1. lia. }
  assert (Zdigits2 mb <= Zdigits2 (shr_m mrs1) + 1) as Hdb.
  { etrans; [apply (Zdigits2_mono mb (shr_m mrs1 + 1)); lia|]. by apply Zdigits2_succ. }
  assert (e2 <= emax - prec) as Hfin.
  { rewrite He2, He1. unfold n1, fexp, emin, emax, prec in *. lia. }
  destruct (shr_m mrs2) as [|p|p]; [by left| |lia].
  right. apply Z.leb_le in Hfin. rewrite Hfin. by eexists _, _.
Qed.

(** *** The quotient of two ints *)

Lemma in_range_digits (n : Z) : in_range n = true -> Zdigits2 (Z.abs n) <= emax - 1.
Proof.
  unfold in_range. intros H. apply Z.ltb_lt in H.
  destruct (Z.eq_dec n 0) as [->|Hne]; [by vm_compute|].
  rewrite Zdigits2_log2 by lia.
  apply Z.log2_lt_pow2 in H; [lia|lia].
Qed.

Lemma div_core_bounds (pa pb : positive) :
  Zdigits2 (Zpos pa) <= emax - 1 ->
  let '(mz, ez, lz) := SFdiv_core_binary prec emax (Zpos pa) 0 (Zpos pb) 0 in
  0 <= mz /\ ez <= emax - prec /\ Zdigits2 mz + ez <= emax - 1.
Proof.
  intros Hd. unfold SFdiv_core_binary.
  set (e' := Z.min (fexp prec emax (Zdigits2 (Zpos pa) + 0 - (Zdigits2 (Zpos pb) + 0))) (0 - 0)).
  assert (e' <= 0) as He' by (unfold e'; lia).
  set (m' := match 0 - 0 - e' with
             | 0 => Z.pos pa
             | Z.pos _ => Z.shiftl (Z.pos pa) (0 - 0 - e')
             | Z.neg _ => 0
             end).
  assert (m' = Z.shiftl (Zpos pa) (- e')) as Hm'.
  { unfold m'. replace (0 - 0 - e') with (- e') by lia.
    destruct (- e') eqn:E; [by rewrite Z.shiftl_0_r|done|lia]. }
  assert (0 < m') as Hpos.
  { rewrite Hm', Z.shiftl_mul_pow2 by lia. apply Z.mul_pos_pos; [done|].
    apply Z.pow_pos_nonneg; lia. }
  pose proof (Z_div_mod m' (Zpos pb) eq_refl) as Hdiv.
  destruct (Z.div_eucl m' (Zpos pb)) as [q r]. destruct Hdiv as [Heq Hr].
  assert (0 <= q) as Hq by nia.
  assert (q <= m') as Hle by nia.
  split; [done|]. split; [unfold emax, prec; lia|].
  pose proof (Zdigits2_mono q m' (conj Hq Hle)) as Hmono.
  rewrite Hm', Zdigits2_shiftl in Hmono by lia. lia.
Qed.

(** The quotient of an int in range by a nonzero int is zero or finite, and
    has the sign of the fraction. *)
Lemma quotient_cases (a b : Z) :
  in_range a = true -> b <> 0 ->
  quotient a b = S754_zero (sign_of a b)
  \/ exists m e, quotient a b = S754_finite (sign_of a b) m e.
Proof.
  intros Ha Hb. apply in_range_digits in Ha. unfold quotient, sign_of.
  destruct a as [|pa|pa], b as [|pb|pb]; try done; cbn [of_int SFdiv Z.ltb Z.compare Z.abs] in *;
    try (by left).
  all: pose proof (div_core_bounds pa pb Ha) as H;
    destruct (SFdiv_core_binary prec emax (Z.pos pa) 0 (Z.pos pb) 0) as [[mz ez] lz];
    destruct H as (H1 & H2 & H3); by apply binary_round_aux_finite.
Qed.

(** The arithmetic is that of the floats: 0.1 + 0.2 is
    0.30000000000000004 and not the float of 0.3, 1 - 0.9 is
    0.09999999999999998, [max] returns the largest element, [max(0, x)]
    floors a negative difference, and a division raises on a zero divisor
    and on a quotient beyond the floats. *)
Lemma binary64_samples :
  add (of_decimal (1 # 10)) (of_decimal (2 # 10)) = S754_finite false 5404319552844596 (-54)
  /\ of_decimal (3 # 10) = S754_finite false 5404319552844595 (-54)
  /\ sub one (of_decimal (9 # 10)) = S754_finite false 7205759403792792 (-56)
  /\ max_of (of_decimal (25 # 100)) [of_decimal (75 # 100); of_decimal (5 # 10)]
     = of_decimal (75 # 100)
  /\ max0 (sub one (quotient 150 100)) = zero
  /\ truediv 1 0 = Raise ZeroDivisionError
  /\ truediv (2 ^ 1024) 1 = Raise OverflowError
  /\ truediv 0 (-5) = Ok (S754_zero true).
Proof. vm_compute. repeat split; reflexivity. Qed.

Lemma truediv_ok (a b : Z) :
  in_range a = true -> b <> 0 -> truediv a b = Ok (quotient a b).
Proof.
  intros Ha Hb. unfold truediv. destruct (b =? 0) eqn:E; [lia|].
  by destruct (quotient_cases a b Ha Hb) as [->|(m & e & ->)].
Qed.

Lemma quotient_defined (a b : Z) :
  in_range a = true -> b <> 0 -> quotient a b <> S754_nan.
Proof. intros Ha Hb. by destruct (quotient_cases a b Ha Hb) as [->|(m & e & ->)]. Qed.

(** A quotient that is not positive is below every positive float. *)
Lemma quotient_nonpos_below (c : float) (a b : Z) :
  in_range a = true -> a <= 0 -> 0 < b -> lt zero c = true -> le c (quotient a b) = false.
Proof.
  intros Ha Hle Hb Hc.
  assert (sign_of a b = (a <? 0)) as Hs.
  { unfold sign_of. destruct (b <? 0) eqn:E; [lia|]. by destruct (a <? 0). }
  destruct (Z.eq_dec a 0) as [->|Hne].
  { destruct b; try done. by destruct c as [[]|[]| |[] ? ?]. }
  destruct (a <? 0) eqn:E; [|lia].
  destruct (quotient_cases a b Ha ltac:(lia)) as [->|(m & e & ->)]; rewrite Hs;
    by destruct c as [[]|[]| |[] ? ?].
Qed.

Lemma le_zero_below (c : float) : lt zero c = true -> le c zero = false.
Proof. by destruct c as [[]|[]| |[] ? ?]. Qed.

(** [max] of a list of numbers: a bound is reached by the maximum exactly
    when an element reaches it. *)
Lemma le_max_of (c u : float) (us : list float) :
  Forall (fun x => x <> S754_nan) (u :: us) ->
  le c (max_of u us) = le c u || existsb (le c) us.
Proof.
  unfold max_of. revert u. induction us as [|v us IH]; intros u Hall; cbn.
  - by rewrite orb_false_r.
  - inversion Hall as [|? ? Hu Hrest]; subst. inversion Hrest as [|? ? Hv Hus]; subst.
    rewrite orb_assoc. destruct (lt u v) eqn:E; rewrite IH by (by constructor); f_equal.
    + destruct (le c u) eqn:Ecu; [|done]. cbn.
      by apply lt_le, (le_lt_trans c u v).
    + destruct (le c v) eqn:Ecv; [|by rewrite orb_false_r].
      rewrite orb_true_r. apply (le_trans c v u); [done|]. by apply not_lt_le.
Qed.

End B64Facts.

(** * The decision rules in binary64 *)

Module PlayerB64Facts.
Import Player PlayerB64 B64Facts.

(** *** The urgency loop *)

Lemma needed_in_range (self : BouncerPolicy) (attr : string) (data : constraint_data) :
  counts_in_range self = true ->
  constraints self !! attr = Some data ->
  B64.in_range (needed data) = true.
Proof.
  intros Hr Hl. apply andb_true_iff in Hr as [_ Hall].
  rewrite forallb_forall in Hall.
  apply (Hall (attr, data)), list_elem_of_In. by apply elem_of_map_to_list.
Qed.

Lemma carried_in_range (self : BouncerPolicy) (items : list (string * bool)) :
  counts_in_range self = true ->
  Forall (fun data => B64.in_range (needed data) = true) (SpecB64.carried self items).
Proof.
  intros Hr. apply Forall_forall. intros data Hin.
  apply list_elem_of_omap in Hin as ([attr has_attr] & _ & Hsome). cbn in Hsome.
  destruct has_attr; [|done]. by apply (needed_in_range self attr).
Qed.

Lemma urgencies_of_quotients (self : BouncerPolicy) (items : list (string * bool)) :
  0 < slots_remaining self ->
  counts_in_range self = true ->
  urgencies_of self items
  = Ok (map (SpecB64.signed_urgency (slots_remaining self)) (SpecB64.carried self items)).
Proof.
  intros Hpos Hr. unfold SpecB64.carried.
  induction items as [|[attr has_attr] rest IH]; [done|].
  cbn [urgencies_of omap list_omap fst snd].
  destruct (constraints self !! attr) as [data|] eqn:E.
  - destruct has_attr; cbn [andb].
    + destruct (0 <? slots_remaining self) eqn:E0; [|lia].
      rewrite B64Facts.truediv_ok by (by eapply needed_in_range || lia).
      rewrite IH. cbn.
      unfold SpecB64.signed_urgency, needed. by rewrite Z.max_r by lia.
    + exact IH.
  - destruct has_attr; exact IH.
Qed.

Lemma signed_urgency_defined (slots : Z) (data : constraint_data) :
  0 < slots -> B64.in_range (needed data) = true ->
  SpecB64.signed_urgency slots data <> S754_nan.
Proof.
  intros Hs Hr. unfold SpecB64.signed_urgency. apply quotient_defined; [done|lia].
Qed.

Lemma deficit_in_range (data : constraint_data) :
  B64.in_range (needed data) = true -> B64.in_range (Spec.deficit data) = true.
Proof.
  unfold B64.in_range, Spec.deficit, needed. rewrite !Z.ltb_lt.
  assert (0 < 2 ^ (B64.emax - 1)) by (by vm_compute). lia.
Qed.

Lemma urgency_defined (slots : Z) (data : constraint_data) :
  0 < slots -> B64.in_range (needed data) = true ->
  SpecB64.urgency slots data <> S754_nan.
Proof.
  intros Hs Hr. unfold SpecB64.urgency.
  apply quotient_defined; [by apply deficit_in_range|lia].
Qed.

(** For a positive bound, flooring the deficit at 0 changes nothing. *)
Lemma le_signed_urgency (c : B64.float) (slots : Z) (data : constraint_data) :
  B64.lt B64.zero c = true -> 0 < slots -> B64.in_range (needed data) = true ->
  B64.le c (SpecB64.signed_urgency slots data) = B64.le c (SpecB64.urgency slots data).
Proof.
  intros Hc Hs Hr. unfold SpecB64.signed_urgency, SpecB64.urgency, Spec.deficit.
  fold (needed data).
  destruct (Z_le_gt_dec (needed data) 0) as [Hle|Hgt].
  - rewrite (Z.max_l 0 (needed data)) by lia.
    rewrite (quotient_nonpos_below c (needed data)) by (done || lia).
    by rewrite (quotient_nonpos_below c 0) by (done || lia).
  - by rewrite (Z.max_r 0 (needed data)) by lia.
Qed.

Lemma existsb_floored (c : B64.float) (slots : Z) (ds : list constraint_data) :
  B64.lt B64.zero c = true -> 0 < slots ->
  Forall (fun data => B64.in_range (needed data) = true) ds ->
  existsb (B64.le c) (map (SpecB64.signed_urgency slots) ds)
  = existsb (B64.le c) (map (SpecB64.urgency slots) ds).
Proof.
  intros Hc Hs. induction 1 as [|d ds Hd _ IH]; cbn; [done|].
  by rewrite IH, le_signed_urgency.
Qed.

Lemma le_higher (c x y : B64.float) :
  x <> S754_nan -> y <> S754_nan ->
  B64.le c (SpecB64.higher x y) = B64.le c x || B64.le c y.
Proof.
  intros Hx Hy. unfold SpecB64.higher. destruct (B64.lt x y) eqn:E.
  - destruct (B64.le c x) eqn:Ecx; [|done]. cbn.
    by apply lt_le, (le_lt_trans c x y).
  - destruct (B64.le c y) eqn:Ecy; [|by rewrite orb_false_r].
    rewrite orb_true_r. apply (le_trans c y x); [done|]. by apply not_lt_le.
Qed.

Lemma le_foldr_higher (c : B64.float) (l : list B64.float) :
  Forall (fun x => x <> S754_nan) l ->
  B64.le c (foldr SpecB64.higher B64.zero l) = B64.le c B64.zero || existsb (B64.le c) l.
Proof.
  induction 1 as [|x l Hx Hl IH]; cbn [foldr existsb].
  - by rewrite orb_false_r.
  - assert (foldr SpecB64.higher B64.zero l <> S754_nan) as Hm.
    { clear IH. induction Hl as [|y l Hy _ IHl]; cbn; [done|].
      unfold SpecB64.higher. by destruct (B64.lt y _). }
    rewrite le_higher, IH by done.
    by destruct (B64.le c x), (B64.le c B64.zero), (existsb (B64.le c) l).
Qed.

(** *** C3: the early-phase rule *)

(** C3, as stated, fails: with an admission bar of 0 and a candidate who
    carries no tracked attribute, the rule of the specification admits
    (0 >= 0) and the code rejects. *)
Lemma early_rule_refuted :
  _max_urgency_logic Samples.fresh_lenient SamplesB64.not_young = Ok false
  /\ SpecB64.early_rule Samples.fresh_lenient SamplesB64.not_young = true.
Proof. vm_compute. split; reflexivity. Qed.

(** C3, amended. With slots remaining, counts in the range of the
    division and an admission bar
    [baseLeniency + scalingFactor * (acceptedCount / 1000)] that is
    positive, the Max-Urgency logic admits if and only if
    [maxUrgency >= 1] or [maxUrgency >= bar], with [maxUrgency] the highest
    [max(0, target - admitted) / max(1, slotsRemaining)] over the carried
    tracked attributes, 0 when there is none; every operation and
    comparison is that of binary64. *)
Theorem max_urgency_rule (self : BouncerPolicy) (person_attributes : list (string * bool)) :
  0 < slots_remaining self ->
  counts_in_range self = true ->
  B64.lt B64.zero (SpecB64.admission_bar self) = true ->
  _max_urgency_logic self person_attributes
  = Ok (SpecB64.early_rule self person_attributes).
Proof.
  intros Hs Hr Hbar. unfold _max_urgency_logic.
  rewrite urgencies_of_quotients by done. cbn [mbind result_bind].
  pose proof (carried_in_range self person_attributes Hr) as Hds.
  unfold SpecB64.early_rule, SpecB64.maxUrgency.
  assert (Forall (fun x => x <> S754_nan)
            (map (SpecB64.urgency (slots_remaining self))
                 (SpecB64.carried self person_attributes))) as Hdef.
  { apply Forall_map. eapply Forall_impl; [exact Hds|].
    intros d Hd. by apply urgency_defined. }
  assert (Forall (fun x => x <> S754_nan)
            (map (SpecB64.signed_urgency (slots_remaining self))
                 (SpecB64.carried self person_attributes))) as Hsdef.
  { apply Forall_map. eapply Forall_impl; [exact Hds|].
    intros d Hd. by apply signed_urgency_defined. }
  assert (B64.lt B64.zero B64.one = true) as Hone by reflexivity.
  rewrite !le_foldr_higher, (le_zero_below _ Hone), (le_zero_below _ Hbar) by done.
  cbn [orb].
  rewrite <- !existsb_floored by done.
  assert (dynamic_threshold self = Ok (SpecB64.admission_bar self)) as Hdyn.
  { unfold dynamic_threshold. rewrite B64Facts.truediv_ok; [done| |done].
    by apply andb_true_iff in Hr as [? _]. }
  destruct (SpecB64.carried self person_attributes) as [|d ds]; [done|].
  cbn [map] in *. rewrite Hdyn. cbn [mbind result_bind mret result_ret].
  rewrite !le_max_of by done. cbn [existsb].
  by destruct (B64.le B64.one _ || _).
Qed.

Lemma max_urgency_rule_witness :
  _max_urgency_logic Samples.slow_start SamplesB64.carries_young
  = Ok (SpecB64.early_rule Samples.slow_start SamplesB64.carries_young).
Proof. apply max_urgency_rule; reflexivity. Defined.

(** At a tie of the exact values the floats decide: 531 of 900 slots is
    0.59, the bar [0.55 + 0.4 * (100 / 1000)] is 0.5900000000000001, and
    the code rejects. *)
Lemma max_urgency_below_rounded_bar :
  urgencies_of SamplesB64.at_the_bar SamplesB64.carries_young = Ok [B64.of_decimal (59 # 100)]
  /\ dynamic_threshold SamplesB64.at_the_bar
     = Ok (S754_finite false 5314247560297186 (-53))
  /\ B64.of_decimal (59 # 100) = S754_finite false 5314247560297185 (-53)
  /\ _max_urgency_logic SamplesB64.at_the_bar SamplesB64.carries_young = Ok false.
Proof. vm_compute. repeat split; reflexivity. Qed.

(** Under a negative bar the two differ also on a candidate who carries a
    tracked attribute: the quota is exceeded, the code compares -0.1 with
    the bar -0.05 and rejects, the rule of the specification compares 0
    and admits. *)
Lemma early_rule_differs_under_negative_bar :
  _max_urgency_logic SamplesB64.negative_bar SamplesB64.carries_young = Ok false
  /\ SpecB64.early_rule SamplesB64.negative_bar SamplesB64.carries_young = true.
Proof. vm_compute. split; reflexivity. Qed.

(** Without a slot left the code rejects, where the rule of the
    specification, dividing by [max(1, 0)], admits. *)
Lemma early_rule_differs_without_slots :
  _max_urgency_logic Samples.full_house_max_urgency SamplesB64.carries_young = Ok false
  /\ SpecB64.early_rule Samples.full_house_max_urgency SamplesB64.carries_young = true.
Proof. vm_compute. split; reflexivity. Qed.

(** *** C4: the late-phase rule *)

(** C4, as stated, fails under the default strategy: with 10 slots left, a
    candidate carrying an attribute 8 short of its quota and an attribute
    1 over its quota has a floored sum of 0.8 >= 0.75, so the rule of the
    specification admits; the code adds 0.8 and -0.1 and rejects. *)
Lemma late_rule_refuted :
  panic_mode Samples.two_quotas Samples.young_local = false
  /\ _combined_value_logic Samples.two_quotas SamplesB64.young_local = Ok false
  /\ SpecB64.late_rule Samples.two_quotas SamplesB64.young_local = true.
Proof. vm_compute. repeat split; reflexivity. Qed.

(** C4, amended. With slots remaining and counts in the range of the
    division, let [sum] be the total of
    [(target - admitted) / max(1, slotsRemaining)], not floored at 0, over
    the tracked attributes the candidate carries, added in binary64 in the
    order of the candidate's attributes.  The Combined-Value logic admits
    if and only if [sum] is not 0 and [sum >= 1 + bufferPercent] or
    [sum >= baseThreshold]. *)
Theorem combined_value_rule (self : BouncerPolicy) (person_attributes : list (string * bool)) :
  0 < slots_remaining self ->
  counts_in_range self = true ->
  _combined_value_logic self person_attributes
  = Ok (SpecB64.signed_late_rule self person_attributes).
Proof.
  intros Hs Hr. unfold _combined_value_logic.
  rewrite urgencies_of_quotients by done. cbn [mbind result_bind].
  unfold SpecB64.signed_late_rule. fold (SpecB64.signed_sum self person_attributes).
  unfold effective_buffer_percent, effective_base_threshold. cbv zeta.
  destruct (B64.eq _ B64.zero); [done|]. cbn [negb andb].
  by destruct (B64.le (B64.add _ _) _).
Qed.

Lemma combined_value_rule_witness :
  _combined_value_logic Samples.two_quotas SamplesB64.young_local
  = Ok (SpecB64.signed_late_rule Samples.two_quotas SamplesB64.young_local).
Proof. apply combined_value_rule; reflexivity. Defined.

(** The sum is the sum of the floats: 2/20 + 7/20 is 0.44999999999999996,
    below the threshold 0.45, and the code rejects. *)
Lemma combined_sum_below_rounded_threshold :
  SpecB64.signed_sum SamplesB64.two_short SamplesB64.young_local
  = S754_finite false 8106479329266892 (-54)
  /\ B64.of_decimal (45 # 100) = S754_finite false 8106479329266893 (-54)
  /\ _combined_value_logic SamplesB64.two_short SamplesB64.young_local = Ok false.
Proof. vm_compute. repeat split; reflexivity. Qed.

Lemma late_rule_differs_without_slots :
  _combined_value_logic Samples.full_house SamplesB64.carries_young = Ok false
  /\ SpecB64.late_rule Samples.full_house SamplesB64.carries_young = true.
Proof. vm_compute. split; reflexivity. Qed.

(** Where no carried tracked attribute is over its quota, the sum is the
    floored sum of the specification. *)
Lemma signed_sum_is_combined_sum (self : BouncerPolicy)
    (person_attributes : list (string * bool)) :
  Forall (fun data => admitted data <= target data) (SpecB64.carried self person_attributes) ->
  SpecB64.signed_sum self person_attributes = SpecB64.combined_sum self person_attributes.
Proof.
  unfold SpecB64.signed_sum, SpecB64.combined_sum. intros H. f_equal.
  induction H as [|d ds Hd _ IH]; [done|].
  cbn [map]. rewrite IH. f_equal.
  unfold SpecB64.signed_urgency, SpecB64.urgency, Spec.deficit.
  by rewrite (Z.max_r 0 (target d - admitted d)) by lia.
Qed.

End PlayerB64Facts.

(** * The similarity score and the similarity lookup in binary64 *)

Module CacheB64Facts.
Import Cache CacheB64 CacheSpecB64 B64Facts.

(** *** The targets of a state *)

Lemma constraint_targets_snoc (cs : list constraint) (c : constraint) :
  constraint_targets (cs ++ [c])
  = <[attribute c := default 0 (minCount c)]> (constraint_targets cs).
Proof. unfold constraint_targets. by rewrite fold_left_app. Qed.

Lemma constraint_on_snoc (cs : list constraint) (c : constraint) (attr : string) :
  constraint_on (cs ++ [c]) attr
  = if String.eqb (attribute c) attr then Some c else constraint_on cs attr.
Proof. unfold constraint_on. by rewrite rev_unit. Qed.

(** The dict of the code holds, per attribute, the target of the state. *)
Lemma constraint_targets_lookup (cs : list constraint) (attr : string) :
  constraint_targets cs !! attr
  = (fun c => default 0 (minCount c)) <$> constraint_on cs attr.
Proof.
  induction cs as [|c cs IH] using rev_ind; [done|].
  rewrite constraint_targets_snoc, constraint_on_snoc.
  destruct (String.eqb_spec (attribute c) attr) as [->|Hne].
  - by rewrite lookup_insert_eq.
  - by rewrite lookup_insert_ne.
Qed.

Lemma constraint_targets_target (cs : list constraint) (attr : string) :
  default 0 (constraint_targets cs !! attr) = target_of cs attr.
Proof.
  rewrite constraint_targets_lookup. unfold target_of.
  by destruct (constraint_on cs attr).
Qed.

Lemma constraint_on_Some (cs : list constraint) (attr : string) (c : constraint) :
  constraint_on cs attr = Some c -> c ∈ cs /\ attribute c = attr.
Proof.
  unfold constraint_on. intros H. apply find_some in H as [Hin Heq].
  split; [by apply list_elem_of_In, in_rev|]. by apply String.eqb_eq.
Qed.

Lemma constraint_on_None (cs : list constraint) (attr : string) :
  constraint_on cs attr = None -> forall c, c ∈ cs -> attribute c <> attr.
Proof.
  unfold constraint_on. intros H c Hin Heq.
  assert (String.eqb (attribute c) attr = false) as Hf.
  { apply (find_none _ _ H c). rewrite <- in_rev. by apply list_elem_of_In. }
  apply String.eqb_neq in Hf. done.
Qed.

(** The keys of the dict of the code are the attributes of the state. *)
Lemma constraint_targets_dom (s : game_state) (attr : string) :
  attr ∈ dom (constraint_targets (constraints s)) <-> has_attribute s attr.
Proof.
  rewrite elem_of_dom, constraint_targets_lookup. unfold has_attribute, is_Some.
  destruct (constraint_on (constraints s) attr) as [c|] eqn:E; cbn.
  - apply constraint_on_Some in E as [Hin Heq]. split; [by exists c|by eexists].
  - split; [by intros [? ?]|].
    intros (c & Hin & Heq). by destruct (constraint_on_None _ _ E c Hin).
Qed.

(** *** The score *)

Lemma mul_comm (x y : B64.float) : B64.mul x y = B64.mul y x.
Proof.
  destruct x as [sx|sx| |sx mx ex], y as [sy|sy| |sy my ey]; unfold B64.mul, SFmul;
    rewrite ?(xorb_comm sy sx), ?(Pos.mul_comm my mx), ?(Z.add_comm ey ex); reflexivity.
Qed.

Lemma small_difference (a b : Z) :
  small a = true -> small b = true -> B64.in_range (Z.abs (a - b)) = true.
Proof.
  unfold small, B64.in_range. rewrite !Z.ltb_lt.
  assert (2 ^ (B64.emax - 1) = 2 * 2 ^ (B64.emax - 2)) as -> by (by vm_compute).
  generalize (2 ^ (B64.emax - 2)). lia.
Qed.

Lemma closeness_ok (a b scale : Z) :
  small a = true -> small b = true -> scale <> 0 ->
  CacheB64.closeness (Z.abs (a - b)) scale = Ok (CacheSpecB64.closeness (a - b) scale).
Proof.
  intros Ha Hb Hs. unfold CacheB64.closeness.
  by rewrite truediv_ok by (by apply small_difference || done).
Qed.

Lemma target_small (s : game_state) (attr : string) :
  counts_in_range s = true -> small (target_of (constraints s) attr) = true.
Proof.
  intros Hr. unfold target_of.
  destruct (constraint_on (constraints s) attr) as [c|] eqn:E; [|done].
  apply constraint_on_Some in E as [Hin _].
  apply andb_true_iff in Hr as [_ Hall]. rewrite forallb_forall in Hall.
  by apply Hall, list_elem_of_In.
Qed.

Lemma constraint_loop_ok (s1 s2 : game_state) (attrs : list string) (acc : B64.float) :
  counts_in_range s1 = true -> counts_in_range s2 = true ->
  constraint_loop (constraint_targets (constraints s1)) (constraint_targets (constraints s2))
                  attrs acc
  = Ok (fold_left B64.mul
          (map (fun attr => CacheSpecB64.closeness
                              (target_of (constraints s1) attr
                               - target_of (constraints s2) attr) 200) attrs)
          acc).
Proof.
  intros H1 H2. revert acc. induction attrs as [|attr attrs IH]; intros acc; [done|].
  cbn [constraint_loop map fold_left]. rewrite !constraint_targets_target.
  rewrite closeness_ok by (by apply target_small || done).
  cbn [mbind result_bind]. apply IH.
Qed.

Lemma person_small (s : game_state) :
  counts_in_range s = true ->
  small (default 0 (current_person s)) = true /\ small (default 0 (accepted_count s)) = true.
Proof. intros Hr. apply andb_true_iff in Hr as [Hr _]. by apply andb_true_iff in Hr. Qed.

(** On states with counts in range the body of the [try] raises nothing,
    and the score is the weighted sum of the three factors, the constraint
    factor comparing the targets. *)
Lemma similarity_is_by_target (order : game_state -> game_state -> list string)
    (s1 s2 : game_state) :
  counts_in_range s1 = true -> counts_in_range s2 = true ->
  _calculate_similarity order s1 s2 = similarity_by_target (order s1 s2) s1 s2.
Proof.
  intros H1 H2. unfold _calculate_similarity, similarity_body.
  destruct (person_small s1 H1) as [Hp1 Ha1], (person_small s2 H2) as [Hp2 Ha2].
  rewrite !closeness_ok by done. cbn [mbind result_bind].
  rewrite constraint_loop_ok by done. cbn [mbind result_bind mret result_ret].
  unfold similarity_by_target, weighted, constraintSim, product, personSim, acceptSim.
  by rewrite !(mul_comm (B64.of_decimal _)).
Qed.

(** *** C6: the score and the similarity lookup *)

(** C6, as stated, fails: two states that differ only in the admitted
    count of a quota have the same targets, so the code scores them 1.0,
    where the comparison of deficits gives 0.85. *)
Lemma similarity_by_deficit_refuted :
  _calculate_similarity CacheSamplesB64.by_key CacheSamples.none_young CacheSamples.all_young
  = B64.one
  /\ similarity_by_deficit
       (CacheSamplesB64.by_key CacheSamples.none_young CacheSamples.all_young)
       CacheSamples.none_young CacheSamples.all_young
     = B64.of_decimal (85 # 100)
  /\ _calculate_similarity CacheSamplesB64.by_key CacheSamples.none_young CacheSamples.all_young
     <> similarity_by_deficit
          (CacheSamplesB64.by_key CacheSamples.none_young CacheSamples.all_young)
          CacheSamples.none_young CacheSamples.all_young.
Proof. vm_compute. repeat split; done. Qed.

Lemma lt_irrefl (x : B64.float) : B64.lt x x = false.
Proof. destruct (B64.lt x x) eqn:E; [|done]. by rewrite (lt_asym x x E) in E. Qed.

Section Lookup.
Variable order : game_state -> game_state -> list string.

Lemma best_scan_binary64 (now : Z) (gs : game_state) (items : list (string * CachedStrategy))
    (bm : option (string * CachedStrategy)) (bs : B64.float) :
  (best_scan order now gs items bm bs = (bm, bs)
   /\ forall k e, (k, e) ∈ items -> _is_cache_valid now e = true ->
        ~ (B64.lt bs (score order gs e) = true
           /\ B64.le similarity_threshold (score order gs e) = true))
  \/ (exists k e,
        best_scan order now gs items bm bs = (Some (k, e), score order gs e)
        /\ (k, e) ∈ items
        /\ _is_cache_valid now e = true
        /\ B64.le similarity_threshold (score order gs e) = true
        /\ B64.lt bs (score order gs e) = true
        /\ forall k' e', (k', e') ∈ items -> _is_cache_valid now e' = true ->
             B64.lt (score order gs e) (score order gs e') = false).
Proof.
  revert bm bs. induction items as [|[k0 e0] rest IH]; intros bm bs.
  { left. split; [done|]. intros k e Hin. by apply elem_of_nil in Hin. }
  cbn [best_scan]. fold (score order gs e0).
  destruct (_is_cache_valid now e0) eqn:Hv0; cbn [negb].
  - destruct (B64.lt bs (score order gs e0)
              && B64.le similarity_threshold (score order gs e0)) eqn:Hc.
    + apply andb_true_iff in Hc as [Hgt Hthr].
      right. destruct (IH (Some (k0, e0)) (score order gs e0))
        as [[Heq Hall]|(k & e & Heq & Hin & Hv & Ht & Hbeat & Hall)].
      * exists k0, e0. rewrite Heq. repeat split; try done; [by left|].
        intros k' e' Hin' Hv'. apply elem_of_cons in Hin' as [Hhd|Hin'].
        -- inversion Hhd; subst. apply lt_irrefl.
        -- destruct (B64.lt (score order gs e0) (score order gs e')) eqn:Hbig; [|done].
           exfalso. apply (Hall k' e' Hin' Hv'). split; [done|].
           by apply lt_le, (le_lt_trans _ (score order gs e0)).
      * exists k, e. rewrite Heq. repeat split; try done; [by right| |].
        -- by apply (lt_trans _ (score order gs e0)).
        -- intros k' e' Hin' Hv'. apply elem_of_cons in Hin' as [Hhd|Hin'].
           ++ inversion Hhd; subst. by apply lt_asym.
           ++ by apply (Hall k' e').
    + assert (~ (B64.lt bs (score order gs e0) = true
                 /\ B64.le similarity_threshold (score order gs e0) = true)) as Hno.
      { intros [Hlt Hthr]. by rewrite Hlt, Hthr in Hc. }
      destruct (IH bm bs) as [[Heq Hall]|(k & e & Heq & Hin & Hv & Ht & Hbeat & Hall)].
      * left. split; [done|].
        intros k' e' Hin' Hv'. apply elem_of_cons in Hin' as [Hhd|Hin'].
        -- by inversion Hhd; subst.
        -- by apply (Hall k' e').
      * right. exists k, e. repeat split; try done; [by right|].
        intros k' e' Hin' Hv'. apply elem_of_cons in Hin' as [Hhd|Hin'].
        -- inversion Hhd; subst.
           destruct (B64.lt (score order gs e) (score order gs e0)) eqn:Hbig; [|done].
           exfalso. apply Hno. split.
           ++ by apply (lt_trans _ (score order gs e)).
           ++ by apply lt_le, (le_lt_trans _ (score order gs e)).
        -- by apply (Hall k' e').
  - destruct (IH bm bs) as [[Heq Hall]|(k & e & Heq & Hin & Hv & Ht & Hbeat & Hall)].
    + left. split; [done|].
      intros k' e' Hin' Hv'. apply elem_of_cons in Hin' as [Hhd|Hin'].
      * inversion Hhd; subst. congruence.
      * by apply (Hall k' e').
    + right. exists k, e. repeat split; try done; [by right|].
      intros k' e' Hin' Hv'. apply elem_of_cons in Hin' as [Hhd|Hin'].
      * inversion Hhd; subst. congruence.
      * by apply (Hall k' e').
Qed.

Lemma similarity_phase_spec (self : StrategyCache) (now : Z) (gs : game_state) :
  match (similarity_phase order self now gs).1 with
  | Some served =>
      exists k e,
        (k, e) ∈ cache self
        /\ _is_cache_valid now e = true
        /\ B64.le (B64.of_decimal (85 # 100)) (score order gs e) = true
        /\ (forall k' e', (k', e') ∈ cache self -> _is_cache_valid now e' = true ->
              B64.lt (score order gs e) (score order gs e') = false)
        /\ served = _add_cache_metadata (strategy e) "similarity_match" (score order gs e)
  | None =>
      forall k e, (k, e) ∈ cache self -> _is_cache_valid now e = true ->
        B64.le (B64.of_decimal (85 # 100)) (score order gs e) = false
  end.
Proof.
  unfold similarity_phase.
  destruct (best_scan_binary64 now gs (cache self) None B64.zero)
    as [[Heq Hall]|(k & e & Heq & Hin & Hv & Ht & Hbeat & Hall)]; rewrite Heq.
  - cbn. intros k e Hin Hv.
    destruct (B64.le (B64.of_decimal (85 # 100)) (score order gs e)) eqn:Hhigh; [|done].
    exfalso. apply (Hall k e Hin Hv). split; [|done].
    by apply (lt_le_trans _ (B64.of_decimal (85 # 100))).
  - cbn. exists k, e. by repeat split.
Qed.

End Lookup.

(** The score of the lookup is the score of the floats: two states 3
    persons and 3 accepts apart whose targets differ by 80 score
    0.8499999999999999, below the threshold 0.85, and the lookup misses. *)
Lemma similarity_below_rounded_threshold :
  _calculate_similarity CacheSamplesB64.by_key
    CacheSamplesB64.query_state CacheSamplesB64.stored_state
  = S754_finite false 7656119366529842 (-53)
  /\ similarity_threshold = S754_finite false 7656119366529843 (-53)
  /\ (similarity_phase CacheSamplesB64.by_key CacheSamplesB64.one_entry 5
        CacheSamplesB64.query_state).1 = None.
Proof. vm_compute. repeat split; reflexivity. Qed.

(** Beyond 100 persons the person factor is floored at 0: 150 persons and
    10 accepts apart on equal targets, the score is
    [0 * 0.4 + 0.8 * 0.3 + 1.0 * 0.3], the float 0.54. *)
Lemma similarity_of_far_states :
  _calculate_similarity CacheSamplesB64.by_key
    CacheSamplesB64.far_state CacheSamplesB64.stored_state
  = B64.of_decimal (54 # 100).
Proof. by vm_compute. Qed.

(** C6, amended. On states with counts in the range of the division, the
    score is [0.4*personSim + 0.3*acceptSim + 0.3*constraintSim] evaluated
    in binary64, where [constraintSim] is the product, in the order in
    which the set of attributes is iterated, over every attribute of
    either state once, of [max(0, 1 - |difference of the targets| / 200)]
    (the targets [minCount], 0 for a state without the attribute; not the
    deficits).  A similarity lookup returns a non-expired entry that no
    other non-expired entry outscores, and only when its score is at
    least the float of 0.85; otherwise it is a miss.  The similarity
    lookup is what [get_cached_strategy] does when the fingerprint has no
    non-expired entry. *)
Theorem similarity_score_and_lookup :
  (forall (order : game_state -> game_state -> list string) (s1 s2 : game_state),
     order s1 s2 ≡ₚ elements (dom (constraint_targets (constraints s1))
                              ∪ dom (constraint_targets (constraints s2))) ->
     counts_in_range s1 = true -> counts_in_range s2 = true ->
     NoDup (order s1 s2)
     /\ (forall attr, attr ∈ order s1 s2 <-> has_attribute s1 attr \/ has_attribute s2 attr)
     /\ _calculate_similarity order s1 s2 = similarity_by_target (order s1 s2) s1 s2)
  /\ (forall (order : game_state -> game_state -> list string)
             (self : StrategyCache) (now : Z) (gs : game_state),
        match (similarity_phase order self now gs).1 with
        | Some served =>
            exists k e,
              (k, e) ∈ cache self
              /\ _is_cache_valid now e = true
              /\ B64.le (B64.of_decimal (85 # 100)) (score order gs e) = true
              /\ (forall k' e', (k', e') ∈ cache self -> _is_cache_valid now e' = true ->
                    B64.lt (score order gs e) (score order gs e') = false)
              /\ served
                 = _add_cache_metadata (strategy e) "similarity_match" (score order gs e)
        | None =>
            forall k e, (k, e) ∈ cache self -> _is_cache_valid now e = true ->
              B64.le (B64.of_decimal (85 # 100)) (score order gs e) = false
        end)
  /\ (forall (order : game_state -> game_state -> list string)
             (fingerprint : game_state -> string) (self : StrategyCache) (now : Z)
             (gs : game_state),
        (forall c, dict_get (fingerprint gs) (cache self) = Some c ->
                   _is_cache_valid now c = false) ->
        get_cached_strategy order fingerprint self now gs
        = similarity_phase order
            {| cache := cache self; stats := count_request (stats self) |} now gs).
Proof.
  split; [|split].
  - intros order s1 s2 Hperm H1 H2. split; [|split].
    + rewrite Hperm. apply NoDup_elements.
    + intros attr. rewrite Hperm, elem_of_elements, elem_of_union.
      by rewrite !constraint_targets_dom.
    + by apply similarity_is_by_target.
  - apply similarity_phase_spec.
  - intros order fingerprint self now gs Hexact. unfold get_cached_strategy. cbn [cache].
    destruct (dict_get (fingerprint gs) (cache self)) as [c|] eqn:E; [|done].
    by rewrite (Hexact c eq_refl).
Qed.

(** *** Symmetry *)

Lemma constraint_loop_swap (c1 c2 : gmap string Z) (attrs : list string) (acc : B64.float) :
  constraint_loop c1 c2 attrs acc = constraint_loop c2 c1 attrs acc.
Proof.
  revert acc. induction attrs as [|attr attrs IH]; intros acc; [done|].
  cbn [constraint_loop].
  replace (default 0 (c2 !! attr) - default 0 (c1 !! attr))
    with (- (default 0 (c1 !! attr) - default 0 (c2 !! attr))) by lia.
  rewrite Z.abs_opp. destruct (CacheB64.closeness _ 200); [|done].
  cbn [mbind result_bind]. apply IH.
Qed.

(** The order that follows the lists of the two states visits every
    attribute of either state once. *)
Lemma as_listed_enumerates (s1 s2 : game_state) :
  CacheSamplesB64.as_listed s1 s2
  ≡ₚ elements (dom (constraint_targets (constraints s1))
               ∪ dom (constraint_targets (constraints s2))).
Proof.
  apply NoDup_Permutation; [apply NoDup_remove_dups|apply NoDup_elements|].
  intros attr. unfold CacheSamplesB64.as_listed.
  rewrite elem_of_remove_dups, elem_of_app, elem_of_elements, elem_of_union.
  rewrite !constraint_targets_dom, !list_elem_of_fmap. unfold has_attribute.
  split; (intros [(c & H1 & H2)|(c & H1 & H2)]; [left|right]; by exists c).
Qed.

(** X22. In binary64 the score of two states does not depend on which
    one is the query when the set of attributes is iterated in the same
    order both ways; iterated in different orders, the two scores can
    differ in the last bit. *)
Theorem similarity_symmetric_in_one_order :
  (forall (order : game_state -> game_state -> list string) (s1 s2 : game_state),
     order s1 s2 = order s2 s1 ->
     _calculate_similarity order s1 s2 = _calculate_similarity order s2 s1)
  /\ (exists (order : game_state -> game_state -> list string) (s1 s2 : game_state),
        order s1 s2 ≡ₚ order s2 s1
        /\ order s1 s2 ≡ₚ elements (dom (constraint_targets (constraints s1))
                                    ∪ dom (constraint_targets (constraints s2)))
        /\ _calculate_similarity order s1 s2 <> _calculate_similarity order s2 s1).
Proof.
  split.
  - intros order s1 s2 Horder. unfold _calculate_similarity, similarity_body.
    rewrite <- Horder, (constraint_loop_swap (constraint_targets (constraints s2))).
    replace (default 0 (current_person s2) - default 0 (current_person s1))
      with (- (default 0 (current_person s1) - default 0 (current_person s2))) by lia.
    replace (default 0 (accepted_count s2) - default 0 (accepted_count s1))
      with (- (default 0 (accepted_count s1) - default 0 (accepted_count s2))) by lia.
    by rewrite !Z.abs_opp.
  - exists CacheSamplesB64.as_listed, CacheSamplesB64.first_state, CacheSamplesB64.second_state.
    split; [|split].
    + rewrite !as_listed_enumerates. by rewrite (comm_L (∪)).
    + apply as_listed_enumerates.
    + by vm_compute.
Qed.

End CacheB64Facts.
